(** * filetag_explorer: the catalog store and the reconciler

    A shallow embedding of the store operations and of the index / rescan
    procedure of [app.py] and of its refactoring [tagfile-c.py].

    - Python [str] and SQLite [TEXT] are [string]; a character is an [ascii].
    - Python [int] and SQLite [INTEGER] are [Z]; [mtime] ([REAL], a float that
      is only stored and compared) is a rational [Q].
    - A table is the list of its rows in storage order.
    - The host ([os.path], [pathlib], the file system, the clock) is a record
      [OS]; an operation reads one snapshot of it.
    - An exception is the [Raised] case of [outcome].  On the disk, [stat]
      raises inside [upsert_file] and [exists] raises inside the pruning of
      a scan; [remove_missing_under] itself is the function on the calls
      where [exists] returns.
    - A scan worker is the function its thread runs; what it emits and the
      store calls it makes are collected, in order, in a log of [event]s.
      The slots connected to the signals belong to the GUI layer. *)

From Stdlib Require Import List String Ascii ZArith QArith Bool Lia.
Import ListNotations.
Local Open Scope string_scope.
Local Open Scope Z_scope.

(** ** Python builtins used by the sources *)
Module Py.

(** [bool(s)] for a [str]. *)
Definition truthy (s : string) : bool := negb (s =? "")%string.

(** [c.isspace()] on the code points below 256. *)
Definition isspace (c : ascii) : bool :=
  let n := N_of_ascii c in
  (((9 <=? n) && (n <=? 13)) || ((28 <=? n) && (n <=? 32))
   || (n =? 133) || (n =? 160))%N.

Fixpoint lstrip (s : string) : string :=
  match s with
  | "" => ""
  | String c s' => if isspace c then lstrip s' else s
  end.

Fixpoint rstrip (s : string) : string :=
  match s with
  | "" => ""
  | String c s' =>
      let r := rstrip s' in
      if isspace c && (r =? "")%string then "" else String c r
  end.

(** [s.strip()] *)
Definition strip (s : string) : string := rstrip (lstrip s).

(** [s.replace(old, new)] for a one-character [old]. *)
Fixpoint replace_char (old : ascii) (new : string) (s : string) : string :=
  match s with
  | "" => ""
  | String c s' =>
      if (c =? old)%char then new ++ replace_char old new s'
      else String c (replace_char old new s')
  end.

(** [s.startswith(p)] *)
Definition startswith (s p : string) : bool := String.prefix p s.

(** [sep.join(l)] *)
Definition join (sep : string) (l : list string) : string := String.concat sep l.

(** [list(set(l))]: the distinct elements (the iteration order of a Python
    set is unspecified; first occurrences are kept here). *)
Definition uniq (l : list string) : list string := rev (nodup string_dec (rev l)).

Inductive exn := OSError.

Inductive outcome (A : Type) :=
| Returned (a : A)
| Raised (e : exn).
Arguments Returned {A} a.
Arguments Raised {A} e.

End Py.

(** ** The part of SQLite the queries rely on *)
Module Sqlite.

(** [sqlite3Tolower]: only A-Z are folded. *)
Definition tolower (c : ascii) : ascii :=
  let n := N_of_ascii c in
  if ((65 <=? n) && (n <=? 90))%N then ascii_of_N (n + 32) else c.

Definition char_eq_nocase (c d : ascii) : bool := (tolower c =? tolower d)%char.

Definition is_escape (esc : option ascii) (c : ascii) : bool :=
  match esc with
  | Some e => (c =? e)%char
  | None => false
  end.

(** [s LIKE pat ESCAPE esc] (the relation [patternCompare] decides for
    [likeInfoNorm]): [%] is any run of characters, [_] is any one
    character, the escape character makes the next one literal, anything
    else is compared without ASCII case. *)
Fixpoint like (esc : option ascii) (pat : string) : string -> bool :=
  match pat with
  | "" => fun s => (s =? "")%string
  | String c pat' =>
      if (c =? "%")%char then
        fix star (s : string) : bool :=
          like esc pat' s
          || match s with
             | "" => false
             | String _ s' => star s'
             end
      else if is_escape esc c then
        match pat' with
        | "" => fun _ => false
        | String c2 pat'' =>
            fun s =>
              match s with
              | "" => false
              | String d s' => char_eq_nocase c2 d && like esc pat'' s'
              end
        end
      else if (c =? "_")%char then
        fun s =>
          match s with
          | "" => false
          | String _ s' => like esc pat' s'
          end
      else
        fun s =>
          match s with
          | "" => false
          | String d s' => char_eq_nocase c d && like esc pat' s'
          end
  end.

(** *** Schema ([init_db]) *)

(** [files(id INTEGER PRIMARY KEY, path TEXT UNIQUE, size INTEGER,
    mtime REAL, hash TEXT)] *)
Record file_row := mk_file
  { f_id : Z; f_path : string; f_size : Z; f_mtime : Q; f_hash : option string }.

(** [tags(id INTEGER PRIMARY KEY, name TEXT UNIQUE, ord INTEGER)];
    [ord] may be [NULL]. *)
Record tag_row := mk_tag
  { t_id : Z; t_name : string; t_ord : option Z }.

(** [file_tags(file_id, tag_id, UNIQUE(file_id, tag_id))], both columns
    [ON DELETE CASCADE]. *)
Record file_tag_row := mk_ft { ft_file : Z; ft_tag : Z }.

(** [roots(path TEXT PRIMARY KEY, last_scanned REAL)] *)
Record root_row := mk_root { r_path : string; r_last_scanned : Z }.

Record DB := mk_db
  { files : list file_row;
    tags : list tag_row;
    file_tags : list file_tag_row;
    roots : list root_row;
    settings : list (string * string) }.

Definition empty_db : DB := mk_db [] [] [] [] [].

(** The rowid given to a row inserted without an id: one more than the
    largest in use, 1 in an empty table. *)
Definition next_rowid (ids : list Z) : Z := fold_right Z.max 0 ids + 1.

Definition ft_eqb (a b : file_tag_row) : bool :=
  (ft_file a =? ft_file b) && (ft_tag a =? ft_tag b).

(** [DELETE FROM files WHERE p], with the cascade on [file_tags]
    ([PRAGMA foreign_keys = ON]). *)
Definition delete_files (p : file_row -> bool) (db : DB) : DB :=
  let gone := map f_id (filter p (files db)) in
  mk_db (filter (fun f => negb (p f)) (files db))
        (tags db)
        (filter (fun ft => negb (existsb (Z.eqb (ft_file ft)) gone)) (file_tags db))
        (roots db)
        (settings db).

(** [DELETE FROM tags WHERE p], with the cascade on [file_tags]. *)
Definition delete_tags_where (p : tag_row -> bool) (db : DB) : DB :=
  let gone := map t_id (filter p (tags db)) in
  mk_db (files db)
        (filter (fun t => negb (p t)) (tags db))
        (filter (fun ft => negb (existsb (Z.eqb (ft_tag ft)) gone)) (file_tags db))
        (roots db)
        (settings db).

(** [DELETE FROM file_tags WHERE p] *)
Definition delete_file_tags (p : file_tag_row -> bool) (db : DB) : DB :=
  mk_db (files db) (tags db) (filter (fun ft => negb (p ft)) (file_tags db))
        (roots db) (settings db).

(** [INSERT OR IGNORE INTO file_tags(file_id, tag_id) VALUES ...], one row
    after the other: a row that would break [UNIQUE(file_id, tag_id)] is
    skipped. *)
Fixpoint insert_or_ignore_file_tags (new : list file_tag_row)
         (tbl : list file_tag_row) : list file_tag_row :=
  match new with
  | [] => tbl
  | r :: new' =>
      insert_or_ignore_file_tags new'
        (if existsb (ft_eqb r) tbl then tbl else tbl ++ [r])
  end.

(** [COALESCE(MAX(mtime), 0)] over the given rows. *)
Definition max_mtime (rows : list file_row) : Q :=
  match rows with
  | [] => 0%Q
  | f :: rest =>
      fold_left (fun m g => if Qle_bool (f_mtime g) m then m else f_mtime g)
                rest (f_mtime f)
  end.

(** [MAX(ord)] ignores [NULL]; [None] when there is no value. *)
Fixpoint max_ord (rows : list tag_row) : option Z :=
  match rows with
  | [] => None
  | t :: rest =>
      match t_ord t, max_ord rest with
      | Some a, Some b => Some (Z.max a b)
      | Some a, None => Some a
      | None, m => m
      end
  end.

End Sqlite.

(** ** The host: [os.path], [pathlib], the file system and the clock *)
Record OS := mk_os
  { os_normpath : string -> string;          (* os.path.normpath *)
    os_sep : string;                         (* os.sep *)
    os_join : string -> string -> string;    (* os.path.join *)
    pathlib_str : string -> string;          (* str(Path(p)) *)
    is_file : string -> bool;                (* Path(p).is_file() *)
    stat : string -> option (Z * Q);         (* Path(p).stat(): st_size, st_mtime; None: OSError *)
    path_exists : string -> bool;            (* Path(p).exists(), when it returns *)
    exists_raises : string -> bool;          (* Path(p).exists() raises (PermissionError) *)
    os_walk : string -> list (string * list string);  (* os.walk(top): dirpath, filenames *)
    getmtime : string -> option Q;           (* os.path.getmtime; None: OSError *)
    now : Z }.                               (* strftime('%s','now') *)

(** What the GUI layer observes of a run: the Qt signals and message boxes,
    and a log entry for each store call of the scan workers. *)
Inductive notice := NeedRoot | Busy | NoRoots | Merged | DuplicateName.

Inductive event :=
| Information (n : notice)
| Warning (n : notice)
| ScanStarted (total : Z)
| ProgressTick (processed total : Z)
| ScanFinished
| Call_add_root (root : string)
| Call_upsert_file (path : string) (raised : bool)
| Call_remove_missing_under (root : string) (removed : Z)
| Raise_remove_missing_under (root : string).

(** The fields of [MainUI] the scan entry points read and write. *)
Record UI := mk_ui
  { root_dir : option string;            (* self.root_dir *)
    root_list_current : option string;   (* self.root_list.currentItem().data(Qt.UserRole) *)
    scan_running : bool }.

(** ** Statements shared by both files *)
Module Stmt.
Import Py Sqlite.

(** [INSERT INTO files(path,size,mtime,hash) VALUES(?,?,?,NULL)
    ON CONFLICT(path) DO UPDATE SET size=excluded.size, mtime=excluded.mtime];
    [touch] is the [DO UPDATE] on a row, which leaves id, path and hash. *)
Definition touch (path : string) (size : Z) (mtime : Q) (f : file_row) : file_row :=
  if (f_path f =? path)%string
  then mk_file (f_id f) (f_path f) size mtime (f_hash f)
  else f.

Definition upsert_files_row (path : string) (size : Z) (mtime : Q) (db : DB) : DB :=
  if existsb (fun f => (f_path f =? path)%string) (files db) then
    mk_db (map (touch path size mtime) (files db))
          (tags db) (file_tags db) (roots db) (settings db)
  else
    mk_db (files db ++ [mk_file (next_rowid (map f_id (files db))) path size mtime None])
          (tags db) (file_tags db) (roots db) (settings db).

(** [SELECT ... FROM files WHERE path LIKE ?] without [ESCAPE] *)
Definition files_like (pat : string) (db : DB) : list file_row :=
  filter (fun f => like None pat (f_path f)) (files db).

(** [INSERT OR IGNORE INTO tags(name,ord) VALUES(?,?)] *)
Definition insert_or_ignore_tag (name : string) (ord : Z) (db : DB) : DB :=
  if existsb (fun t => (t_name t =? name)%string) (tags db) then db
  else mk_db (files db)
             (tags db ++ [mk_tag (next_rowid (map t_id (tags db))) name (Some ord)])
             (file_tags db) (roots db) (settings db).

(** [SELECT id FROM tags WHERE name=?] then [fetchone()] *)
Definition tag_id_by_name (name : string) (db : DB) : option Z :=
  option_map t_id (find (fun t => (t_name t =? name)%string) (tags db)).

(** [INSERT INTO roots(path,last_scanned) VALUES(?,now)
    ON CONFLICT(path) DO UPDATE SET last_scanned=now] *)
Definition upsert_root (path : string) (t : Z) (db : DB) : DB :=
  mk_db (files db) (tags db) (file_tags db)
        (if existsb (fun r => (r_path r =? path)%string) (roots db)
         then map (fun r => if (r_path r =? path)%string then mk_root (r_path r) t else r)
                  (roots db)
         else roots db ++ [mk_root path t])
        (settings db).

(** [DELETE FROM roots WHERE path=?] *)
Definition delete_root (path : string) (db : DB) : DB :=
  mk_db (files db) (tags db) (file_tags db)
        (filter (fun r => negb (r_path r =? path)%string) (roots db))
        (settings db).

(** [UPDATE tags SET name=? WHERE id=?]; [None] is [sqlite3.IntegrityError]
    (another row already has the name). *)
Definition rename_tag (name : string) (tid : Z) (db : DB) : option DB :=
  if existsb (fun t => (t_id t =? tid) && existsb (fun u => negb (t_id u =? tid)
                                                   && (t_name u =? name)%string) (tags db))
             (tags db)
  then None
  else Some (mk_db (files db)
                   (map (fun t => if t_id t =? tid then mk_tag (t_id t) name (t_ord t) else t)
                        (tags db))
                   (file_tags db) (roots db) (settings db)).

(** Insertion sort, for [ORDER BY] on a text column (BINARY collation). *)
Fixpoint insert_by {A} (key : A -> string) (x : A) (l : list A) : list A :=
  match l with
  | [] => [x]
  | y :: l' => if String.leb (key x) (key y) then x :: l else y :: insert_by key x l'
  end.

Definition order_by {A} (key : A -> string) (l : list A) : list A :=
  fold_right (insert_by key) [] l.

(** *** The [SELECT] of [list_files] *)

Inductive sqlval := SInt (z : Z) | SText (s : string).

(** The two shapes of condition [list_files] puts in its [WHERE]. *)
Inductive where_clause :=
| W_path_like      (* f.path LIKE ? *)
| W_exists_tag.    (* EXISTS (SELECT 1 FROM file_tags x WHERE x.file_id=f.id) *)

(** A row of the result: id, path, size, mtime, tags. *)
Definition result_row : Type := Z * string * Z * Q * option string.

Definition row_id (r : result_row) : Z := let '(i, _, _, _, _) := r in i.
Definition row_path (r : result_row) : string := let '(_, p, _, _, _) := r in p.

(** The [n] joins [JOIN file_tags ft_i ON ft_i.file_id=f.id AND ft_i.tag_id=?]
    take the first [n] parameters. *)
Fixpoint bind_joins (n : nat) (ps : list sqlval) : option (list Z * list sqlval) :=
  match n with
  | O => Some ([], ps)
  | S n' =>
      match ps with
      | SInt t :: ps' =>
          match bind_joins n' ps' with
          | Some (ts, rest) => Some (t :: ts, rest)
          | None => None
          end
      | _ => None
      end
  end.

(** The conditions take the parameters that are left, in order; a
    parameter too many or too few is an error. *)
Fixpoint bind_wheres (ws : list where_clause) (ps : list sqlval)
  : option (list (DB -> file_row -> bool)) :=
  match ws with
  | [] => match ps with [] => Some [] | _ => None end
  | W_exists_tag :: ws' =>
      option_map
        (cons (fun db f => existsb (fun x => ft_file x =? f_id f) (file_tags db)))
        (bind_wheres ws' ps)
  | W_path_like :: ws' =>
      match ps with
      | SText pat :: ps' =>
          option_map (cons (fun _ f => like None pat (f_path f))) (bind_wheres ws' ps')
      | _ => None
      end
  end.

(** The rows [f] contributes to [files f JOIN file_tags ft0 ... JOIN ...]. *)
Fixpoint join_rows (db : DB) (tids : list Z) (f : file_row) : list file_row :=
  match tids with
  | [] => [f]
  | t :: ts =>
      flat_map (fun _ => join_rows db ts f)
               (filter (fun ft => (ft_file ft =? f_id f) && (ft_tag ft =? t))
                       (file_tags db))
  end.

(** [(SELECT GROUP_CONCAT(t.name, ', ') FROM tags t JOIN file_tags ft
     ON ft.tag_id=t.id WHERE ft.file_id=f.id)] *)
Definition group_concat_tags (db : DB) (f : file_row) : option string :=
  let names :=
    flat_map (fun t =>
                map (fun _ => t_name t)
                    (filter (fun ft => (ft_tag ft =? t_id t) && (ft_file ft =? f_id f))
                            (file_tags db)))
             (tags db) in
  match names with
  | [] => None
  | _ => Some (join ", " names)
  end.

Definition select_files (joins : nat) (ws : list where_clause) (params : list sqlval)
           (db : DB) : option (list result_row) :=
  match bind_joins joins params with
  | None => None
  | Some (tids, rest) =>
      match bind_wheres ws rest with
      | None => None
      | Some conds =>
          let joined := flat_map (join_rows db tids) (files db) in
          let kept := filter (fun f => forallb (fun c => c db f) conds) joined in
          Some (map (fun f => (f_id f, f_path f, f_size f, f_mtime f,
                               group_concat_tags db f))
                    (order_by f_path kept))
      end
  end.

End Stmt.

(** ** [app.py] *)
Module App.
Import Py Sqlite Stmt.

Section Host.
Variable os : OS.

Definition normalize_path (p : string) : string :=
  if negb (truthy p) then p
  else
    let np := os_normpath os p in
    if (String.length np =? 2)%nat
       && match String.get 1 np with
          | Some c => (c =? ":")%char
          | None => false
          end
    then np ++ os_sep os
    else np.

Definition upsert_file (path : string) (db : DB) : outcome DB :=
  let p := pathlib_str os path in
  if negb (is_file os p) then Returned db
  else
    match stat os p with
    | None => Raised OSError
    | Some (st_size, st_mtime) =>
        let full := normalize_path p in
        Returned (upsert_files_row full st_size st_mtime db)
    end.

Definition remove_missing_under (root : string) (db : DB) : DB * Z :=
  let root := normalize_path root in
  let rows := files_like (root ++ "%") db in
  fold_left
    (fun '(db, removed) row =>
       if negb (path_exists os (pathlib_str os (f_path row)))
       then (delete_files (fun f => f_id f =? f_id row) db, removed + 1)
       else (db, removed))
    rows (db, 0).

(** A call of [remove_missing_under] as the scan workers make it, where
    [Path(fpath).exists()] may raise: the loop is left at the first row for
    which it does, before [conn.commit()], so the deletions made so far are
    not stored.  When no [exists] raises this is [remove_missing_under]. *)
Definition remove_missing_under_try (root : string) (db : DB) : outcome (DB * Z) :=
  let root := normalize_path root in
  let rows := files_like (root ++ "%") db in
  fold_left
    (fun acc row =>
       match acc with
       | Raised e => Raised e
       | Returned (db, removed) =>
           if exists_raises os (pathlib_str os (f_path row)) then Raised OSError
           else if negb (path_exists os (pathlib_str os (f_path row)))
                then Returned (delete_files (fun f => f_id f =? f_id row) db, removed + 1)
                else Returned (db, removed)
       end)
    rows (Returned (db, 0)).

Definition ensure_tag (name : string) (db : DB) : DB * option Z :=
  let name := strip name in
  if negb (truthy name) then (db, None)
  else
    let nxt := match max_ord (tags db) with Some m => m | None => 0 end + 1 in
    let db := insert_or_ignore_tag name nxt db in
    (db, tag_id_by_name name db).

Definition add_root (path : string) (db : DB) : DB :=
  let path := normalize_path path in
  upsert_root path (now os) db.

Definition list_roots (db : DB) : list string :=
  map (fun r => normalize_path (r_path r)) (order_by r_path (roots db)).

Definition remove_root (path : string) (db : DB) : DB :=
  let path := normalize_path path in
  let db := delete_root path db in
  delete_files (fun f => like None (path ++ "%") (f_path f)) db.

Definition count_files_under (root : string) (db : DB) : Z :=
  let root := normalize_path root in
  let esc := replace_char "_" "\_" (replace_char "%" "\%" (replace_char "\" "\\" root)) in
  Z.of_nat (List.length (filter (fun f => like (Some "\"%char) (esc ++ "%") (f_path f))
                                (files db))).

Definition build_query (tag_ids : list Z) (search_text : string) (only_tagged : bool)
  : nat * list where_clause * list sqlval :=
  let '(where_, params) :=
    if truthy search_text
    then ([W_path_like], [SText ("%" ++ search_text ++ "%")])
    else ([], []) in
  let where_ := if only_tagged then (where_ ++ [W_exists_tag])%list else where_ in
  let '(joins, params) :=
    fold_left (fun '(joins, params) tid => (S joins, SInt tid :: params))
              tag_ids (O, params) in
  (joins, where_, params).

Definition list_files (search_text : string) (tag_ids : list Z) (only_tagged : bool)
           (root_prefix : option string) (db : DB) : option (list result_row) :=
  let '(joins, where_, params) := build_query tag_ids search_text only_tagged in
  let '(where_, params) :=
    match root_prefix with
    | Some r =>
        if truthy r
        then ((where_ ++ [W_path_like])%list,
              (params ++ [SText (normalize_path r ++ "%")])%list)
        else (where_, params)
    | None => (where_, params)
    end in
  select_files joins where_ params db.

Definition count_files_on_disk (root : string) : Z :=
  let root := normalize_path root in
  fold_left (fun c '(_, files) => c + Z.of_nat (List.length files)) (os_walk os root) 0.

Definition walk_count_and_max_mtime (root : string) : Z * Q :=
  let root := normalize_path root in
  fold_left
    (fun st '(dp, files) =>
       fold_left
         (fun '(total, max_m) fn =>
            let total := total + 1 in
            match getmtime os (os_join os dp fn) with
            | Some mt => if negb (Qle_bool mt max_m) then (total, mt) else (total, max_m)
            | None => (total, max_m)
            end)
         files st)
    (os_walk os root) (0, 0%Q).

Definition db_count_and_max_mtime_under (root : string) (db : DB) : Z * Q :=
  let root := normalize_path root in
  let rows := files_like (root ++ "%") db in
  (Z.of_nat (List.length rows), max_mtime rows).

(** [MainUI._rename_or_merge_tag] *)
Definition rename_or_merge_tag (old_tid : Z) (new_name : string) (db : DB)
  : DB * list event :=
  if negb (truthy new_name) then (db, [])
  else
    match tag_id_by_name new_name db with
    | Some new_tid =>
        if new_tid =? old_tid then (db, [])
        else
          let moved :=
            map (fun ft => mk_ft (ft_file ft) new_tid)
                (filter (fun ft => ft_tag ft =? old_tid) (file_tags db)) in
          let db := mk_db (files db) (tags db)
                          (insert_or_ignore_file_tags moved (file_tags db))
                          (roots db) (settings db) in
          let db := delete_file_tags (fun ft => ft_tag ft =? old_tid) db in
          let db := delete_tags_where (fun t => t_id t =? old_tid) db in
          (db, [Information Merged])
    | None =>
        match rename_tag new_name old_tid db with
        | Some db => (db, [])
        | None => (db, [Warning DuplicateName])
        end
    end.

(** One turn of the inner loop of a scan worker. *)
Definition scan_file (tick : Z -> bool) (shown_total : Z) (dp fn : string)
           (st : DB * Z * list event) : DB * Z * list event :=
  let '(db, processed, log) := st in
  let full := os_join os dp fn in
  let '(db, raised) :=
    match upsert_file full db with
    | Returned db' => (db', false)
    | Raised _ => (db, true)
    end in
  let processed := processed + 1 in
  let log := (log ++ [Call_upsert_file full raised])%list in
  (db, processed,
   if tick processed then (log ++ [ProgressTick processed shown_total])%list else log).

Definition scan_tree (tick : Z -> bool) (shown_total : Z) (root : string)
           (st : DB * Z * list event) : DB * Z * list event :=
  fold_left
    (fun st '(dp, files) =>
       fold_left (fun st fn => scan_file tick shown_total dp fn st) files st)
    (os_walk os root) st.

(** [worker] of [index_selected_root]; the result is the store, the final
    value of [processed] and the log.  In the [try] block [upsert_file]
    raises, which the loop catches, and [remove_missing_under] raises, which
    nothing catches; the [finally] clause emits [scan_finished] either
    way. *)
Definition index_worker (root : string) (fs_total step : Z) (db : DB)
  : DB * Z * list event :=
  let db := add_root root db in
  let '(db, processed, log) :=
    scan_tree (fun processed => (processed mod step =? 0) || (processed =? fs_total))
              fs_total root (db, 0, [Call_add_root root]) in
  (* finally: [scan_finished] is emitted whether the pruning returned or
     raised; after a raise the exception ends the thread *)
  match remove_missing_under_try root db with
  | Returned (db, removed) =>
      (db, processed,
       (log ++ [Call_remove_missing_under root removed] ++ [ScanFinished])%list)
  | Raised _ =>
      (db, processed, (log ++ [Raise_remove_missing_under root] ++ [ScanFinished])%list)
  end.

Definition falsy (o : option string) : bool :=
  match o with
  | Some s => negb (truthy s)
  | None => true
  end.

(** [MainUI.index_selected_root], run to the end of its worker.  The slot
    that resets [scan_running] runs when the signal is delivered. *)
Definition index_selected_root (ui : UI) (db : DB) : UI * DB * list event :=
  let root := if falsy (root_dir ui)
              then (if falsy (root_list_current ui) then root_dir ui
                    else root_list_current ui)
              else root_dir ui in
  match root with
  | None => (ui, db, [Information NeedRoot])
  | Some root =>
      if negb (truthy root) then (ui, db, [Information NeedRoot])
      else if scan_running ui then (ui, db, [Information Busy])
      else
        let ui := mk_ui (root_dir ui) (root_list_current ui) true in
        let root := normalize_path root in
        let '(fs_total, fs_max_m) := walk_count_and_max_mtime root in
        let '(db_total, db_max_m) := db_count_and_max_mtime_under root db in
        if (fs_total =? db_total) && Qle_bool fs_max_m db_max_m
        then (ui, db, [ScanFinished])
        else
          let step := Z.max 1 (fs_total / 100) in
          let '(db, _, log) := index_worker root fs_total step db in
          (ui, db, ScanStarted fs_total :: log)
  end.

(** [worker] of [rescan_all_roots].  A raise of [remove_missing_under]
    leaves the loop over the roots: the roots after it are not visited. *)
Definition rescan_worker (uniq : list string) (total : Z) (db : DB)
  : DB * Z * list event :=
  let '(db, processed, log, _) :=
    fold_left
      (fun '(db, processed, log, raised) root =>
         if (raised : bool) then (db, processed, log, raised)   (* the loop was left *)
         else
           let db := add_root root db in
           let '(db, processed, log) :=
             scan_tree (fun processed => (processed mod 500 =? 0) || (processed =? total))
                       (if 0 <? total then total else 1)
                       root (db, processed, (log ++ [Call_add_root root])%list) in
           match remove_missing_under_try root db with
           | Returned (db, removed) =>
               (db, processed, (log ++ [Call_remove_missing_under root removed])%list, false)
           | Raised _ =>
               (db, processed, (log ++ [Raise_remove_missing_under root])%list, true)
           end)
      uniq (db, 0, [], false) in
  (* finally: *)
  (db, processed, (log ++ [ScanFinished])%list).

Definition rescan_all_roots (ui : UI) (db : DB) : UI * DB * list event :=
  if scan_running ui then (ui, db, [Information Busy])
  else
    let roots := list_roots db in
    match roots with
    | [] => (ui, db, [Information NoRoots])
    | _ =>
        let uniq := Py.uniq (map normalize_path roots) in
        let total := fold_left (fun total r => total + count_files_on_disk r) uniq 0 in
        let ui := mk_ui (root_dir ui) (root_list_current ui) true in
        let '(db, _, log) := rescan_worker uniq total db in
        (ui, db, ScanStarted (if 0 <? total then total else 1) :: log)
    end.

(** [_on_scan_finished], the slot of [scan_finished]. *)
Definition on_scan_finished (ui : UI) : UI :=
  mk_ui (root_dir ui) (root_list_current ui) false.

End Host.
End App.

(** ** [tagfile-c.py]: [DBManager] and the methods of [MainUI] that use it *)
Module Tagfile.
Import Py Sqlite Stmt.

Section Host.
Variable os : OS.

Definition normalize_path (p : string) : string :=
  if negb (truthy p) then p
  else
    let np := os_normpath os p in
    if (String.length np =? 2)%nat
       && match String.get 1 np with
          | Some c => (c =? ":")%char
          | None => false
          end
    then np ++ os_sep os
    else np.

(** [DBManager.upsert_file] *)
Definition upsert_file (path : string) (db : DB) : outcome DB :=
  let p := pathlib_str os path in
  if negb (is_file os p) then Returned db
  else
    match stat os p with
    | None => Raised OSError
    | Some (st_size, st_mtime) =>
        Returned (upsert_files_row (normalize_path p) st_size st_mtime db)
    end.

(** [DBManager.count_and_stats(root, is_disk=True)] *)
Definition count_and_stats_disk (root : option string) : Z * Q :=
  match root with
  | None => (0, 0%Q)
  | Some r =>
      if negb (truthy r) then (0, 0%Q)
      else
        fold_left
          (fun '(total, max_m) '(dp, files) =>
             let total := total + Z.of_nat (List.length files) in
             fold_left
               (fun '(total, max_m) fn =>
                  match getmtime os (os_join os dp fn) with
                  | Some mt =>
                      if negb (Qle_bool mt max_m) then (total, mt) else (total, max_m)
                  | None => (total, max_m)
                  end)
               files (total, max_m))
          (os_walk os (normalize_path r)) (0, 0%Q)
  end.

(** [DBManager.count_and_stats(root)], [is_disk=False] *)
Definition count_and_stats_db (root : option string) (db : DB) : Z * Q :=
  let rows :=
    match root with
    | Some r =>
        if truthy r then files_like (normalize_path r ++ "%") db else files db
    | None => files db
    end in
  (Z.of_nat (List.length rows), max_mtime rows).

(** [DBManager.remove_missing_under] *)
Definition remove_missing_under (root : string) (db : DB) : DB * Z :=
  let root := normalize_path root in
  let rows := files_like (root ++ "%") db in
  fold_left
    (fun '(db, removed) row =>
       if negb (path_exists os (pathlib_str os (f_path row)))
       then (delete_files (fun f => f_id f =? f_id row) db, removed + 1)
       else (db, removed))
    rows (db, 0).

(** A call of [remove_missing_under] as the scan workers make it, where
    [Path(fpath).exists()] may raise: the loop is left at the first row for
    which it does, before [conn.commit()], so the deletions made so far are
    not stored.  When no [exists] raises this is [remove_missing_under]. *)
Definition remove_missing_under_try (root : string) (db : DB) : outcome (DB * Z) :=
  let root := normalize_path root in
  let rows := files_like (root ++ "%") db in
  fold_left
    (fun acc row =>
       match acc with
       | Raised e => Raised e
       | Returned (db, removed) =>
           if exists_raises os (pathlib_str os (f_path row)) then Raised OSError
           else if negb (path_exists os (pathlib_str os (f_path row)))
                then Returned (delete_files (fun f => f_id f =? f_id row) db, removed + 1)
                else Returned (db, removed)
       end)
    rows (Returned (db, 0)).

(** [DBManager.ensure_tag] *)
Definition ensure_tag (name : string) (db : DB) : DB * option Z :=
  let name := strip name in
  if negb (truthy name) then (db, None)
  else
    let nxt := match max_ord (tags db) with Some m => m | None => 0 end + 1 in
    let db := insert_or_ignore_tag name nxt db in
    (db, tag_id_by_name name db).

(** [DBManager.list_files] *)
Definition list_files (search_text : string) (tag_ids : list Z) (only_tagged : bool)
           (root_prefix : option string) (db : DB) : option (list result_row) :=
  let '(where_, params) :=
    if truthy search_text
    then ([W_path_like], [SText ("%" ++ search_text ++ "%")])
    else ([], []) in
  let where_ := if only_tagged then (where_ ++ [W_exists_tag])%list else where_ in
  let '(joins, params) :=
    fold_left (fun '(joins, params) tid => (S joins, SInt tid :: params))
              tag_ids (O, params) in
  let '(where_, params) :=
    match root_prefix with
    | Some r =>
        if truthy r
        then ((where_ ++ [W_path_like])%list,
              (params ++ [SText (normalize_path r ++ "%")])%list)
        else (where_, params)
    | None => (where_, params)
    end in
  select_files joins where_ params db.

(** [MainUI._list_roots] *)
Definition list_roots (db : DB) : list string :=
  map (fun r => normalize_path (r_path r)) (order_by r_path (roots db)).

(** [MainUI._add_root] *)
Definition add_root (path : string) (db : DB) : DB :=
  upsert_root (normalize_path path) (now os) db.

(** [MainUI._remove_root] *)
Definition remove_root (path : string) (db : DB) : DB :=
  let path := normalize_path path in
  let db := delete_root path db in
  delete_files (fun f => like None (path ++ "%") (f_path f)) db.

(** [MainUI._rename_or_merge_tag] *)
Definition rename_or_merge_tag (old_tid : Z) (new_name : string) (db : DB)
  : DB * list event :=
  if negb (truthy new_name) then (db, [])
  else
    match tag_id_by_name new_name db with
    | Some new_tid =>
        if new_tid =? old_tid then (db, [])
        else
          let moved :=
            map (fun ft => mk_ft (ft_file ft) new_tid)
                (filter (fun ft => ft_tag ft =? old_tid) (file_tags db)) in
          let db := mk_db (files db) (tags db)
                          (insert_or_ignore_file_tags moved (file_tags db))
                          (roots db) (settings db) in
          let db := delete_file_tags (fun ft => ft_tag ft =? old_tid) db in
          let db := delete_tags_where (fun t => t_id t =? old_tid) db in
          (db, [Information Merged])
    | None =>
        match rename_tag new_name old_tid db with
        | Some db => (db, [])
        | None => (db, [Warning DuplicateName])
        end
    end.

Definition scan_file (tick : Z -> bool) (shown_total : Z) (dp fn : string)
           (st : DB * Z * list event) : DB * Z * list event :=
  let '(db, processed, log) := st in
  let full := os_join os dp fn in
  let '(db, raised) :=
    match upsert_file full db with
    | Returned db' => (db', false)
    | Raised _ => (db, true)
    end in
  let processed := processed + 1 in
  let log := (log ++ [Call_upsert_file full raised])%list in
  (db, processed,
   if tick processed then (log ++ [ProgressTick processed shown_total])%list else log).

Definition scan_tree (tick : Z -> bool) (shown_total : Z) (root : string)
           (st : DB * Z * list event) : DB * Z * list event :=
  fold_left
    (fun st '(dp, files) =>
       fold_left (fun st fn => scan_file tick shown_total dp fn st) files st)
    (os_walk os root) st.

(** [worker] of [index_selected_root] *)
Definition index_worker (root : string) (fs_total step : Z) (db : DB)
  : DB * Z * list event :=
  let db := add_root root db in
  let '(db, processed, log) :=
    scan_tree (fun processed => (processed mod step =? 0) || (processed =? fs_total))
              fs_total root (db, 0, [Call_add_root root]) in
  (* finally: [scan_finished] is emitted whether the pruning returned or
     raised; after a raise the exception ends the thread *)
  match remove_missing_under_try root db with
  | Returned (db, removed) =>
      (db, processed,
       (log ++ [Call_remove_missing_under root removed] ++ [ScanFinished])%list)
  | Raised _ =>
      (db, processed, (log ++ [Raise_remove_missing_under root] ++ [ScanFinished])%list)
  end.

Definition falsy (o : option string) : bool :=
  match o with
  | Some s => negb (truthy s)
  | None => true
  end.

(** [MainUI._check_busy], its message box apart. *)
Definition check_busy (ui : UI) : bool := scan_running ui.

(** [MainUI.index_selected_root], run to the end of its worker.  The slot
    that resets [scan_running] runs when the signal is delivered. *)
Definition index_selected_root (ui : UI) (db : DB) : UI * DB * list event :=
  let root := if falsy (root_dir ui)
              then (if falsy (root_list_current ui) then root_dir ui
                    else root_list_current ui)
              else root_dir ui in
  match root with
  | None => (ui, db, [Information NeedRoot])
  | Some root =>
      if negb (truthy root) then (ui, db, [Information NeedRoot])
      else if check_busy ui then (ui, db, [Information Busy])
      else
        let ui := mk_ui (root_dir ui) (root_list_current ui) true in
        let root := normalize_path root in
        let '(fs_total, fs_max_m) := count_and_stats_disk (Some root) in
        let '(db_total, db_max_m) := count_and_stats_db (Some root) db in
        if (fs_total =? db_total) && Qle_bool fs_max_m db_max_m
        then (ui, db, [ScanFinished])
        else
          let step := Z.max 1 (fs_total / 100) in
          let '(db, _, log) := index_worker root fs_total step db in
          (ui, db, ScanStarted fs_total :: log)
  end.

Definition rescan_worker (uniq : list string) (total : Z) (db : DB)
  : DB * Z * list event :=
  let '(db, processed, log, _) :=
    fold_left
      (fun '(db, processed, log, raised) root =>
         if (raised : bool) then (db, processed, log, raised)   (* the loop was left *)
         else
           let db := add_root root db in
           let '(db, processed, log) :=
             scan_tree (fun processed => (processed mod 500 =? 0) || (processed =? total))
                       (if 0 <? total then total else 1)
                       root (db, processed, (log ++ [Call_add_root root])%list) in
           match remove_missing_under_try root db with
           | Returned (db, removed) =>
               (db, processed, (log ++ [Call_remove_missing_under root removed])%list, false)
           | Raised _ =>
               (db, processed, (log ++ [Raise_remove_missing_under root])%list, true)
           end)
      uniq (db, 0, [], false) in
  (db, processed, (log ++ [ScanFinished])%list).

Definition rescan_all_roots (ui : UI) (db : DB) : UI * DB * list event :=
  if check_busy ui then (ui, db, [Information Busy])
  else
    let roots := list_roots db in
    match roots with
    | [] => (ui, db, [Information NoRoots])
    | _ =>
        let uniq := Py.uniq roots in
        let total :=
          fold_left (fun total r => total + fst (count_and_stats_disk (Some r))) uniq 0 in
        let ui := mk_ui (root_dir ui) (root_list_current ui) true in
        let '(db, _, log) := rescan_worker uniq total db in
        (ui, db, ScanStarted (if 0 <? total then total else 1) :: log)
    end.

Definition on_scan_finished (ui : UI) : UI :=
  mk_ui (root_dir ui) (root_list_current ui) false.

End Host.
End Tagfile.

(** ** A POSIX host, for the concrete runs *)
Module Posix.
Import Py.

(** [s.split('/')] *)
Fixpoint split_slash (s : string) : list string :=
  match s with
  | "" => [""]
  | String c s' =>
      if (c =? "/")%char then "" :: split_slash s'
      else match split_slash s' with
           | [] => [String c ""]
           | h :: t => String c h :: t
           end
  end.

Fixpoint ends_with_slash (s : string) : bool :=
  match s with
  | "" => false
  | String c "" => (c =? "/")%char
  | String _ s' => ends_with_slash s'
  end.

Definition initial_slashes (path : string) : nat :=
  if startswith path "/" then
    if startswith path "//" && negb (startswith path "///") then 2%nat else 1%nat
  else 0%nat.

Definition slashes (n : nat) : string := String.concat "" (repeat "/" n).

(** [posixpath.normpath] *)
Definition normpath (path : string) : string :=
  if (path =? "")%string then "."
  else
    let initial := initial_slashes path in
    let comps :=
      fold_left
        (fun new_comps comp =>
           if (comp =? "")%string || (comp =? ".")%string then new_comps
           else if negb (comp =? "..")%string
                   || ((initial =? 0)%nat && (List.length new_comps =? 0)%nat)
                   || (last new_comps "" =? "..")%string
                then (new_comps ++ [comp])%list
                else removelast new_comps)
        (split_slash path) [] in
    let path := slashes initial ++ join "/" comps in
    if (path =? "")%string then "." else path.

(** [posixpath.join(a, b)] *)
Definition path_join (a b : string) : string :=
  if startswith b "/" then b
  else if (a =? "")%string || ends_with_slash a then a ++ b
  else a ++ "/" ++ b.

(** [str(PurePosixPath(path))] *)
Definition pathlib_str (path : string) : string :=
  let parts :=
    filter (fun x => negb (x =? "")%string && negb (x =? ".")%string) (split_slash path) in
  let s := slashes (initial_slashes path) ++ join "/" parts in
  if (s =? "")%string then "." else s.

(** A disk given by its directories in walk order, each with its regular
    files (name, size, mtime). *)
Definition disk : Type := list (string * list (string * Z * Q)).

Definition lookup_file (d : disk) (p : string) : option (Z * Q) :=
  match
    flat_map (fun '(dp, fs) =>
                flat_map (fun '(fn, size, mtime) =>
                            if (path_join dp fn =? p)%string then [(size, mtime)] else [])
                         fs) d
  with
  | [] => None
  | x :: _ => Some x
  end.

Definition is_dir (d : disk) (p : string) : bool :=
  existsb (fun '(dp, _) => (dp =? p)%string) d.

Definition walk (d : disk) (top : string) : list (string * list string) :=
  map (fun '(dp, fs) => (dp, map (fun '(fn, _, _) => fn) fs))
      (filter (fun '(dp, _) => (dp =? top)%string || startswith dp (top ++ "/")) d).

Definition host (d : disk) (clock : Z) : OS :=
  mk_os normpath "/" path_join pathlib_str
        (fun p => match lookup_file d p with Some _ => true | None => false end)
        (lookup_file d)
        (fun p => match lookup_file d p with Some _ => true | None => is_dir d p end)
        (fun _ => false)
        (walk d)
        (fun p => option_map snd (lookup_file d p))
        clock.

End Posix.


(** ** Vocabulary of the statements *)
Module Spec.
Import Sqlite.

(** The string holds neither [%] nor [_]. *)
Fixpoint no_wildcard (s : string) : bool :=
  match s with
  | "" => true
  | String c s' => negb (c =? "%")%char && negb (c =? "_")%char && no_wildcard s'
  end.

(** [r] is a prefix of [p] when A-Z and a-z are identified. *)
Fixpoint prefix_nocase (r p : string) : bool :=
  match r with
  | "" => true
  | String c r' =>
      match p with
      | "" => false
      | String d p' => char_eq_nocase c d && prefix_nocase r' p'
      end
  end.

(** File [fid] carries tag [tid]. *)
Definition has_tag (db : DB) (fid tid : Z) : Prop := In (mk_ft fid tid) (file_tags db).

End Spec.

(** ** Concrete catalogs and disks *)
Module Demo.
Import Sqlite.

(** Two sibling roots whose names share a prefix. *)
Definition siblings_db : DB :=
  mk_db [ mk_file 1 "/data/a/x.txt" 10 (100#1) None;
          mk_file 2 "/data/ab/y.txt" 20 (200#1) None;
          mk_file 3 "/DATA/A/z.txt" 30 (300#1) None;
          mk_file 4 "/data/b/w.txt" 40 (400#1) None ]
        [ mk_tag 1 "todo" (Some 1) ]
        [ mk_ft 1 1; mk_ft 2 1; mk_ft 4 1 ]
        [ mk_root "/data/a" 0; mk_root "/data/ab" 0 ]
        [].

Definition empty_host : OS := Posix.host [] 1700000000.

End Demo.

Module Demo2.
Import Sqlite.

(** A disk that holds /data/b/w.txt as the catalog [Demo.siblings_db]
    records it. *)
Definition synced_disk : Posix.disk := [("/data/b", [("w.txt", 40, 400#1)])].
Definition synced_host : OS := Posix.host synced_disk 1700000000.

Definition idle_ui (root : string) : UI := mk_ui (Some root) None false.

End Demo2.

Module Demo3.
Import Sqlite.

(** F1 carries tagA, F2 carries tagA and tagB, F3 carries tagB. *)
Definition three_files_db : DB :=
  mk_db [ mk_file 1 "/data/F1" 10 (100#1) None;
          mk_file 2 "/data/F2" 20 (200#1) None;
          mk_file 3 "/data/F3" 30 (300#1) None ]
        [ mk_tag 1 "tagA" (Some 1); mk_tag 2 "tagB" (Some 2) ]
        [ mk_ft 1 1; mk_ft 2 1; mk_ft 2 2; mk_ft 3 2 ]
        [ mk_root "/data" 0 ]
        [].

End Demo3.

Module Demo4.
Import Sqlite.

(** "todo" on F1 and F2, "later" on F2 and F3. *)
Definition todo : tag_row := mk_tag 1 "todo" (Some 1).
Definition later : tag_row := mk_tag 2 "later" (Some 2).

Definition todo_later_db : DB :=
  mk_db [ mk_file 1 "/data/F1" 10 (100#1) None;
          mk_file 2 "/data/F2" 20 (200#1) None;
          mk_file 3 "/data/F3" 30 (300#1) None ]
        [ todo; later ]
        [ mk_ft 1 1; mk_ft 2 1; mk_ft 2 2; mk_ft 3 2 ]
        [ mk_root "/data" 0 ]
        [].

End Demo4.

Module Demo6.
Import Sqlite.

(** A root whose name holds [_], next to a directory that differs from it
    in that character only. *)
Definition underscore_db : DB :=
  mk_db [ mk_file 1 "/data/a_b/f.txt" 10 (100#1) None;
          mk_file 2 "/data/axb/g.txt" 20 (200#1) None ]
        []
        []
        [ mk_root "/data/a_b" 0 ]
        [].

(** Only /data/a_b/f.txt is on the disk. *)
Definition underscore_host : OS :=
  Posix.host [("/data/a_b", [("f.txt", 10, 100#1)])] 1700000000.

End Demo6.

(** ** Vocabulary for the scan logs *)
Module Log.

(** The files a walk of [root] meets, as the full paths handed to
    [upsert_file], in order. *)
Definition walked_files (os : OS) (root : string) : list string :=
  flat_map (fun '(dp, files) => map (os_join os dp) files) (os_walk os root).




(** The components of the state of a worker. *)
Definition processed_of (st : Sqlite.DB * Z * list event) : Z := snd (fst st).
Definition log_of (st : Sqlite.DB * Z * list event) : list event := snd st.
Definition db_of (st : Sqlite.DB * Z * list event) : Sqlite.DB := fst (fst st).

End Log.

Module Demo8.

Definition two_dirs : Posix.disk :=
  [ ("/data/a", [("x.txt", 10, 100#1); ("n.txt", 11, 101#1)]);
    ("/data/a/sub", [("y.txt", 20, 200#1)]) ].

(** A disk on which /data/a/x.txt is seen as a file but cannot be read:
    [stat] raises. *)
Definition flaky_host : OS :=
  let h := Posix.host two_dirs 1700000000 in
  mk_os (os_normpath h) (os_sep h) (os_join h) (pathlib_str h) (is_file h)
        (fun p => if (p =? "/data/a/x.txt")%string then None else stat h p)
        (path_exists h) (exists_raises h) (os_walk h) (getmtime h) (now h).




End Demo8.

(** ** Vocabulary for what a scan keeps *)
Module Keep.
Import Sqlite Spec.

Definition on_disk (os : OS) (f : file_row) : Prop :=
  path_exists os (pathlib_str os (f_path f)) = true.

(** From [db] to [db'], every row of a file that is on the disk keeps its
    id and its path, and the file keeps exactly its tags. *)
Definition keeps (os : OS) (db db' : DB) : Prop :=
  NoDup (map f_id (files db)) ->
  NoDup (map f_id (files db'))
  /\ (forall f, In f (files db) -> on_disk os f ->
                exists f', In f' (files db') /\ f_id f' = f_id f /\ f_path f' = f_path f)
  /\ (forall f tid, In f (files db) -> on_disk os f ->
                    (has_tag db' (f_id f) tid <-> has_tag db (f_id f) tid)).

End Keep.

Module Demo10.
Import Sqlite.

(** /data/a/x.txt is in the catalog with a tag and an old size; on the
    disk it has grown, /data/a/n.txt is new and /data/a/gone.txt has been
    deleted. *)
Definition stale_db : DB :=
  mk_db [ mk_file 1 "/data/a/x.txt" 5 (50#1) None;
          mk_file 2 "/data/a/gone.txt" 7 (70#1) None ]
        [ mk_tag 1 "todo" (Some 1) ]
        [ mk_ft 1 1; mk_ft 2 1 ]
        [ mk_root "/data/a" 0 ]
        [].

Definition host : OS := Posix.host Demo8.two_dirs 1700000000.

End Demo10.

From Stdlib Require Import Sorted Permutation.

(** ** The rest of the store of [app.py], and the methods of [MainUI] that
    write to it *)
Module AppRest.
Import Py Sqlite Stmt.

(** [get_setting]: [row[0] if row else default] *)
Definition get_setting (key : string) (default : option string) (db : DB) : option string :=
  match find (fun kv => (fst kv =? key)%string) (settings db) with
  | Some kv => Some (snd kv)
  | None => default
  end.

(** [set_setting]: [INSERT INTO settings(key,value) VALUES(?,?)
    ON CONFLICT(key) DO UPDATE SET value=excluded.value] *)
Definition set_setting (key value : string) (db : DB) : DB :=
  mk_db (files db) (tags db) (file_tags db) (roots db)
        (if existsb (fun kv => (fst kv =? key)%string) (settings db)
         then map (fun kv => if (fst kv =? key)%string then (fst kv, value) else kv)
                  (settings db)
         else settings db ++ [(key, value)]).

(** [UPDATE tags SET ord=? WHERE id=?] *)
Definition set_tag_ord (ord : Z) (tid : Z) (db : DB) : DB :=
  mk_db (files db)
        (map (fun t => if t_id t =? tid then mk_tag (t_id t) (t_name t) (Some ord) else t)
             (tags db))
        (file_tags db) (roots db) (settings db).

Definition ord_is_null (t : tag_row) : bool :=
  match t_ord t with
  | None => true
  | Some _ => false
  end.

(** [init_db] on a database that has its tables: the [CREATE ... IF NOT
    EXISTS] statements change nothing, the rows of [tags] without [ord] are
    numbered from 1 in the order of their names.  (On a new file the
    database is [empty_db].) *)
Definition init_db (db : DB) : DB :=
  if (0 <? Z.of_nat (List.length (filter ord_is_null (tags db)))) then
    let rows := map t_id (order_by t_name (filter ord_is_null (tags db))) in
    fst (fold_left (fun '(db, nxt) tid => (set_tag_ord nxt tid db, nxt + 1)) rows (db, 1))
  else db.

(** [delete_tags]: [executemany("DELETE FROM tags WHERE id=?", ...)] *)
Definition delete_tags (tag_ids : list Z) (db : DB) : DB :=
  match tag_ids with
  | [] => db
  | _ => fold_left (fun db tid => delete_tags_where (fun t => t_id t =? tid) db) tag_ids db
  end.

(** [ORDER BY ord, name]: [NULL] sorts first, then the numbers, ties by name. *)
Definition tag_le (a b : tag_row) : bool :=
  match t_ord a, t_ord b with
  | None, None => String.leb (t_name a) (t_name b)
  | None, Some _ => true
  | Some _, None => false
  | Some x, Some y =>
      if x <? y then true
      else if y <? x then false
      else String.leb (t_name a) (t_name b)
  end.

Fixpoint insert_tag (x : tag_row) (l : list tag_row) : list tag_row :=
  match l with
  | [] => [x]
  | y :: l' => if tag_le x y then x :: l else y :: insert_tag x l'
  end.

Definition order_tags (l : list tag_row) : list tag_row := fold_right insert_tag [] l.

(** [list_tags]: [SELECT id, name, ord FROM tags ORDER BY ord ASC, name ASC] *)
Definition list_tags (db : DB) : list (Z * string * option Z) :=
  map (fun t => (t_id t, t_name t, t_ord t)) (order_tags (tags db)).

(** [list_file_tags]: the tags joined to the associations of the file *)
Definition list_file_tags (file_id : Z) (db : DB) : list (Z * string) :=
  map (fun t => (t_id t, t_name t))
      (order_tags
         (flat_map (fun t =>
                      map (fun _ => t)
                          (filter (fun ft => (ft_tag ft =? t_id t) && (ft_file ft =? file_id))
                                  (file_tags db)))
                   (tags db))).

(** [count_all_files] *)
Definition count_all_files (db : DB) : Z := Z.of_nat (List.length (files db)).

(** [count_files_by_tag]: one group for each tag ([id] is the primary key),
    [COUNT(ft.file_id)] over the associations joined to it; the dict is the
    list of its items. *)
Definition count_files_by_tag (db : DB) : list (Z * Z) :=
  map (fun t => (t_id t,
                 Z.of_nat (List.length (filter (fun ft => ft_tag ft =? t_id t)
                                               (file_tags db)))))
      (order_tags (tags db)).

(** [d.get(k, default)] on the items of a dict *)
Definition dict_get (d : list (Z * Z)) (k : Z) (default : Z) : Z :=
  match find (fun kv => fst kv =? k) d with
  | Some kv => snd kv
  | None => default
  end.

(** [db_delete_file_by_path] *)
Definition db_delete_file_by_path (os : OS) (path : string) (db : DB) : DB :=
  delete_files (fun f => (f_path f =? App.normalize_path os path)%string) db.

(** What a connection leaves behind: the store after [commit], or, when a
    statement raises [sqlite3.IntegrityError], the store as it was committed
    last. *)
Inductive sqlite_result :=
| Committed (db : DB)
| IntegrityError (db : DB).

Definition store_of (r : sqlite_result) : DB :=
  match r with
  | Committed db => db
  | IntegrityError db => db
  end.

(** [db_rename_file_path]: [UPDATE files SET path=? WHERE path=?]; the
    statement fails on [UNIQUE(path)] when another row has the new path. *)
Definition db_rename_file_path (os : OS) (old_path new_path : string) (db : DB)
  : sqlite_result :=
  let new := App.normalize_path os new_path in
  let old := App.normalize_path os old_path in
  if existsb (fun f => (f_path f =? old)%string) (files db)
     && existsb (fun f => (f_path f =? new)%string && negb (f_path f =? old)%string)
                (files db)
  then IntegrityError db
  else Committed
         (mk_db (map (fun f => if (f_path f =? old)%string
                               then mk_file (f_id f) new (f_size f) (f_mtime f) (f_hash f)
                               else f) (files db))
                (tags db) (file_tags db) (roots db) (settings db)).

(** [MainUI.add_tag]; [text] is the text of the input field. *)
Definition add_tag (text : string) (db : DB) : DB :=
  let name := strip text in
  if negb (truthy name) then db else fst (App.ensure_tag name db).

(** The rows that have an [ord] satisfying [p], each with its [ord]. *)
Definition with_ord (p : Z -> bool) (ts : list tag_row) : list (tag_row * Z) :=
  flat_map (fun t => match t_ord t with
                     | Some o => if p o then [(t, o)] else []
                     | None => []
                     end) ts.

(** [ORDER BY ord ... LIMIT 1]: the row whose [ord] comes first.  SQL leaves
    the choice among rows of equal [ord] open; this one takes the first row
    of the table. *)
Definition first_by (before : Z -> Z -> bool) (l : list (tag_row * Z))
  : option (tag_row * Z) :=
  fold_left (fun best x =>
               match best with
               | None => Some x
               | Some b => if before (snd x) (snd b) then Some x else Some b
               end) l None.

(** [MainUI.move_tag]; [tid] is the id of the current item of the tag list
    ([None]: no item, or the "all files" item). *)
Definition move_tag (delta : Z) (tid : option Z) (db : DB) : DB :=
  match tid with
  | None => db
  | Some tid =>
      match find (fun t => t_id t =? tid) (tags db) with
      | None => db
      | Some row =>
          match t_ord row with
          | None => db     (* no [ord] compares with NULL *)
          | Some cur_ord =>
              let nb :=
                if delta <? 0
                then first_by (fun a b => b <? a)
                              (with_ord (fun o => o <? cur_ord) (tags db))
                else first_by (fun a b => a <? b)
                              (with_ord (fun o => cur_ord <? o) (tags db)) in
              match nb with
              | None => db
              | Some (nb_row, nb_ord) =>
                  set_tag_ord cur_ord (t_id nb_row) (set_tag_ord nb_ord tid db)
              end
          end
      end
  end.

(** [INSERT OR IGNORE INTO file_tags(file_id, tag_id) VALUES(?, ?)] with
    [PRAGMA foreign_keys = ON]: a pair that is there is skipped; a new pair
    needs its file and its tag ([None]: [IntegrityError]). *)
Definition insert_or_ignore_file_tag (fid tid : Z) (db : DB) : option DB :=
  if existsb (ft_eqb (mk_ft fid tid)) (file_tags db) then Some db
  else if existsb (fun f => f_id f =? fid) (files db)
          && existsb (fun t => t_id t =? tid) (tags db)
       then Some (mk_db (files db) (tags db) (file_tags db ++ [mk_ft fid tid])
                        (roots db) (settings db))
       else None.

(** [MainUI.assign_tag_to_selected]; [text] is the text of the combo box,
    [ids] the ids of the selected rows of the table.  [ensure_tag] commits on
    a connection of its own. *)
Definition assign_tag_to_selected (text : string) (ids : list Z) (db : DB) : sqlite_result :=
  let name := strip text in
  if negb (truthy name) then Committed db
  else
    let '(db, tid) := App.ensure_tag name db in
    match ids with
    | [] => Committed db
    | _ =>
        match tid with
        | None => Committed db     (* not reached: the name is not empty *)
        | Some tid =>
            match
              fold_left (fun acc fid =>
                           match acc with
                           | Some d => insert_or_ignore_file_tag fid tid d
                           | None => None
                           end) ids (Some db)
            with
            | Some db' => Committed db'
            | None => IntegrityError db
            end
        end
    end.

(** [MainUI.untag_selected_from_selected_files]; [ids] are the selected rows
    of the table, [selected] the tag ids selected in the list of the file's
    tags. *)
Definition untag_selected_from_selected_files (ids selected : list Z) (db : DB) : DB :=
  match ids with
  | [fid] =>
      fold_left (fun db tid =>
                   delete_file_tags (fun ft => (ft_file ft =? fid) && (ft_tag ft =? tid)) db)
                selected db
  | _ => db
  end.

(** [MainUI.delete_selected_files] after the confirmation; [recycled] says
    for which paths [recycle_delete] returns [True]. *)
Definition delete_selected_files (os : OS) (recycled : string -> bool) (ps : list string)
           (db : DB) : DB :=
  fold_left (fun db p => if recycled p then db_delete_file_by_path os p db else db) ps db.

End AppRest.

(** ** Vocabulary of the further statements *)
Module Inv.
Import Sqlite.

(** What the schema keeps true of a store: the keys are unique and every
    association has its file and its tag. *)
Record consistent (db : DB) : Prop := mk_consistent
  { file_ids_unique : NoDup (map f_id (files db));
    file_paths_unique : NoDup (map f_path (files db));
    tag_ids_unique : NoDup (map t_id (tags db));
    tag_names_unique : NoDup (map t_name (tags db));
    file_tags_unique : NoDup (file_tags db);
    root_paths_unique : NoDup (map r_path (roots db));
    setting_keys_unique : NoDup (map fst (settings db));
    file_tags_have_file :
      forall ft, In ft (file_tags db) -> In (ft_file ft) (map f_id (files db));
    file_tags_have_tag :
      forall ft, In ft (file_tags db) -> In (ft_tag ft) (map t_id (tags db)) }.

(** The row is missing on the disk and its path matches [r%]. *)
Definition stale (os : OS) (r : string) (f : file_row) : bool :=
  like None (r ++ "%") (f_path f)
  && negb (path_exists os (pathlib_str os (f_path f))).

(** The [(processed, total)] pairs of the progress ticks of a log, in order. *)
Definition ticks (log : list event) : list (Z * Z) :=
  flat_map (fun e => match e with ProgressTick p t => [(p, t)] | _ => [] end) log.

(** The catalog has a row for [path] with this size and mtime. *)
Definition recorded (db : DB) (path : string) (size : Z) (mtime : Q) : Prop :=
  exists f, In f (files db) /\ f_path f = path /\ f_size f = size /\ f_mtime f = mtime.

End Inv.

Module Demo12.
Import Sqlite.

(** A store that holds two tags without [ord], as one written before the
    column existed, and a saved search. *)
Definition legacy_db : DB :=
  mk_db [ mk_file 1 "/data/F1" 10 (100#1) None ]
        [ mk_tag 1 "zeta" None; mk_tag 2 "work" (Some 5); mk_tag 3 "alpha" None ]
        [ mk_ft 1 1; mk_ft 1 2 ]
        [ mk_root "/data" 0 ]
        [ ("last_search", "report") ].

End Demo12.

(** A concrete store meets the constraints: every list is checked. *)
Ltac schema_check :=
  constructor; simpl;
  try (repeat constructor; simpl; intuition (discriminate || lia));
  try (intros ft Hft; repeat (destruct Hft as [<-|Hft]; [simpl; auto 10|]); destruct Hft).

(** * Properties *)

Example normpath_dots : Posix.normpath "/data//a/./b/../c/" = "/data/a/c".
Proof. reflexivity. Qed.
Example normpath_rel : Posix.normpath "../x/.." = "..".
Proof. reflexivity. Qed.
Example pathlib_keep_dotdot : Posix.pathlib_str "/data//a/./b/../c/" = "/data/a/b/../c".
Proof. reflexivity. Qed.
Example strip_ex : Py.strip "  to do	 " = "to do".
Proof. reflexivity. Qed.

Import Py Sqlite Stmt Spec.

(** ** [LIKE] *)

Lemma like_percent esc pat s :
  like esc (String "%" pat) s
  = like esc pat s || match s with
                      | "" => false
                      | String _ s' => like esc (String "%" pat) s'
                      end.
Proof. destruct s; reflexivity. Qed.

Lemma like_percent_all esc s : like esc "%" s = true.
Proof.
  induction s as [|c s IH].
  - reflexivity.
  - rewrite like_percent. rewrite IH. apply orb_true_r.
Qed.

Lemma char_eq_nocase_refl c : char_eq_nocase c c = true.
Proof. apply Ascii.eqb_refl. Qed.

(** A pattern [r%] without [ESCAPE] matches every string that starts with
    [r], whatever characters [r] holds. *)
Lemma like_literal_prefix r s : like None (r ++ "%") (r ++ s) = true.
Proof.
  induction r as [|c r IH]; simpl append.
  - apply like_percent_all.
  - destruct (c =? "%")%char eqn:Ep.
    + apply Ascii.eqb_eq in Ep. subst c.
      rewrite like_percent.
      assert (H : like None (String "%" (r ++ "%")) (r ++ s) = true).
      { rewrite like_percent, IH. reflexivity. }
      rewrite H. apply orb_true_r.
    + simpl. rewrite Ep. simpl.
      destruct (c =? "_")%char.
      * exact IH.
      * rewrite char_eq_nocase_refl. exact IH.
Qed.

Lemma startswith_split s p : startswith s p = true -> exists t, s = p ++ t.
Proof.
  unfold startswith. revert s.
  induction p as [|c p IH]; intros s H.
  - exists s. reflexivity.
  - destruct s as [|d s]; simpl in H; [discriminate|].
    destruct (ascii_dec c d) as [->|]; [|discriminate].
    destruct (IH _ H) as [t ->]. exists t. reflexivity.
Qed.

(** For a prefix without wildcard, [r%] is the prefix test without ASCII case. *)
Lemma like_no_wildcard r p :
  no_wildcard r = true -> like None (r ++ "%") p = prefix_nocase r p.
Proof.
  revert p. induction r as [|c r IH]; intros p H.
  - apply like_percent_all.
  - simpl in H. apply andb_true_iff in H as [H Hr].
    apply andb_true_iff in H as [Hp Hu].
    apply negb_true_iff in Hp, Hu.
    simpl. rewrite Hp, Hu. simpl.
    destruct p as [|d p]; [reflexivity|].
    rewrite (IH p Hr). reflexivity.
Qed.

(** ** Removing a root *)

Lemma existsb_eqb_In (x : Z) (l : list Z) : existsb (Z.eqb x) l = true <-> In x l.
Proof.
  rewrite existsb_exists. split.
  - intros [y [Hy E]]. apply Z.eqb_eq in E. subst. exact Hy.
  - intros H. exists x. split; [exact H | apply Z.eqb_refl].
Qed.

(** What [delete_files] leaves in [file_tags]: the associations of no
    deleted row. *)
Lemma delete_files_file_tags p db ft :
  In ft (file_tags (delete_files p db))
  <-> In ft (file_tags db)
      /\ forall f, In f (files db) -> f_id f = ft_file ft -> p f = false.
Proof.
  unfold delete_files; simpl. rewrite filter_In. split.
  - intros [Hin Hn]. split; [exact Hin|].
    intros f Hf Hid. destruct (p f) eqn:Ep; [|reflexivity].
    apply negb_true_iff in Hn.
    assert (Hex : existsb (Z.eqb (ft_file ft)) (map f_id (filter p (files db))) = true).
    { apply existsb_eqb_In. rewrite <- Hid. apply in_map. apply filter_In. auto. }
    congruence.
  - intros [Hin Hall]. split; [exact Hin|].
    apply negb_true_iff. destruct (existsb _ _) eqn:Ex; [|reflexivity].
    apply existsb_eqb_In in Ex. apply in_map_iff in Ex as [f [Hid Hf]].
    apply filter_In in Hf as [Hf Hp].
    rewrite (Hall f Hf Hid) in Hp. discriminate.
Qed.

(** What the two statements of [remove_root] do: the rows deleted are those
    whose path matches [r%] for the normalized root [r], which every path
    that starts with [r] as a string does; the associations of the deleted
    rows go with them, the tags stay, and the root is no longer registered.
    [_remove_root] of [tagfile-c.py] is the same function. *)
Lemma remove_root_like_prefix (os : OS) (R : string) (db : DB) :
  let r := App.normalize_path os R in
  let db' := App.remove_root os R db in
  files db' = filter (fun f => negb (like None (r ++ "%") (f_path f))) (files db)
  /\ (forall f, In f (files db) -> startswith (f_path f) r = true -> ~ In f (files db'))
  /\ (no_wildcard r = true ->
      forall f, In f (files db') <-> In f (files db) /\ prefix_nocase r (f_path f) = false)
  /\ (forall ft, In ft (file_tags db')
                 <-> In ft (file_tags db)
                     /\ forall f, In f (files db) -> f_id f = ft_file ft -> In f (files db'))
  /\ tags db' = tags db
  /\ ~ In r (map r_path (roots db'))
  /\ Tagfile.remove_root os R db = db'.
Proof.
  intros r db'.
  assert (Hfiles : files db'
                   = filter (fun f => negb (like None (r ++ "%") (f_path f))) (files db))
    by reflexivity.
  split; [exact Hfiles|]. split; [|split; [|split; [|split; [|split]]]].
  - intros f Hf Hpre Hin. rewrite Hfiles in Hin. apply filter_In in Hin as [_ Hn].
    apply startswith_split in Hpre as [t Ht]. rewrite Ht in Hn.
    rewrite like_literal_prefix in Hn. discriminate.
  - intros Hw f. rewrite Hfiles, filter_In.
    rewrite (like_no_wildcard r (f_path f) Hw), negb_true_iff. reflexivity.
  - intros ft. unfold db', App.remove_root. rewrite delete_files_file_tags.
    fold r. simpl. split; intros [Hin H]; (split; [exact Hin|]); intros f Hf Hid.
    + apply filter_In. split; [exact Hf|]. rewrite (H f Hf Hid). reflexivity.
    + specialize (H f Hf Hid). apply filter_In in H as [_ H].
      apply negb_true_iff in H. exact H.
  - reflexivity.
  - unfold db', App.remove_root. fold r. simpl.
    intros Hin. apply in_map_iff in Hin as [x [Hx Hin]].
    apply filter_In in Hin as [_ Hn]. rewrite Hx, String.eqb_refl in Hn. discriminate.
  - reflexivity.
Qed.

(** C1. The deletion of [remove_root] goes beyond the root.  With the roots
    /data/a and /data/ab both registered, removing /data/a deletes the row
    /data/ab/y.txt, a file of the root /data/ab that does not lie in the
    directory /data/a, and the row /DATA/A/z.txt, whose path does not start
    with /data/a at all; their associations go with them while the root
    /data/ab stays registered.  In general every row whose path continues
    the normalized root as a string is deleted, whatever character follows
    the root.  [_remove_root] of [tagfile-c.py] does the same. *)
Theorem C1_remove_root_deletes_files_of_a_sibling_root :
  (let db := Demo.siblings_db in
   let db' := App.remove_root Demo.empty_host "/data/a" db in
   In "/data/a" (map r_path (roots db))
   /\ In "/data/ab" (map r_path (roots db))
   /\ In (mk_file 2 "/data/ab/y.txt" 20 (200#1) None) (files db)
   /\ startswith "/data/ab/y.txt" "/data/ab/" = true
   /\ startswith "/data/ab/y.txt" "/data/a/" = false
   /\ In (mk_file 3 "/DATA/A/z.txt" 30 (300#1) None) (files db)
   /\ startswith "/DATA/A/z.txt" (App.normalize_path Demo.empty_host "/data/a") = false
   /\ files db' = [mk_file 4 "/data/b/w.txt" 40 (400#1) None]
   /\ file_tags db' = [mk_ft 4 1]
   /\ map r_path (roots db') = ["/data/ab"]
   /\ Tagfile.remove_root Demo.empty_host "/data/a" db = db')
  /\ (forall (os : OS) (R : string) (db : DB) (f : file_row) (rest : string),
        In f (files db) ->
        f_path f = (App.normalize_path os R ++ rest)%string ->
        ~ In f (files (App.remove_root os R db))
        /\ ~ In f (files (Tagfile.remove_root os R db))).
Proof.
  split.
  - cbv zeta. repeat split; simpl; auto.
  - intros os R db f rest Hf Hpath.
    assert (Hgone : ~ In f (files (App.remove_root os R db))).
    { intros Hin. unfold App.remove_root in Hin. cbv zeta in Hin. simpl in Hin.
      apply filter_In in Hin as [_ Hn]. rewrite Hpath, like_literal_prefix in Hn.
      discriminate. }
    split; exact Hgone.
Qed.

Lemma C1_remove_root_witness :
  ~ In (mk_file 2 "/data/ab/y.txt" 20 (200#1) None)
       (files (App.remove_root Demo.empty_host "/data/a" Demo.siblings_db)).
Proof.
  apply (proj1 (proj2 C1_remove_root_deletes_files_of_a_sibling_root
                  Demo.empty_host "/data/a" Demo.siblings_db
                  (mk_file 2 "/data/ab/y.txt" 20 (200#1) None) "b/y.txt"
                  ltac:(simpl; auto) eq_refl)).
Defined.

(** ** The short circuit of [index_selected_root] *)



(** The same for [tagfile-c.py], with the pairs [count_and_stats] returns. *)
Lemma short_circuit_tagfile (os : OS) (ui : UI) (db : DB) (R : string) :
  (root_dir ui = Some R
   \/ (Tagfile.falsy (root_dir ui) = true /\ root_list_current ui = Some R)) ->
  truthy R = true ->
  scan_running ui = false ->
  let r := Tagfile.normalize_path os R in
  fst (Tagfile.count_and_stats_disk os (Some r)) = fst (Tagfile.count_and_stats_db os (Some r) db) ->
  (snd (Tagfile.count_and_stats_disk os (Some r))
   <= snd (Tagfile.count_and_stats_db os (Some r) db))%Q ->
  exists ui', Tagfile.index_selected_root os ui db = (ui', db, [ScanFinished]).
Proof.
  intros Hroot HR Hidle r Hcount Hmax.
  unfold Tagfile.index_selected_root, Tagfile.check_busy.
  assert (Hsel : (if Tagfile.falsy (root_dir ui)
                  then (if Tagfile.falsy (root_list_current ui) then root_dir ui
                        else root_list_current ui)
                  else root_dir ui) = Some R).
  { destruct Hroot as [H | [Hf H]].
    - rewrite H. unfold Tagfile.falsy. rewrite HR. reflexivity.
    - rewrite Hf, H. unfold Tagfile.falsy. rewrite HR. reflexivity. }
  rewrite Hsel, HR, Hidle. simpl negb. cbv iota.
  fold r.
  destruct (Tagfile.count_and_stats_disk os (Some r)) as [fs_total fs_max_m].
  destruct (Tagfile.count_and_stats_db os (Some r) db) as [db_total db_max_m].
  simpl in Hcount, Hmax. subst db_total.
  rewrite Z.eqb_refl. apply Qle_bool_iff in Hmax. rewrite Hmax. simpl.
  eexists. reflexivity.
Qed.

(** ** [upsert_file] *)

Lemma filter_none {A} (p : A -> bool) (l : list A) :
  existsb p l = false -> filter p l = [].
Proof.
  induction l as [|x l IH]; simpl; [reflexivity|].
  intros H. apply orb_false_iff in H as [Hx Hl]. rewrite Hx. auto.
Qed.

Lemma filter_unique_path (l : list file_row) (p : string) :
  NoDup (map f_path l) ->
  existsb (fun f => (f_path f =? p)%string) l = true ->
  exists f, In f l /\ f_path f = p /\ filter (fun g => (f_path g =? p)%string) l = [f].
Proof.
  induction l as [|x l IH]; simpl; [discriminate|].
  intros Hnd Hex. inversion Hnd as [|? ? Hnotin Hnd']; subst.
  destruct (f_path x =? p)%string eqn:E.
  - apply String.eqb_eq in E. exists x. split; [auto|]. split; [exact E|].
    f_equal. apply filter_none.
    destruct (existsb _ l) eqn:Ex; [|reflexivity].
    apply existsb_exists in Ex as [y [Hy Ey]]. apply String.eqb_eq in Ey.
    exfalso. apply Hnotin. rewrite E, <- Ey. apply in_map. exact Hy.
  - simpl in Hex. destruct (IH Hnd' Hex) as [f [Hf [Hp Hfl]]].
    exists f. auto.
Qed.

Lemma touch_path p s m f : f_path (touch p s m f) = f_path f.
Proof. unfold touch. destruct (f_path f =? p)%string; reflexivity. Qed.

Lemma touch_id p s m f : f_id (touch p s m f) = f_id f.
Proof. unfold touch. destruct (f_path f =? p)%string; reflexivity. Qed.

Lemma touch_idem p s m f : touch p s m (touch p s m f) = touch p s m f.
Proof.
  unfold touch. destruct (f_path f =? p)%string eqn:E; simpl; rewrite E; reflexivity.
Qed.

Lemma existsb_touch p s m q l :
  existsb (fun f => (f_path f =? q)%string) (map (touch p s m) l)
  = existsb (fun f => (f_path f =? q)%string) l.
Proof.
  induction l as [|x l IH]; simpl; [reflexivity|].
  rewrite touch_path, IH. reflexivity.
Qed.

Lemma touch_absent p s m l :
  existsb (fun f => (f_path f =? p)%string) l = false -> map (touch p s m) l = l.
Proof.
  induction l as [|x l IH]; simpl; [reflexivity|].
  intros H. apply orb_false_iff in H as [Hx Hl].
  unfold touch at 1. rewrite Hx, (IH Hl). reflexivity.
Qed.

Lemma upsert_files_row_files p s m db :
  files (upsert_files_row p s m db)
  = if existsb (fun f => (f_path f =? p)%string) (files db)
    then map (touch p s m) (files db)
    else (files db ++ [mk_file (next_rowid (map f_id (files db))) p s m None])%list.
Proof.
  unfold upsert_files_row. destruct (existsb _ _); reflexivity.
Qed.

Lemma upsert_files_row_frame p s m db :
  tags (upsert_files_row p s m db) = tags db
  /\ file_tags (upsert_files_row p s m db) = file_tags db
  /\ roots (upsert_files_row p s m db) = roots db
  /\ settings (upsert_files_row p s m db) = settings db.
Proof.
  unfold upsert_files_row. destruct (existsb _ _); simpl; auto.
Qed.

(** The statement of [upsert_file] is idempotent on the store. *)
Lemma upsert_files_row_idem p s m db :
  upsert_files_row p s m (upsert_files_row p s m db) = upsert_files_row p s m db.
Proof.
  destruct db as [fs ts fts rs ss]. unfold upsert_files_row. simpl.
  destruct (existsb _ fs) eqn:E; simpl.
  - rewrite existsb_touch, E. rewrite map_map.
    f_equal. apply map_ext. intros f. apply touch_idem.
  - rewrite existsb_app. simpl. rewrite String.eqb_refl, orb_true_r.
    f_equal. rewrite map_app, (touch_absent _ _ _ _ E). simpl.
    unfold touch. simpl. rewrite String.eqb_refl. reflexivity.
Qed.

(** After the statement, the path has one row, with the size and mtime given. *)
Lemma upsert_files_row_one_row p s m db :
  NoDup (map f_path (files db)) ->
  exists f,
    filter (fun g => (f_path g =? p)%string) (files (upsert_files_row p s m db)) = [f]
    /\ f_path f = p /\ f_size f = s /\ f_mtime f = m.
Proof.
  intros Hnd. rewrite upsert_files_row_files.
  destruct (existsb _ (files db)) eqn:E.
  - assert (Hnd' : NoDup (map f_path (map (touch p s m) (files db)))).
    { rewrite map_map. erewrite map_ext; [exact Hnd|]. intros f. apply touch_path. }
    rewrite <- (existsb_touch p s m) in E.
    destruct (filter_unique_path _ p Hnd' E) as [f [Hin [Hp Hf]]].
    exists f. split; [exact Hf|]. split; [exact Hp|].
    apply in_map_iff in Hin as [g [Hg _]]. subst f.
    rewrite touch_path in Hp. unfold touch. rewrite Hp, String.eqb_refl. auto.
  - exists (mk_file (next_rowid (map f_id (files db))) p s m None).
    rewrite filter_app, (filter_none _ _ E). simpl. rewrite String.eqb_refl. auto.
Qed.

(** C3. For a path that is a regular file, a second [upsert_file] with the
    disk unchanged returns the store the first one returned; that store has
    exactly one row for the normalized path, with the size and mtime of the
    file.  [DBManager.upsert_file] returns the same store. *)
Theorem C3_upsert_file_idempotent (os : OS) (path : string) (db : DB) (size : Z) (mtime : Q) :
  is_file os (pathlib_str os path) = true ->
  stat os (pathlib_str os path) = Some (size, mtime) ->
  NoDup (map f_path (files db)) ->
  exists db1 f,
    App.upsert_file os path db = Returned db1
    /\ App.upsert_file os path db1 = Returned db1
    /\ filter (fun g => (f_path g =? App.normalize_path os (pathlib_str os path))%string)
              (files db1) = [f]
    /\ f_size f = size /\ f_mtime f = mtime
    /\ Tagfile.upsert_file os path db = Returned db1
    /\ Tagfile.upsert_file os path db1 = Returned db1.
Proof.
  intros Hfile Hstat Hnd.
  set (full := App.normalize_path os (pathlib_str os path)).
  destruct (upsert_files_row_one_row full size mtime db Hnd) as [f [Hf [_ [Hs Hm]]]].
  exists (upsert_files_row full size mtime db), f.
  unfold App.upsert_file, Tagfile.upsert_file.
  rewrite Hfile, Hstat. simpl negb. cbv iota.
  change (Tagfile.normalize_path os (pathlib_str os path)) with full.
  fold full. rewrite upsert_files_row_idem. auto 10.
Qed.

Lemma C3_upsert_file_witness :
  exists db1 f,
    App.upsert_file Demo2.synced_host "/data/b/./w.txt" Demo.siblings_db = Returned db1
    /\ App.upsert_file Demo2.synced_host "/data/b/./w.txt" db1 = Returned db1
    /\ filter (fun g => (f_path g =? App.normalize_path Demo2.synced_host
                                       (pathlib_str Demo2.synced_host "/data/b/./w.txt"))%string)
              (files db1) = [f]
    /\ f_size f = 40 /\ f_mtime f = (400#1)
    /\ Tagfile.upsert_file Demo2.synced_host "/data/b/./w.txt" Demo.siblings_db = Returned db1
    /\ Tagfile.upsert_file Demo2.synced_host "/data/b/./w.txt" db1 = Returned db1.
Proof.
  apply (C3_upsert_file_idempotent Demo2.synced_host "/data/b/./w.txt" Demo.siblings_db).
  - reflexivity.
  - reflexivity.
  - repeat constructor; simpl; intuition discriminate.
Defined.

(** ** [list_files] *)

Lemma fold_joins (l : list Z) (n : nat) (ps : list sqlval) :
  fold_left (fun '(joins, params) tid => (S joins, SInt tid :: params)) l (n, ps)
  = ((List.length l + n)%nat, (map SInt (rev l) ++ ps)%list).
Proof.
  revert n ps. induction l as [|a l IH]; intros n ps; simpl.
  - reflexivity.
  - rewrite IH. f_equal.
    + lia.
    + rewrite map_app, <- app_assoc. reflexivity.
Qed.

Lemma bind_joins_ints (ts : list Z) (rest : list sqlval) :
  bind_joins (List.length ts) (map SInt ts ++ rest) = Some (ts, rest).
Proof.
  induction ts as [|t ts IH]; simpl.
  - reflexivity.
  - rewrite IH. reflexivity.
Qed.

Lemma insert_by_In {A} (key : A -> string) (x y : A) (l : list A) :
  In y (insert_by key x l) <-> y = x \/ In y l.
Proof.
  induction l as [|z l IH]; simpl.
  - intuition.
  - destruct (String.leb (key x) (key z)); simpl; [intuition|].
    rewrite IH. intuition.
Qed.

Lemma order_by_In {A} (key : A -> string) (y : A) (l : list A) :
  In y (order_by key l) <-> In y l.
Proof.
  induction l as [|x l IH]; simpl.
  - reflexivity.
  - rewrite insert_by_In, IH. intuition.
Qed.

Lemma ft_eta ft : ft = mk_ft (ft_file ft) (ft_tag ft).
Proof. destruct ft; reflexivity. Qed.

(** A row survives the joins only when its file carries every joined tag. *)
Lemma join_rows_In db tids f g :
  In g (join_rows db tids f) ->
  g = f /\ forall t, In t tids -> has_tag db (f_id f) t.
Proof.
  revert g. induction tids as [|t ts IH]; simpl; intros g H.
  - destruct H as [<-|[]]. split; [reflexivity | intros ? []].
  - apply in_flat_map in H as [ft [Hft Hg]].
    apply filter_In in Hft as [Hin Hm]. apply andb_true_iff in Hm as [Hf Ht].
    apply Z.eqb_eq in Hf, Ht.
    destruct (IH g Hg) as [-> Hall]. split; [reflexivity|].
    intros t' [<-|Ht']; [|auto].
    unfold has_tag. rewrite <- Hf, <- Ht, <- ft_eta. exact Hin.
Qed.

(** A file that carries every joined tag survives the joins. *)
Lemma join_rows_complete db tids f :
  (forall t, In t tids -> has_tag db (f_id f) t) -> In f (join_rows db tids f).
Proof.
  induction tids as [|t ts IH]; simpl; intros H.
  - auto.
  - apply in_flat_map. exists (mk_ft (f_id f) t). split.
    + apply filter_In. split; [apply H; auto|]. simpl. rewrite !Z.eqb_refl. reflexivity.
    + apply IH. intros; apply H; auto.
Qed.

(** The query [list_files] of [app.py] builds: one join for each selected
    tag, bound to the tag ids in reverse order, then the conditions with
    their parameters in order. *)
Lemma list_files_query os search tag_ids only_tagged root db :
  App.list_files os search tag_ids only_tagged root db
  = select_files
      (List.length tag_ids)
      ((if truthy search then [W_path_like] else [])
         ++ (if only_tagged then [W_exists_tag] else [])
         ++ (match root with
             | Some r => if truthy r then [W_path_like] else []
             | None => []
             end))%list
      (map SInt (rev tag_ids)
         ++ (if truthy search then [SText ("%" ++ search ++ "%")] else [])
         ++ (match root with
             | Some r => if truthy r then [SText (App.normalize_path os r ++ "%")] else []
             | None => []
             end))%list
      db.
Proof.
  unfold App.list_files, App.build_query.
  destruct (truthy search); rewrite fold_joins, Nat.add_0_r;
    destruct only_tagged; destruct root as [r|]; try destruct (truthy r);
    simpl; rewrite ?app_nil_r, <- ?app_assoc; reflexivity.
Qed.

(** [DBManager.list_files] builds the same query. *)
Lemma list_files_tagfile os search tag_ids only_tagged root db :
  Tagfile.list_files os search tag_ids only_tagged root db
  = App.list_files os search tag_ids only_tagged root db.
Proof.
  unfold Tagfile.list_files, App.list_files, App.build_query.
  destruct (truthy search); rewrite !fold_joins;
    destruct only_tagged; destruct root as [r|]; try destruct (truthy r); reflexivity.
Qed.

(** The conditions always bind: the query never fails. *)
Lemma list_files_binds (os : OS) (search : string) (only_tagged : bool)
      (root : option string) :
  exists conds,
    bind_wheres
      ((if truthy search then [W_path_like] else [])
         ++ (if only_tagged then [W_exists_tag] else [])
         ++ (match root with
             | Some r => if truthy r then [W_path_like] else []
             | None => []
             end))%list
      ((if truthy search then [SText ("%" ++ search ++ "%")] else [])
         ++ (match root with
             | Some r => if truthy r then [SText (App.normalize_path os r ++ "%")] else []
             | None => []
             end))%list
    = Some conds.
Proof.
  destruct (truthy search); destruct only_tagged; destruct root as [r|];
    try destruct (truthy r); simpl; eexists; reflexivity.
Qed.

(** C4. [list_files] always returns, and every row it returns belongs to a
    file that carries every tag of [tag_ids]; on F1{tagA}, F2{tagA,tagB},
    F3{tagB} the filter {tagA,tagB} returns F2 alone.  With no other filter,
    every file that carries all the tags is returned. *)
Theorem C4_list_files_conjunctive (os : OS) (search : string) (tag_ids : list Z)
        (only_tagged : bool) (root : option string) (db : DB) :
  exists rows,
    App.list_files os search tag_ids only_tagged root db = Some rows
    /\ Tagfile.list_files os search tag_ids only_tagged root db = Some rows
    /\ (forall r, In r rows ->
        (exists f, In f (files db) /\ f_id f = row_id r /\ f_path f = row_path r)
        /\ forall tid, In tid tag_ids -> has_tag db (row_id r) tid)
    /\ (search = "" -> only_tagged = false -> root = None ->
        forall f, In f (files db) ->
                  (forall tid, In tid tag_ids -> has_tag db (f_id f) tid) ->
                  exists r, In r rows /\ row_id r = f_id f)
    /\ App.list_files os "" [1; 2] false None Demo3.three_files_db
       = Some [(2, "/data/F2", 20, 200#1, Some "tagA, tagB")].
Proof.
  rewrite list_files_tagfile, list_files_query.
  unfold select_files. rewrite <- (length_rev tag_ids), bind_joins_ints.
  destruct (list_files_binds os search only_tagged root) as [conds Hc].
  rewrite Hc.
  eexists. split; [reflexivity|]. split; [reflexivity|]. split; [|split].
  - intros r Hr. apply in_map_iff in Hr as [g [Hg Hin]].
    apply order_by_In in Hin. apply filter_In in Hin as [Hin _].
    apply in_flat_map in Hin as [f [Hf Hj]].
    apply join_rows_In in Hj as [-> Hall].
    subst r. simpl. split.
    + exists f. auto.
    + intros tid Ht. apply Hall. apply in_rev in Ht. exact Ht.
  - intros -> -> -> f Hf Hall. simpl in Hc. injection Hc as <-.
    exists (f_id f, f_path f, f_size f, f_mtime f, group_concat_tags db f).
    split; [|reflexivity].
    apply in_map_iff. exists f. split; [reflexivity|].
    apply order_by_In. apply filter_In. split; [|reflexivity].
    apply in_flat_map. exists f. split; [exact Hf|].
    apply join_rows_complete. intros t Ht. apply Hall. apply in_rev. exact Ht.
  - reflexivity.
Qed.

Lemma C4_list_files_witness :
  exists r,
    In r [(2, "/data/F2", 20, 200#1, Some "tagA, tagB")] /\ row_id r = 2.
Proof.
  destruct (C4_list_files_conjunctive Demo.empty_host "" [1; 2] false None
              Demo3.three_files_db) as [rows [H1 [_ [_ [Hall Hex]]]]].
  rewrite Hex in H1. injection H1 as <-.
  apply (Hall eq_refl eq_refl eq_refl (mk_file 2 "/data/F2" 20 (200#1) None)).
  - simpl. auto.
  - intros tid [<-|[<-|[]]]; unfold has_tag; simpl; auto.
Defined.

(** ** Renaming a tag onto another one *)

Lemma ft_eqb_eq a b : ft_eqb a b = true <-> a = b.
Proof.
  unfold ft_eqb. rewrite andb_true_iff, !Z.eqb_eq.
  destruct a, b; simpl. split.
  - intros [-> ->]. reflexivity.
  - intros H. injection H. auto.
Qed.

Lemma existsb_ft_eqb r tbl : existsb (ft_eqb r) tbl = true <-> In r tbl.
Proof.
  rewrite existsb_exists. split.
  - intros [x [Hx E]]. apply ft_eqb_eq in E. subst. exact Hx.
  - intros H. exists r. split; [exact H | apply ft_eqb_eq; reflexivity].
Qed.

Lemma insert_or_ignore_In new tbl x :
  In x (insert_or_ignore_file_tags new tbl) <-> In x tbl \/ In x new.
Proof.
  revert tbl. induction new as [|r new IH]; intros tbl; simpl.
  - intuition.
  - rewrite IH. destruct (existsb (ft_eqb r) tbl) eqn:E.
    + apply existsb_ft_eqb in E. intuition (subst; auto).
    + rewrite in_app_iff. simpl. intuition.
Qed.

Lemma insert_or_ignore_NoDup new tbl :
  NoDup tbl -> NoDup (insert_or_ignore_file_tags new tbl).
Proof.
  revert tbl. induction new as [|r new IH]; intros tbl Hnd; simpl.
  - exact Hnd.
  - apply IH. destruct (existsb (ft_eqb r) tbl) eqn:E; [exact Hnd|].
    apply NoDup_app; [exact Hnd | repeat constructor; intros [] |].
    intros x Hx [<-|[]].
    apply existsb_ft_eqb in Hx. congruence.
Qed.

Lemma delete_tags_where_file_tags p db ft :
  In ft (file_tags (delete_tags_where p db))
  <-> In ft (file_tags db)
      /\ forall t, In t (tags db) -> t_id t = ft_tag ft -> p t = false.
Proof.
  unfold delete_tags_where; simpl. rewrite filter_In. split.
  - intros [Hin Hn]. split; [exact Hin|].
    intros t Ht Hid. destruct (p t) eqn:Ep; [|reflexivity].
    apply negb_true_iff in Hn.
    assert (Hex : existsb (Z.eqb (ft_tag ft)) (map t_id (filter p (tags db))) = true).
    { apply existsb_eqb_In. rewrite <- Hid. apply in_map. apply filter_In. auto. }
    congruence.
  - intros [Hin Hall]. split; [exact Hin|].
    apply negb_true_iff. destruct (existsb _ _) eqn:Ex; [|reflexivity].
    apply existsb_eqb_In in Ex. apply in_map_iff in Ex as [t [Hid Ht]].
    apply filter_In in Ht as [Ht Hp].
    rewrite (Hall t Ht Hid) in Hp. discriminate.
Qed.

Lemma find_unique_name (ts : list tag_row) (t : tag_row) :
  NoDup (map t_name ts) -> In t ts ->
  find (fun u => (t_name u =? t_name t)%string) ts = Some t
  /\ filter (fun u => (t_name u =? t_name t)%string) ts = [t].
Proof.
  induction ts as [|x ts IH]; simpl; [intros _ []|].
  intros Hnd Hin. inversion Hnd as [|? ? Hnotin Hnd']; subst.
  destruct Hin as [->|Hin].
  - rewrite String.eqb_refl. split; [reflexivity|]. f_equal.
    apply filter_none. destruct (existsb _ ts) eqn:Ex; [|reflexivity].
    apply existsb_exists in Ex as [y [Hy Ey]]. apply String.eqb_eq in Ey.
    exfalso. apply Hnotin. rewrite <- Ey. apply in_map. exact Hy.
  - destruct (t_name x =? t_name t)%string eqn:E.
    + apply String.eqb_eq in E. exfalso. apply Hnotin. rewrite E. apply in_map. exact Hin.
    + apply IH; assumption.
Qed.

Lemma filter_filter_comm {A} (p q : A -> bool) (l : list A) :
  filter p (filter q l) = filter q (filter p l).
Proof.
  induction l as [|x l IH]; simpl; [reflexivity|].
  destruct (p x) eqn:Ep, (q x) eqn:Eq; simpl; rewrite ?Ep, ?Eq, IH; reflexivity.
Qed.

(** C5. Renaming the tag [old] to the name of another tag [new] leaves one
    tag with that name, [new] itself, which is associated with exactly the
    files that carried [new] or [old]; no pair is duplicated, the tag [old]
    and its associations are gone, and the associations of the other tags
    are untouched.  Both files run the same statements. *)
Theorem C5_rename_onto_existing_merges (db : DB) (old new : tag_row) :
  NoDup (map t_name (tags db)) ->
  In old (tags db) ->
  In new (tags db) ->
  t_id old <> t_id new ->
  truthy (t_name new) = true ->
  let db' := fst (App.rename_or_merge_tag (t_id old) (t_name new) db) in
  filter (fun t => (t_name t =? t_name new)%string) (tags db') = [new]
  /\ (forall t, In t (tags db') -> t_id t <> t_id old)
  /\ (forall fid, has_tag db' fid (t_id new)
                  <-> has_tag db fid (t_id new) \/ has_tag db fid (t_id old))
  /\ (forall fid, ~ has_tag db' fid (t_id old))
  /\ (forall fid tid, tid <> t_id new -> tid <> t_id old ->
                      (has_tag db' fid tid <-> has_tag db fid tid))
  /\ (NoDup (file_tags db) -> NoDup (file_tags db'))
  /\ files db' = files db
  /\ snd (App.rename_or_merge_tag (t_id old) (t_name new) db) = [Information Merged]
  /\ Tagfile.rename_or_merge_tag (t_id old) (t_name new) db
     = App.rename_or_merge_tag (t_id old) (t_name new) db.
Proof.
  intros Hnd Hold Hnew Hne Hname.
  destruct (find_unique_name _ _ Hnd Hnew) as [Hfind Hfilter].
  assert (Hne' : (t_id new =? t_id old) = false) by (apply Z.eqb_neq; congruence).
  pose (moved := map (fun ft => mk_ft (ft_file ft) (t_id new))
                     (filter (fun ft => ft_tag ft =? t_id old) (file_tags db))).
  pose (db1 := mk_db (files db) (tags db)
                     (insert_or_ignore_file_tags moved (file_tags db))
                     (roots db) (settings db)).
  pose (db2 := delete_file_tags (fun ft => ft_tag ft =? t_id old) db1).
  assert (Hrun : App.rename_or_merge_tag (t_id old) (t_name new) db
                 = (delete_tags_where (fun t => t_id t =? t_id old) db2,
                    [Information Merged])).
  { unfold App.rename_or_merge_tag, tag_id_by_name.
    rewrite Hname, Hfind. simpl negb. cbv iota. simpl option_map. cbv iota.
    rewrite Hne'. reflexivity. }
  rewrite Hrun. simpl fst. simpl snd. intros db'.
  assert (Hmoved : forall fid tid,
             In (mk_ft fid tid) moved <-> tid = t_id new /\ has_tag db fid (t_id old)).
  { intros fid tid. unfold moved. rewrite in_map_iff. split.
    - intros [ft [E Hft]]. apply filter_In in Hft as [Hin Ht].
      apply Z.eqb_eq in Ht. injection E as <- <-. split; [reflexivity|].
      unfold has_tag. rewrite <- Ht, <- ft_eta. exact Hin.
    - intros [-> H]. exists (mk_ft fid (t_id old)). split; [reflexivity|].
      apply filter_In. split; [exact H | apply Z.eqb_refl]. }
  assert (Hft : forall fid tid,
             has_tag db' fid tid
             <-> tid <> t_id old
                 /\ (has_tag db fid tid \/ (tid = t_id new /\ has_tag db fid (t_id old)))).
  { intros fid tid. unfold has_tag, db'.
    rewrite delete_tags_where_file_tags. unfold db2, delete_file_tags. simpl.
    rewrite filter_In, insert_or_ignore_In, Hmoved. simpl.
    rewrite negb_true_iff, Z.eqb_neq. split.
    - intros [[H Hn] _]. auto.
    - intros [Hn H]. split; [auto|].
      intros t _ E. apply Z.eqb_neq. congruence. }
  split; [|split; [|split; [|split; [|split; [|split; [|split; [|split]]]]]]].
  - unfold db'. simpl. rewrite filter_filter_comm, Hfilter. simpl.
    rewrite Hne'. reflexivity.
  - intros t Ht. unfold db' in Ht. simpl in Ht. apply filter_In in Ht as [_ Ht].
    apply negb_true_iff, Z.eqb_neq in Ht. exact Ht.
  - intros fid. rewrite Hft. intuition.
  - intros fid H. apply Hft in H. intuition.
  - intros fid tid Hn Ho. rewrite Hft. intuition.
  - intros Hndft. unfold db'. simpl. apply NoDup_filter, NoDup_filter.
    apply insert_or_ignore_NoDup. exact Hndft.
  - reflexivity.
  - reflexivity.
  - rewrite <- Hrun. reflexivity.
Qed.

Lemma C5_rename_witness :
  let db' := fst (App.rename_or_merge_tag 1 "later" Demo4.todo_later_db) in
  filter (fun t => (t_name t =? "later")%string) (tags db') = [Demo4.later]
  /\ (forall t, In t (tags db') -> t_id t <> 1)
  /\ (forall fid, has_tag db' fid 2
                  <-> has_tag Demo4.todo_later_db fid 2 \/ has_tag Demo4.todo_later_db fid 1)
  /\ (forall fid, ~ has_tag db' fid 1)
  /\ (forall fid tid, tid <> 2 -> tid <> 1 ->
                      (has_tag db' fid tid <-> has_tag Demo4.todo_later_db fid tid))
  /\ (NoDup (file_tags Demo4.todo_later_db) -> NoDup (file_tags db'))
  /\ files db' = files Demo4.todo_later_db
  /\ snd (App.rename_or_merge_tag 1 "later" Demo4.todo_later_db) = [Information Merged]
  /\ Tagfile.rename_or_merge_tag 1 "later" Demo4.todo_later_db
     = App.rename_or_merge_tag 1 "later" Demo4.todo_later_db.
Proof.
  apply (C5_rename_onto_existing_merges Demo4.todo_later_db Demo4.todo Demo4.later).
  - repeat constructor; simpl; intuition discriminate.
  - simpl. auto.
  - simpl. auto.
  - simpl. lia.
  - reflexivity.
Defined.

(** The run of the specification: "todo" on {F1,F2} renamed to "later" on
    {F2,F3}. *)
Example rename_todo_to_later :
  let db' := fst (App.rename_or_merge_tag 1 "later" Demo4.todo_later_db) in
  tags db' = [Demo4.later]
  /\ file_tags db' = [mk_ft 2 2; mk_ft 3 2; mk_ft 1 2].
Proof. split; reflexivity. Qed.

(** ** Wildcards in a root *)

(** C6 (the code at the failing input).  For the root /data/a_b only
    [count_files_under] escapes the [_]: it counts the one row under the
    root.  The fingerprint, the pruning, the root filter of [list_files] and
    [remove_root] pass the root to [LIKE] as it is, and reach the row
    /data/axb/g.txt, which does not start with the root. *)
Theorem C6_root_wildcards_not_escaped :
  let os := Demo6.underscore_host in
  let db := Demo6.underscore_db in
  let root := "/data/a_b" in
  startswith "/data/axb/g.txt" (App.normalize_path os root) = false
  /\ App.count_files_under os root db = 1
  /\ fst (App.db_count_and_max_mtime_under os root db) = 2
  /\ fst (Tagfile.count_and_stats_db os (Some root) db) = 2
  /\ App.remove_missing_under os root db
     = (mk_db [mk_file 1 "/data/a_b/f.txt" 10 (100#1) None] [] [] [mk_root "/data/a_b" 0] [], 1)
  /\ Tagfile.remove_missing_under os root db = App.remove_missing_under os root db
  /\ App.list_files os "" [] false (Some root) db
     = Some [(1, "/data/a_b/f.txt", 10, 100#1, None);
             (2, "/data/axb/g.txt", 20, 200#1, None)]
  /\ Tagfile.list_files os "" [] false (Some root) db
     = App.list_files os "" [] false (Some root) db
  /\ files (App.remove_root os root db) = [].
Proof.
  cbv zeta. repeat split; reflexivity.
Qed.

(** ** The two files side by side *)

Lemma normalize_path_same os p : Tagfile.normalize_path os p = App.normalize_path os p.
Proof. reflexivity. Qed.

Lemma upsert_file_same os path db : Tagfile.upsert_file os path db = App.upsert_file os path db.
Proof. reflexivity. Qed.

Lemma remove_missing_under_same os root db :
  Tagfile.remove_missing_under os root db = App.remove_missing_under os root db.
Proof. reflexivity. Qed.

Lemma ensure_tag_same name db : Tagfile.ensure_tag name db = App.ensure_tag name db.
Proof. reflexivity. Qed.

Lemma remove_root_same os path db : Tagfile.remove_root os path db = App.remove_root os path db.
Proof. reflexivity. Qed.

Lemma fingerprint_db_same os root db :
  truthy root = true ->
  Tagfile.count_and_stats_db os (Some root) db = App.db_count_and_max_mtime_under os root db.
Proof.
  intros H. unfold Tagfile.count_and_stats_db, App.db_count_and_max_mtime_under.
  rewrite H. reflexivity.
Qed.

(** C7 (the code at the failing input).  On the same catalog and root the
    count of files under the root differs between the two files:
    [count_files_under] of [app.py] escapes the root and counts 1,
    [DBManager.count_and_stats] of [tagfile-c.py] does not and counts 2. *)
Theorem C7_count_under_root_differs :
  App.count_files_under Demo6.underscore_host "/data/a_b" Demo6.underscore_db = 1
  /\ fst (Tagfile.count_and_stats_db Demo6.underscore_host (Some "/data/a_b")
                                     Demo6.underscore_db) = 2.
Proof.
  split; reflexivity.
Qed.

Lemma count_dir_same os dp (files : list string) (t : Z) (m : Q) :
  fold_left
    (fun '(total, max_m) fn =>
       match getmtime os (os_join os dp fn) with
       | Some mt => if negb (Qle_bool mt max_m) then (total, mt) else (total, max_m)
       | None => (total, max_m)
       end)
    files (t + Z.of_nat (List.length files), m)
  = fold_left
      (fun '(total, max_m) fn =>
         let total := total + 1 in
         match getmtime os (os_join os dp fn) with
         | Some mt => if negb (Qle_bool mt max_m) then (total, mt) else (total, max_m)
         | None => (total, max_m)
         end)
      files (t, m).
Proof.
  revert t m. induction files as [|fn files IH]; intros t m.
  - simpl. f_equal. lia.
  - cbn [fold_left List.length].
    replace (t + Z.of_nat (S (List.length files)))
      with ((t + 1) + Z.of_nat (List.length files)) by lia.
    destruct (getmtime os (os_join os dp fn)) as [mt|];
      [destruct (negb (Qle_bool mt m))|]; apply IH.
Qed.

(** The disk fingerprint is the same in both files for a non-empty root. *)
Lemma fingerprint_disk_same os root :
  truthy root = true ->
  Tagfile.count_and_stats_disk os (Some root) = App.walk_count_and_max_mtime os root.
Proof.
  intros H. unfold Tagfile.count_and_stats_disk, App.walk_count_and_max_mtime.
  rewrite H. simpl negb. cbv iota.
  change (Tagfile.normalize_path os root) with (App.normalize_path os root).
  generalize (0, 0%Q) as st.
  induction (os_walk os (App.normalize_path os root)) as [|[dp files] l IH]; intros st.
  - reflexivity.
  - cbn [fold_left]. destruct st as [t m].
    rewrite count_dir_same. apply IH.
Qed.

Lemma index_worker_same os root fs_total step db :
  Tagfile.index_worker os root fs_total step db = App.index_worker os root fs_total step db.
Proof. reflexivity. Qed.

Lemma rescan_worker_same os uniq total db :
  Tagfile.rescan_worker os uniq total db = App.rescan_worker os uniq total db.
Proof. reflexivity. Qed.

(** [index_selected_root] is the same in both files when the normalized
    root is not the empty string. *)
Lemma index_selected_root_same os ui db :
  (forall p, truthy p = true -> truthy (App.normalize_path os p) = true) ->
  Tagfile.index_selected_root os ui db = App.index_selected_root os ui db.
Proof.
  intros Hnorm.
  unfold Tagfile.index_selected_root, App.index_selected_root, Tagfile.check_busy.
  change Tagfile.falsy with App.falsy.
  destruct (if App.falsy (root_dir ui) then _ else _) as [root|]; [|reflexivity].
  destruct (truthy root) eqn:Hr; [|reflexivity]. simpl negb. cbv iota.
  destruct (scan_running ui); [reflexivity|].
  change (Tagfile.normalize_path os root) with (App.normalize_path os root).
  rewrite (fingerprint_disk_same os _ (Hnorm _ Hr)).
  rewrite (fingerprint_db_same os _ db (Hnorm _ Hr)).
  reflexivity.
Qed.

(** ** [ensure_tag] *)

Lemma max_ord_none ts :
  max_ord ts = None -> forall t, In t ts -> t_ord t = None.
Proof.
  induction ts as [|x ts IH]; simpl; [intros _ t []|].
  destruct (t_ord x) as [a|] eqn:Ex.
  - destruct (max_ord ts); discriminate.
  - intros H t [<-|Ht]; auto.
Qed.

Lemma max_ord_some ts m :
  max_ord ts = Some m ->
  (exists t, In t ts /\ t_ord t = Some m)
  /\ forall t o, In t ts -> t_ord t = Some o -> o <= m.
Proof.
  revert m. induction ts as [|x ts IH]; simpl; [discriminate|].
  intros m. destruct (t_ord x) as [a|] eqn:Ex.
  - destruct (max_ord ts) as [b|] eqn:Em.
    + intros H. injection H as <-. destruct (IH b eq_refl) as [[t [Ht Ho]] Hle].
      split.
      * destruct (Z.max_spec a b) as [[_ ->]|[_ ->]]; [exists t; auto | exists x; auto].
      * intros u o [<-|Hu] Hou.
        -- rewrite Ex in Hou. injection Hou as <-. lia.
        -- specialize (Hle u o Hu Hou). lia.
    + intros H. injection H as <-. split; [exists x; auto|].
      intros u o [<-|Hu] Hou.
      * rewrite Ex in Hou. injection Hou as <-. lia.
      * rewrite (max_ord_none ts Em u Hu) in Hou. discriminate.
  - intros H. destruct (IH m H) as [[t [Ht Ho]] Hle]. split; [exists t; auto|].
    intros u o [<-|Hu] Hou; [congruence | eauto].
Qed.

Lemma truthy_false s : truthy s = false <-> s = "".
Proof. unfold truthy. rewrite negb_false_iff. apply String.eqb_eq. Qed.

Lemma truthy_true s : truthy s = true <-> s <> "".
Proof. unfold truthy. rewrite negb_true_iff. apply String.eqb_neq. Qed.

Lemma find_absent (ts : list tag_row) (n : string) :
  (forall t, In t ts -> t_name t <> n) ->
  existsb (fun t => (t_name t =? n)%string) ts = false
  /\ find (fun t => (t_name t =? n)%string) ts = None.
Proof.
  induction ts as [|x ts IH]; simpl; [auto|].
  intros H. assert (E : (t_name x =? n)%string = false) by (apply String.eqb_neq; auto).
  rewrite E. simpl. apply IH. auto.
Qed.

Lemma find_app_none {A} (p : A -> bool) (l l' : list A) :
  find p l = None -> find p (l ++ l') = find p l'.
Proof.
  induction l as [|x l IH]; simpl; [reflexivity|].
  destruct (p x); [discriminate | exact IH].
Qed.

(** C9. [ensure_tag] strips the name.  An empty result gives no id and the
    store is unchanged.  If a tag has the stripped name, its id is returned
    and the store is unchanged (so is its order value).  Otherwise one tag is
    appended, with a fresh id, the stripped name and the order value [m + 1],
    [m] being the largest order value in the table (0 when there is none),
    and its id is returned.  [DBManager.ensure_tag] is the same function. *)
Theorem C9_ensure_tag_get_or_create (name : string) (db : DB) :
  let n := strip name in
  (n = "" -> App.ensure_tag name db = (db, None))
  /\ (forall t, n <> "" -> NoDup (map t_name (tags db)) -> In t (tags db) -> t_name t = n ->
                App.ensure_tag name db = (db, Some (t_id t)))
  /\ (n <> "" -> (forall t, In t (tags db) -> t_name t <> n) ->
      exists m,
        App.ensure_tag name db
        = (mk_db (files db)
                 (tags db ++ [mk_tag (next_rowid (map t_id (tags db))) n (Some (m + 1))])
                 (file_tags db) (roots db) (settings db),
           Some (next_rowid (map t_id (tags db))))
        /\ (forall t, In t (tags db) -> t_id t < next_rowid (map t_id (tags db)))
        /\ (((forall t, In t (tags db) -> t_ord t = None) /\ m = 0)
            \/ ((exists t, In t (tags db) /\ t_ord t = Some m)
                /\ forall t o, In t (tags db) -> t_ord t = Some o -> o <= m)))
  /\ Tagfile.ensure_tag name db = App.ensure_tag name db.
Proof.
  intros n. split; [|split; [|split]].
  - intros Hn. unfold App.ensure_tag. fold n. rewrite Hn. reflexivity.
  - intros t Hn Hnd Hin Ht. apply truthy_true in Hn.
    unfold App.ensure_tag. fold n. rewrite Hn. simpl negb. cbv iota.
    destruct (find_unique_name _ _ Hnd Hin) as [Hfind _]. rewrite Ht in Hfind.
    unfold insert_or_ignore_tag.
    assert (Hex : existsb (fun u => (t_name u =? n)%string) (tags db) = true).
    { apply existsb_exists. exists t. split; [exact Hin|]. apply String.eqb_eq. exact Ht. }
    rewrite Hex. unfold tag_id_by_name. rewrite Hfind. reflexivity.
  - intros Hn Habs. apply truthy_true in Hn.
    destruct (find_absent _ _ Habs) as [Hex Hfind].
    exists (match max_ord (tags db) with Some m => m | None => 0 end).
    split; [|split].
    + unfold App.ensure_tag. fold n. rewrite Hn. simpl negb. cbv iota.
      unfold insert_or_ignore_tag. rewrite Hex.
      unfold tag_id_by_name. simpl tags.
      rewrite (find_app_none _ _ _ Hfind). simpl. rewrite String.eqb_refl. reflexivity.
    + intros t Ht. unfold next_rowid.
      assert (H : forall l x, In x l -> x <= fold_right Z.max 0 l).
      { induction l as [|y l IH]; simpl; [intros ? []|].
        intros x [<-|Hx]; [lia|]. specialize (IH x Hx). lia. }
      specialize (H (map t_id (tags db)) (t_id t) (in_map _ _ _ Ht)). lia.
    + destruct (max_ord (tags db)) as [m|] eqn:Em.
      * right. apply max_ord_some. exact Em.
      * left. split; [apply max_ord_none; exact Em | reflexivity].
  - reflexivity.
Qed.

Lemma C9_ensure_tag_witness :
  App.ensure_tag "  " Demo4.todo_later_db = (Demo4.todo_later_db, None)
  /\ App.ensure_tag " later " Demo4.todo_later_db = (Demo4.todo_later_db, Some 2)
  /\ exists m,
       App.ensure_tag "soon " Demo4.todo_later_db
       = (mk_db (files Demo4.todo_later_db)
                (tags Demo4.todo_later_db
                   ++ [mk_tag (next_rowid (map t_id (tags Demo4.todo_later_db)))
                              (strip "soon ") (Some (m + 1))])
                (file_tags Demo4.todo_later_db) (roots Demo4.todo_later_db)
                (settings Demo4.todo_later_db),
          Some (next_rowid (map t_id (tags Demo4.todo_later_db)))).
Proof.
  split; [|split].
  - apply (proj1 (C9_ensure_tag_get_or_create "  " Demo4.todo_later_db)).
    reflexivity.
  - apply (proj1 (proj2 (C9_ensure_tag_get_or_create " later " Demo4.todo_later_db))
             Demo4.later).
    + discriminate.
    + repeat constructor; simpl; intuition discriminate.
    + simpl. auto.
    + reflexivity.
  - destruct (proj1 (proj2 (proj2 (C9_ensure_tag_get_or_create "soon " Demo4.todo_later_db))))
      as [m [H _]].
    + discriminate.
    + intros t [<-|[<-|[]]]; discriminate.
    + exists m. exact H.
Defined.

Example ensure_tag_new_order :
  App.ensure_tag "soon " Demo4.todo_later_db
  = (mk_db (files Demo4.todo_later_db)
           [Demo4.todo; Demo4.later; mk_tag 3 "soon" (Some 3)]
           (file_tags Demo4.todo_later_db) (roots Demo4.todo_later_db) [],
     Some 3).
Proof. reflexivity. Qed.

(** ** The scan workers *)

Import Log.








(** ** A pruning that raises *)

(** The call raises exactly when [exists] raises on a row that matches
    [root%]; otherwise it is [remove_missing_under]. *)
Lemma remove_missing_under_try_eq os root db :
  App.remove_missing_under_try os root db
  = if existsb (fun row => exists_raises os (pathlib_str os (f_path row)))
               (files_like (App.normalize_path os root ++ "%") db)
    then Raised OSError
    else Returned (App.remove_missing_under os root db).
Proof.
  unfold App.remove_missing_under_try, App.remove_missing_under.
  generalize (files_like (App.normalize_path os root ++ "%") db) as rows.
  generalize (db, 0) as st.
  intros st rows. revert st.
  assert (Hstop : forall (l : list file_row) e,
             fold_left
               (fun (acc : outcome (DB * Z)) row =>
                  match acc with
                  | Raised e => Raised e
                  | Returned (db, removed) =>
                      if exists_raises os (pathlib_str os (f_path row)) then Raised OSError
                      else if negb (path_exists os (pathlib_str os (f_path row)))
                           then Returned (delete_files (fun f => f_id f =? f_id row) db,
                                          removed + 1)
                           else Returned (db, removed)
                  end) l (Raised e) = Raised e).
  { induction l as [|row l IH]; intros e; cbn [fold_left]; [reflexivity | apply IH]. }
  induction rows as [|row rows IH]; intros [d n]; cbn [fold_left existsb]; [reflexivity|].
  destruct (exists_raises os (pathlib_str os (f_path row))).
  - rewrite Hstop. reflexivity.
  - simpl orb. destruct (negb (path_exists os (pathlib_str os (f_path row)))); apply IH.
Qed.

Lemma remove_missing_under_try_cases os root db :
  App.remove_missing_under_try os root db = Raised OSError
  \/ App.remove_missing_under_try os root db = Returned (App.remove_missing_under os root db).
Proof. rewrite remove_missing_under_try_eq. destruct (existsb _ _); auto. Qed.



(** A property of the store that each store call of a worker carries over
    is carried over by the worker. *)
Lemma index_worker_carries os (R : DB -> DB -> Prop) root fs_total step db :
  (forall d, R d d) ->
  (forall a b c, R a b -> R b c -> R a c) ->
  (forall r d, R d (App.add_root os r d)) ->
  (forall p s m d, R d (upsert_files_row p s m d)) ->
  (forall r d, R d (fst (App.remove_missing_under os r d))) ->
  R db (db_of (App.index_worker os root fs_total step db)).
Proof.
  intros Hrefl Htrans Hadd Hup Hprune.
  assert (Hscan : forall tick shown r st, R (db_of st) (db_of (App.scan_tree os tick shown r st))).
  { intros tick shown r. unfold App.scan_tree.
    induction (os_walk os r) as [|[dp files] l IH]; intros st; cbn [fold_left];
      [apply Hrefl|].
    eapply Htrans; [|apply IH]. clear IH. revert st.
    induction files as [|fn files IH]; intros st; cbn [fold_left]; [apply Hrefl|].
    eapply Htrans; [|apply IH]. clear IH.
    destruct st as [[d n] log]. unfold App.scan_file, App.upsert_file.
    destruct (is_file os _); simpl negb; cbv iota.
    - destruct (stat os _) as [[sz mt]|]; unfold db_of; simpl; [apply Hup | apply Hrefl].
    - unfold db_of; simpl. apply Hrefl. }
  unfold App.index_worker.
  pose proof (Hscan (fun processed => (processed mod step =? 0) || (processed =? fs_total))
                    fs_total root (App.add_root os root db, 0, [Call_add_root root])) as Hs.
  destruct (App.scan_tree os _ fs_total root _) as [[db1 n] log].
  unfold db_of in Hs. simpl in Hs.
  assert (H1 : R db db1) by (eapply Htrans; [apply Hadd | exact Hs]).
  destruct (remove_missing_under_try_cases os root db1) as [E|E]; rewrite E.
  - exact H1.
  - pose proof (Hprune root db1) as Hp.
    destruct (App.remove_missing_under os root db1) as [db2 removed].
    unfold db_of. simpl in *. eapply Htrans; [exact H1 | exact Hp].
Qed.

Lemma rescan_worker_carries os (R : DB -> DB -> Prop) uniq total db :
  (forall d, R d d) ->
  (forall a b c, R a b -> R b c -> R a c) ->
  (forall r d, R d (App.add_root os r d)) ->
  (forall p s m d, R d (upsert_files_row p s m d)) ->
  (forall r d, R d (fst (App.remove_missing_under os r d))) ->
  R db (db_of (App.rescan_worker os uniq total db)).
Proof.
  intros Hrefl Htrans Hadd Hup Hprune.
  assert (Hscan : forall tick shown r st, R (db_of st) (db_of (App.scan_tree os tick shown r st))).
  { intros tick shown r. unfold App.scan_tree.
    induction (os_walk os r) as [|[dp files] l IH]; intros st; cbn [fold_left];
      [apply Hrefl|].
    eapply Htrans; [|apply IH]. clear IH. revert st.
    induction files as [|fn files IH]; intros st; cbn [fold_left]; [apply Hrefl|].
    eapply Htrans; [|apply IH]. clear IH.
    destruct st as [[d n] log]. unfold App.scan_file, App.upsert_file.
    destruct (is_file os _); simpl negb; cbv iota.
    - destruct (stat os _) as [[sz mt]|]; unfold db_of; simpl; [apply Hup | apply Hrefl].
    - unfold db_of; simpl. apply Hrefl. }
  unfold App.rescan_worker.
  set (body := fun '(db, processed, log, raised) root =>
                 if (raised : bool) then (db, processed, log, raised)
                 else
                   let db := App.add_root os root db in
                   let '(db, processed, log) :=
                     App.scan_tree os
                       (fun processed => (processed mod 500 =? 0) || (processed =? total))
                       (if 0 <? total then total else 1)
                       root (db, processed, (log ++ [Call_add_root root])%list) in
                   match App.remove_missing_under_try os root db with
                   | Returned (db, removed) =>
                       (db, processed, (log ++ [Call_remove_missing_under root removed])%list,
                        false)
                   | Raised _ =>
                       (db, processed, (log ++ [Raise_remove_missing_under root])%list, true)
                   end).
  assert (H : forall rs st, R (db_of (fst st)) (db_of (fst (fold_left body rs st)))).
  { induction rs as [|r rs IH]; intros st; cbn [fold_left]; [apply Hrefl|].
    eapply Htrans; [|apply IH]. clear IH.
    destruct st as [[[d n] log] raised]. unfold body. destruct raised; [apply Hrefl|].
    cbv zeta.
    pose proof (Hscan (fun processed => (processed mod 500 =? 0) || (processed =? total))
                      (if 0 <? total then total else 1) r
                      (App.add_root os r d, n, (log ++ [Call_add_root r])%list)) as Hs.
    destruct (App.scan_tree os _ _ r _) as [[db1 n1] log1].
    unfold db_of in Hs. simpl in Hs.
    assert (H1 : R d db1) by (eapply Htrans; [apply Hadd | exact Hs]).
    destruct (remove_missing_under_try_cases os r db1) as [E|E]; rewrite E.
    - exact H1.
    - pose proof (Hprune r db1) as Hp.
      destruct (App.remove_missing_under os r db1) as [db2 removed].
      unfold db_of. simpl in *. eapply Htrans; [exact H1 | exact Hp]. }
  specialize (H uniq (db, 0, [], false)).
  destruct (fold_left body uniq (db, 0, [], false)) as [[[db1 n1] log1] raised1].
  exact H.
Qed.






(** A run in which the first upsert raises: the two files after it are still
    upserted, [processed] reaches 3 and [scan_finished] comes once, last. *)
Example scan_survives_failed_upsert :
  App.index_worker Demo8.flaky_host "/data/a" 3 1 Sqlite.empty_db
  = (mk_db [ mk_file 1 "/data/a/n.txt" 11 (101#1) None;
             mk_file 2 "/data/a/sub/y.txt" 20 (200#1) None ]
           [] [] [ mk_root "/data/a" 1700000000 ] [],
     3,
     [ Call_add_root "/data/a";
       Call_upsert_file "/data/a/x.txt" true; ProgressTick 1 3;
       Call_upsert_file "/data/a/n.txt" false; ProgressTick 2 3;
       Call_upsert_file "/data/a/sub/y.txt" false; ProgressTick 3 3;
       Call_remove_missing_under "/data/a" 0;
       ScanFinished ]).
Proof. reflexivity. Qed.

(** ** What a rescan keeps *)

Import Keep.

Lemma next_rowid_fresh (ids : list Z) (x : Z) : In x ids -> x < next_rowid ids.
Proof.
  unfold next_rowid. induction ids as [|y ids IH]; simpl; [intros []|].
  intros [<-|Hx]; [lia|]. specialize (IH Hx). lia.
Qed.

Lemma NoDup_ids_inj (l : list file_row) (a b : file_row) :
  NoDup (map f_id l) -> In a l -> In b l -> f_id a = f_id b -> a = b.
Proof.
  induction l as [|x l IH]; simpl; [intros _ []|].
  intros Hnd Ha Hb E. inversion Hnd as [|? ? Hnotin Hnd']; subst.
  destruct Ha as [->|Ha], Hb as [->|Hb].
  - reflexivity.
  - exfalso. apply Hnotin. rewrite E. apply in_map. exact Hb.
  - exfalso. apply Hnotin. rewrite <- E. apply in_map. exact Ha.
  - apply IH; assumption.
Qed.

Lemma NoDup_ids_filter (p : file_row -> bool) (l : list file_row) :
  NoDup (map f_id l) -> NoDup (map f_id (filter p l)).
Proof.
  induction l as [|x l IH]; simpl; [auto|].
  intros Hnd. inversion Hnd as [|? ? Hnotin Hnd']; subst.
  destruct (p x); simpl; [|auto].
  constructor; [|auto].
  intros Hin. apply Hnotin. apply in_map_iff in Hin as [y [Ey Hy]].
  apply filter_In in Hy as [Hy _]. rewrite <- Ey. apply in_map. exact Hy.
Qed.

Lemma keeps_refl os db : keeps os db db.
Proof.
  intros Hnd. split; [exact Hnd|]. split.
  - intros f Hf _. exists f. auto.
  - intros. reflexivity.
Qed.

Lemma keeps_trans os db1 db2 db3 : keeps os db1 db2 -> keeps os db2 db3 -> keeps os db1 db3.
Proof.
  intros H12 H23 Hnd.
  destruct (H12 Hnd) as [Hnd2 [Hrow2 Htag2]].
  destruct (H23 Hnd2) as [Hnd3 [Hrow3 Htag3]].
  split; [exact Hnd3|]. split.
  - intros f Hf Hd. destruct (Hrow2 f Hf Hd) as [f2 [Hf2 [Hid2 Hp2]]].
    assert (Hd2 : on_disk os f2) by (unfold on_disk in *; rewrite Hp2; exact Hd).
    destruct (Hrow3 f2 Hf2 Hd2) as [f3 [Hf3 [Hid3 Hp3]]].
    exists f3. split; [exact Hf3|]. split; congruence.
  - intros f tid Hf Hd. destruct (Hrow2 f Hf Hd) as [f2 [Hf2 [Hid2 Hp2]]].
    assert (Hd2 : on_disk os f2) by (unfold on_disk in *; rewrite Hp2; exact Hd).
    rewrite <- (Htag2 f tid Hf Hd), <- Hid2. apply Htag3; assumption.
Qed.

(** The upsert statement keeps every id and path and touches no association. *)
Lemma keeps_upsert_files_row os p s m db : keeps os db (upsert_files_row p s m db).
Proof.
  intros Hnd.
  destruct (upsert_files_row_frame p s m db) as [_ [Hft _]].
  rewrite upsert_files_row_files.
  split; [|split].
  - destruct (existsb _ (files db)).
    + rewrite map_map. erewrite map_ext; [exact Hnd|]. intros f. apply touch_id.
    + rewrite map_app. simpl. apply NoDup_app; [exact Hnd | repeat constructor; intros [] |].
      intros x Hx [<-|[]]. apply next_rowid_fresh in Hx. lia.
  - intros f Hf _. destruct (existsb _ (files db)).
    + exists (touch p s m f). split; [apply in_map; exact Hf|].
      rewrite touch_id, touch_path. auto.
    + exists f. split; [apply in_or_app; auto | auto].
  - intros f tid _ _. unfold has_tag. rewrite Hft. reflexivity.
Qed.

Lemma keeps_scan_file os tick shown dp fn st :
  keeps os (db_of st) (db_of (App.scan_file os tick shown dp fn st)).
Proof.
  destruct st as [[db n] log]. unfold App.scan_file, App.upsert_file.
  destruct (is_file os _); simpl negb; cbv iota.
  - destruct (stat os _) as [[sz mt]|]; unfold db_of; simpl.
    + apply keeps_upsert_files_row.
    + apply keeps_refl.
  - unfold db_of; simpl. apply keeps_refl.
Qed.

Lemma keeps_scan_tree os tick shown root st :
  keeps os (db_of st) (db_of (App.scan_tree os tick shown root st)).
Proof.
  unfold App.scan_tree. revert st.
  induction (os_walk os root) as [|[dp files] l IH]; intros st; cbn [fold_left].
  - apply keeps_refl.
  - eapply keeps_trans; [|apply IH].
    clear IH. revert st. induction files as [|fn files IH]; intros st; cbn [fold_left].
    + apply keeps_refl.
    + eapply keeps_trans; [apply keeps_scan_file | apply IH].
Qed.

Lemma keeps_add_root os root db : keeps os db (App.add_root os root db).
Proof.
  intros Hnd. split; [exact Hnd|]. split.
  - intros f Hf _. exists f. auto.
  - intros. reflexivity.
Qed.

(** Pruning deletes only rows whose file is not on the disk. *)
Lemma keeps_remove_missing_under os root db :
  keeps os db (fst (App.remove_missing_under os root db)).
Proof.
  intros Hnd. unfold App.remove_missing_under.
  set (rows := files_like (App.normalize_path os root ++ "%") db).
  assert (Hrows : incl rows (files db)).
  { intros x Hx. apply filter_In in Hx. tauto. }
  assert (H : forall rs dbk removed,
             incl rs (files db) ->
             incl (files dbk) (files db) ->
             NoDup (map f_id (files dbk)) ->
             let db' := fst (fold_left
                               (fun '(db, removed) row =>
                                  if negb (path_exists os (pathlib_str os (f_path row)))
                                  then (delete_files (fun f => f_id f =? f_id row) db,
                                        removed + 1)
                                  else (db, removed))
                               rs (dbk, removed)) in
             NoDup (map f_id (files db'))
             /\ (forall f, In f (files dbk) -> on_disk os f -> In f (files db'))
             /\ (forall f tid, In f (files dbk) -> on_disk os f ->
                               (has_tag db' (f_id f) tid <-> has_tag dbk (f_id f) tid))).
  { induction rs as [|row rs IH]; intros dbk removed Hrs Hsub Hndk; cbn [fold_left].
    - simpl. split; [exact Hndk|]. split; [auto | intros; reflexivity].
    - assert (Hrow : In row (files db)) by (apply Hrs; left; reflexivity).
      assert (Hrs' : incl rs (files db)) by (intros x Hx; apply Hrs; right; exact Hx).
      destruct (path_exists os (pathlib_str os (f_path row))) eqn:Ex; simpl negb; cbv iota.
      + apply IH; assumption.
      + set (dbk' := delete_files (fun f => f_id f =? f_id row) dbk).
        assert (Hkeep : forall f, In f (files dbk) -> on_disk os f ->
                                  (f_id f =? f_id row) = false).
        { intros f Hf Hd. apply Z.eqb_neq. intros E.
          assert (f = row) by (apply (NoDup_ids_inj (files db)); auto).
          subst f. unfold on_disk in Hd. congruence. }
        assert (Hsub' : incl (files dbk') (files db)).
        { intros x Hx. apply Hsub. unfold dbk' in Hx. simpl in Hx.
          apply filter_In in Hx. tauto. }
        assert (Hndk' : NoDup (map f_id (files dbk'))).
        { unfold dbk'. simpl. apply NoDup_ids_filter. exact Hndk. }
        destruct (IH dbk' (removed + 1) Hrs' Hsub' Hndk') as [Hn [Hr Ht]].
        cbv zeta in *.
        assert (Hin' : forall f, In f (files dbk) -> on_disk os f -> In f (files dbk')).
        { intros f Hf Hd. unfold dbk'. simpl. apply filter_In. split; [exact Hf|].
          rewrite (Hkeep f Hf Hd). reflexivity. }
        split; [exact Hn|]. split.
        * intros f Hf Hd. apply Hr; auto.
        * intros f tid Hf Hd. rewrite (Ht f tid (Hin' f Hf Hd) Hd).
          unfold has_tag, dbk'. rewrite delete_files_file_tags. simpl.
          split; [tauto|]. intros Hin. split; [exact Hin|].
          intros g Hg Eg.
          assert (g = f) by (apply (NoDup_ids_inj (files dbk)); auto).
          subst g. apply Hkeep; assumption. }
  destruct (H rows db 0 Hrows (incl_refl _) Hnd) as [Hn [Hr Ht]]. cbv zeta in *.
  split; [exact Hn|]. split.
  - intros f Hf Hd. exists f. auto.
  - exact Ht.
Qed.

Lemma keeps_index_worker os root fs_total step db :
  keeps os db (db_of (App.index_worker os root fs_total step db)).
Proof.
  apply (index_worker_carries os (keeps os)).
  - apply keeps_refl.
  - apply keeps_trans.
  - apply keeps_add_root.
  - apply keeps_upsert_files_row.
  - apply keeps_remove_missing_under.
Qed.

Lemma keeps_rescan_worker os uniq total db :
  keeps os db (db_of (App.rescan_worker os uniq total db)).
Proof.
  apply (rescan_worker_carries os (keeps os)).
  - apply keeps_refl.
  - apply keeps_trans.
  - apply keeps_add_root.
  - apply keeps_upsert_files_row.
  - apply keeps_remove_missing_under.
Qed.

(** The [DO UPDATE] on a row with the path writes the two values and keeps
    the rest; a row with another path is left as it is. *)
Lemma touch_hit p s m f :
  f_path f = p -> touch p s m f = mk_file (f_id f) p s m (f_hash f).
Proof. intros E. unfold touch. rewrite E, String.eqb_refl. reflexivity. Qed.

Lemma touch_miss p s m f : f_path f <> p -> touch p s m f = f.
Proof. intros E. unfold touch. apply String.eqb_neq in E. rewrite E. reflexivity. Qed.

(** C10. [upsert_file] on a catalogued path rewrites size and mtime of the
    row in place: the row of the path keeps its id and hash and now holds
    the size and mtime of the file, every row of the path holds them, the
    rows of other paths are as before, there are as many rows as before,
    and the ids and paths of the table and all associations are unchanged.
    Hence, over a rescan of a root (the worker of [index_selected_root],
    the entry point itself, the worker of [rescan_all_roots]), a row whose
    file is on the disk keeps its id and path and the file keeps exactly
    its tags.  Both files run the same workers. *)
Theorem C10_rescan_keeps_tags_of_present_files (os : OS) (db : DB) :
  (forall path size mtime,
      is_file os (pathlib_str os path) = true ->
      stat os (pathlib_str os path) = Some (size, mtime) ->
      existsb (fun f => (f_path f =? App.normalize_path os (pathlib_str os path))%string)
              (files db) = true ->
      exists db',
        App.upsert_file os path db = Returned db'
        /\ Tagfile.upsert_file os path db = Returned db'
        /\ files db'
           = map (touch (App.normalize_path os (pathlib_str os path)) size mtime) (files db)
        /\ map f_id (files db') = map f_id (files db)
        /\ map f_path (files db') = map f_path (files db)
        /\ map f_hash (files db') = map f_hash (files db)
        /\ file_tags db' = file_tags db
        /\ tags db' = tags db
        /\ (forall f, In f (files db) ->
                      f_path f = App.normalize_path os (pathlib_str os path) ->
                      In (mk_file (f_id f) (f_path f) size mtime (f_hash f)) (files db'))
        /\ (forall f', In f' (files db') ->
                       f_path f' = App.normalize_path os (pathlib_str os path) ->
                       f_size f' = size /\ f_mtime f' = mtime
                       /\ exists f, In f (files db) /\ f_id f = f_id f'
                                    /\ f_path f = f_path f' /\ f_hash f = f_hash f')
        /\ (forall f, In f (files db) ->
                      f_path f <> App.normalize_path os (pathlib_str os path) ->
                      In f (files db'))
        /\ List.length (files db') = List.length (files db))
  /\ (NoDup (map f_id (files db)) ->
      forall f, In f (files db) -> on_disk os f ->
      (forall root fs_total step,
          let db' := db_of (App.index_worker os root fs_total step db) in
          (exists f', In f' (files db') /\ f_id f' = f_id f /\ f_path f' = f_path f)
          /\ (forall tid, has_tag db' (f_id f) tid <-> has_tag db (f_id f) tid)
          /\ Tagfile.index_worker os root fs_total step db
             = App.index_worker os root fs_total step db)
      /\ (forall ui,
             let db' := snd (fst (App.index_selected_root os ui db)) in
             (exists f', In f' (files db') /\ f_id f' = f_id f /\ f_path f' = f_path f)
             /\ (forall tid, has_tag db' (f_id f) tid <-> has_tag db (f_id f) tid))
      /\ (forall uniq total,
             let db' := db_of (App.rescan_worker os uniq total db) in
             (exists f', In f' (files db') /\ f_id f' = f_id f /\ f_path f' = f_path f)
             /\ (forall tid, has_tag db' (f_id f) tid <-> has_tag db (f_id f) tid)
             /\ Tagfile.rescan_worker os uniq total db
                = App.rescan_worker os uniq total db)).
Proof.
  split.
  - intros path size mtime Hfile Hstat Hex.
    set (full := App.normalize_path os (pathlib_str os path)) in *.
    exists (upsert_files_row full size mtime db).
    unfold App.upsert_file, Tagfile.upsert_file. rewrite Hfile, Hstat. simpl negb. cbv iota.
    split; [reflexivity|]. split; [reflexivity|].
    destruct (upsert_files_row_frame full size mtime db) as [Ht [Hft _]].
    rewrite upsert_files_row_files, Hex, !map_map.
    split; [reflexivity|].
    split; [apply map_ext; intros f; apply touch_id|].
    split; [apply map_ext; intros f; apply touch_path|].
    split; [apply map_ext; intros f; unfold touch;
            destruct (f_path f =? _)%string; reflexivity|].
    split; [exact Hft|]. split; [exact Ht|].
    split; [|split; [|split]].
    + intros f Hf Ef. apply in_map_iff. exists f. split; [|exact Hf].
      rewrite (touch_hit full size mtime f Ef), Ef. reflexivity.
    + intros f' Hf' Ef'. apply in_map_iff in Hf' as [f [<- Hf]].
      rewrite touch_path in Ef'. rewrite (touch_hit full size mtime f Ef'). simpl.
      split; [reflexivity|]. split; [reflexivity|].
      exists f. auto.
    + intros f Hf Ef. apply in_map_iff. exists f. split; [|exact Hf].
      apply touch_miss. exact Ef.
    + apply length_map.
  - intros Hnd f Hf Hd. split; [|split].
    + intros root fs_total step db'.
      destruct (keeps_index_worker os root fs_total step db Hnd) as [_ [Hrow Htag]].
      split; [apply Hrow; assumption|]. split; [|reflexivity].
      intros tid. apply Htag; assumption.
    + intros ui db'.
      assert (Hk : keeps os db db').
      { unfold db', App.index_selected_root.
        destruct (if App.falsy (root_dir ui) then _ else _) as [root|];
          [|apply keeps_refl].
        destruct (truthy root); [|apply keeps_refl]. simpl negb. cbv iota.
        destruct (scan_running ui); [apply keeps_refl|].
        destruct (App.walk_count_and_max_mtime os _) as [fs_total fs_max_m].
        destruct (App.db_count_and_max_mtime_under os _ db) as [db_total db_max_m].
        destruct ((fs_total =? db_total) && Qle_bool fs_max_m db_max_m);
          [apply keeps_refl|].
        pose proof (keeps_index_worker os (App.normalize_path os root) fs_total
                                       (Z.max 1 (fs_total / 100)) db) as Hw.
        destruct (App.index_worker os _ fs_total _ db) as [[db1 n] log1].
        exact Hw. }
      destruct (Hk Hnd) as [_ [Hrow Htag]].
      split; [apply Hrow; assumption|]. intros tid. apply Htag; assumption.
    + intros uniq total db'.
      destruct (keeps_rescan_worker os uniq total db Hnd) as [_ [Hrow Htag]].
      split; [apply Hrow; assumption|]. split; [|reflexivity].
      intros tid. apply Htag; assumption.
Qed.

Lemma C10_rescan_witness :
  (exists db',
      App.upsert_file Demo10.host "/data/a/x.txt" Demo10.stale_db = Returned db'
      /\ In (mk_file 1 "/data/a/x.txt" 10 (100#1) None) (files db')
      /\ (forall f', In f' (files db') -> f_path f' = "/data/a/x.txt" ->
                     f_size f' = 10 /\ f_mtime f' = 100#1)
      /\ In (mk_file 2 "/data/a/gone.txt" 7 (70#1) None) (files db')
      /\ file_tags db' = file_tags Demo10.stale_db)
  /\ (let f := mk_file 1 "/data/a/x.txt" 5 (50#1) None in
      let db' := db_of (App.index_worker Demo10.host "/data/a" 3 1 Demo10.stale_db) in
      (exists f', In f' (files db') /\ f_id f' = f_id f /\ f_path f' = f_path f)
      /\ (forall tid, has_tag db' (f_id f) tid <-> has_tag Demo10.stale_db (f_id f) tid)
      /\ Tagfile.index_worker Demo10.host "/data/a" 3 1 Demo10.stale_db
         = App.index_worker Demo10.host "/data/a" 3 1 Demo10.stale_db).
Proof.
  split.
  - destruct (proj1 (C10_rescan_keeps_tags_of_present_files Demo10.host Demo10.stale_db)
                "/data/a/x.txt" 10 (100#1) eq_refl eq_refl eq_refl)
      as [db' [Hrun [_ [_ [_ [_ [_ [Hft [_ [Hrow [Hall [Hother _]]]]]]]]]]]].
    exists db'. split; [exact Hrun|].
    split; [exact (Hrow (mk_file 1 "/data/a/x.txt" 5 (50#1) None)
                        (or_introl eq_refl) eq_refl)|].
    split; [intros f' Hf' Ef'; destruct (Hall f' Hf' Ef') as [Hs [Hm _]]; auto|].
    split; [|exact Hft].
    apply (Hother (mk_file 2 "/data/a/gone.txt" 7 (70#1) None)).
    + right. left. reflexivity.
    + discriminate.
  - intros f.
    apply (proj1 (proj2 (C10_rescan_keeps_tags_of_present_files Demo10.host Demo10.stale_db)
                    ltac:(repeat constructor; simpl; intuition discriminate)
                    f ltac:(simpl; auto) ltac:(reflexivity))).
Defined.

(** The rescan of /data/a on that disk: the row of x.txt keeps id 1 and its
    tag and takes the new size and mtime, the two new files get new ids, the
    row of the deleted file goes with its association. *)
Example rescan_stale_catalog :
  db_of (App.index_worker Demo10.host "/data/a" 3 1 Demo10.stale_db)
  = mk_db [ mk_file 1 "/data/a/x.txt" 10 (100#1) None;
            mk_file 3 "/data/a/n.txt" 11 (101#1) None;
            mk_file 4 "/data/a/sub/y.txt" 20 (200#1) None ]
          [ mk_tag 1 "todo" (Some 1) ]
          [ mk_ft 1 1 ]
          [ mk_root "/data/a" 1700000000 ]
          [].
Proof. reflexivity. Qed.

(** * Further properties of the store and of the scan *)

Import AppRest Inv.

(** ** The escaped prefix of [count_files_under] *)

Lemma bool_eq_iff (a b : bool) : (a = true <-> b = true) -> a = b.
Proof. destruct a, b; intuition congruence. Qed.

Lemma filter_length_le {A} (p q : A -> bool) (l : list A) :
  (forall x, In x l -> p x = true -> q x = true) ->
  (List.length (filter p l) <= List.length (filter q l))%nat.
Proof.
  induction l as [|x l IH]; simpl; intros H; [lia|].
  assert (IH' : (List.length (filter p l) <= List.length (filter q l))%nat)
    by (apply IH; intros; apply H; auto).
  destruct (p x) eqn:Ep.
  - rewrite (H x (or_introl eq_refl) Ep). simpl. lia.
  - destruct (q x); simpl; lia.
Qed.

(** The pattern [count_files_under] builds from the root. *)
Lemma escaped_cons c r :
  replace_char "_" "\_" (replace_char "%" "\%" (replace_char "\" "\\" (String c r)))
  = ((if (c =? "\")%char then "\\"
      else if (c =? "%")%char then "\%"
      else if (c =? "_")%char then "\_"
      else String c "")
     ++ replace_char "_" "\_" (replace_char "%" "\%" (replace_char "\" "\\" r)))%string.
Proof.
  cbn [replace_char].
  destruct (c =? "\")%char eqn:Eb.
  - reflexivity.
  - cbn [replace_char]. destruct (c =? "%")%char eqn:Ep.
    + reflexivity.
    + cbn [replace_char]. destruct (c =? "_")%char eqn:Eu; reflexivity.
Qed.

(** With its [ESCAPE] the pattern is the prefix test without ASCII case,
    whatever characters the root holds. *)
Lemma like_escaped_prefix r p :
  like (Some "\"%char)
       (replace_char "_" "\_" (replace_char "%" "\%" (replace_char "\" "\\" r)) ++ "%") p
  = prefix_nocase r p.
Proof.
  revert p. induction r as [|c r IH]; intros p.
  - apply like_percent_all.
  - rewrite escaped_cons.
    destruct (c =? "\")%char eqn:Eb.
    + apply Ascii.eqb_eq in Eb. subst c. destruct p as [|d p]; [reflexivity|].
      simpl. rewrite <- (IH p). reflexivity.
    + destruct (c =? "%")%char eqn:Ep.
      * apply Ascii.eqb_eq in Ep. subst c. destruct p as [|d p]; [reflexivity|].
        simpl. rewrite <- (IH p). reflexivity.
      * destruct (c =? "_")%char eqn:Eu.
        -- apply Ascii.eqb_eq in Eu. subst c. destruct p as [|d p]; [reflexivity|].
           simpl. rewrite <- (IH p). reflexivity.
        -- simpl. rewrite Ep, Eb, Eu. destruct p as [|d p]; [reflexivity|].
           rewrite <- (IH p). reflexivity.
Qed.

(** A prefix without ASCII case is matched by the unescaped pattern too. *)
Lemma prefix_nocase_like r p : prefix_nocase r p = true -> like None (r ++ "%") p = true.
Proof.
  revert p. induction r as [|c r IH]; intros p H.
  - apply like_percent_all.
  - destruct p as [|d p]; [discriminate|].
    simpl in H. apply andb_true_iff in H as [Hc Hr].
    simpl append. destruct (c =? "%")%char eqn:Ep.
    + apply Ascii.eqb_eq in Ep. subst c.
      rewrite like_percent.
      assert (Hs : like None (String "%" (r ++ "%")) p = true).
      { rewrite like_percent, (IH p Hr). reflexivity. }
      rewrite Hs. apply orb_true_r.
    + simpl. rewrite Ep. simpl. destruct (c =? "_")%char.
      * apply IH. exact Hr.
      * rewrite Hc. apply IH. exact Hr.
Qed.

(** X1. [count_files_under] counts exactly the rows whose path starts with
    the normalized root up to ASCII letter case, for every root, also one
    that holds [%], [_] or a backslash; it never counts more rows than the
    unescaped fingerprint query of [db_count_and_max_mtime_under]. *)
Theorem X1_count_files_under_is_literal_prefix_count (os : OS) (root : string) (db : DB) :
  App.count_files_under os root db
  = Z.of_nat (List.length
                (filter (fun f => prefix_nocase (App.normalize_path os root) (f_path f))
                        (files db)))
  /\ App.count_files_under os root db <= fst (App.db_count_and_max_mtime_under os root db).
Proof.
  unfold App.count_files_under, App.db_count_and_max_mtime_under, files_like. simpl fst.
  split.
  - f_equal. f_equal. apply filter_ext. intros f. apply like_escaped_prefix.
  - apply inj_le. apply filter_length_le. intros f _ H.
    rewrite like_escaped_prefix in H. apply prefix_nocase_like. exact H.
Qed.

(** ** Pruning *)

Lemma filter_filter {A} (p q : A -> bool) (l : list A) :
  filter p (filter q l) = filter (fun x => q x && p x) l.
Proof.
  induction l as [|x l IH]; simpl; [reflexivity|].
  destruct (q x); simpl; [destruct (p x)|]; rewrite IH; reflexivity.
Qed.

Lemma filter_all {A} (p : A -> bool) (l : list A) :
  (forall x, In x l -> p x = true) -> filter p l = l.
Proof.
  induction l as [|x l IH]; simpl; intros H; [reflexivity|].
  rewrite (H x (or_introl eq_refl)). f_equal. apply IH. auto.
Qed.

Lemma delete_files_ext p q db :
  (forall f, In f (files db) -> p f = q f) -> delete_files p db = delete_files q db.
Proof.
  intros H. unfold delete_files.
  assert (Hf : filter p (files db) = filter q (files db)) by (apply filter_ext_in; exact H).
  rewrite Hf. f_equal.
  apply filter_ext_in. intros f Hin. rewrite (H f Hin). reflexivity.
Qed.

Lemma delete_files_none p db :
  (forall f, In f (files db) -> p f = false) -> delete_files p db = db.
Proof.
  intros H. unfold delete_files.
  assert (Hf : filter p (files db) = []).
  { apply filter_none. destruct (existsb p (files db)) eqn:E; [|reflexivity].
    apply existsb_exists in E as [f [Hf Hp]]. rewrite (H f Hf) in Hp. discriminate. }
  rewrite Hf. simpl. destruct db as [fs ts fts rs ss]. simpl in *. f_equal.
  - apply filter_all. intros f Hin. rewrite (H f Hin). reflexivity.
  - apply filter_all. reflexivity.
Qed.

(** Two deletions in a row are one deletion. *)
Lemma delete_files_twice p q db :
  delete_files q (delete_files p db) = delete_files (fun f => p f || q f) db.
Proof.
  unfold delete_files. simpl. f_equal.
  - rewrite filter_filter. apply filter_ext. intros f.
    destruct (p f), (q f); reflexivity.
  - rewrite filter_filter. apply filter_ext. intros ft.
    rewrite <- negb_orb. f_equal. apply bool_eq_iff.
    rewrite orb_true_iff, !existsb_eqb_In, !in_map_iff. split.
    + intros [[f [E Hf]] | [f [E Hf]]].
      * exists f. split; [exact E|]. apply filter_In in Hf as [Hf Hp].
        apply filter_In. rewrite Hp. auto.
      * exists f. split; [exact E|]. apply filter_In in Hf as [Hf Hq].
        apply filter_In in Hf as [Hf _]. apply filter_In. rewrite Hq, orb_true_r. auto.
    + intros [f [E Hf]]. apply filter_In in Hf as [Hf Hpq].
      destruct (p f) eqn:Ep.
      * left. exists f. split; [exact E|]. apply filter_In. auto.
      * right. exists f. split; [exact E|]. simpl in Hpq.
        apply filter_In. split; [|exact Hpq]. apply filter_In. rewrite Ep. auto.
Qed.

(** The loop of [remove_missing_under] over any rows is one deletion, of the
    rows that share an id with a fetched row that is missing on the disk. *)
Lemma prune_loop os (rows : list file_row) (db : DB) (n : Z) :
  fold_left
    (fun '(db, removed) row =>
       if negb (path_exists os (pathlib_str os (f_path row)))
       then (delete_files (fun f => f_id f =? f_id row) db, removed + 1)
       else (db, removed))
    rows (db, n)
  = (delete_files
       (fun f => existsb (fun row => negb (path_exists os (pathlib_str os (f_path row)))
                                     && (f_id f =? f_id row)) rows) db,
     n + Z.of_nat (List.length
                     (filter (fun row => negb (path_exists os (pathlib_str os (f_path row))))
                             rows))).
Proof.
  revert db n. induction rows as [|row rows IH]; intros db n; cbn [fold_left].
  - simpl. rewrite delete_files_none by reflexivity. f_equal. lia.
  - destruct (path_exists os (pathlib_str os (f_path row))) eqn:Ex; simpl negb; cbv iota.
    + rewrite IH. cbn [existsb filter]. rewrite Ex. reflexivity.
    + rewrite IH, delete_files_twice. cbn [existsb filter]. rewrite Ex.
      cbn [negb andb List.length]. f_equal. rewrite Nat2Z.inj_succ. lia.
Qed.

(** With unique row ids, [remove_missing_under] is the deletion of the rows
    that match the root and are missing on the disk, and it returns their
    number. *)
Lemma remove_missing_under_eq os root db :
  NoDup (map f_id (files db)) ->
  App.remove_missing_under os root db
  = (delete_files (stale os (App.normalize_path os root)) db,
     Z.of_nat (List.length (filter (stale os (App.normalize_path os root)) (files db)))).
Proof.
  intros Hnd. unfold App.remove_missing_under. rewrite prune_loop. f_equal.
  - apply delete_files_ext. intros f Hf. apply bool_eq_iff.
    unfold stale, files_like. rewrite existsb_exists, andb_true_iff. split.
    + intros [row [Hrow Hm]]. apply filter_In in Hrow as [Hrow Hlike].
      apply andb_true_iff in Hm as [Hm Hid]. apply Z.eqb_eq in Hid.
      assert (f = row) by (apply (NoDup_ids_inj (files db)); auto).
      subst row. auto.
    + intros [Hlike Hm]. exists f. split.
      * apply filter_In. auto.
      * rewrite Hm, Z.eqb_refl. reflexivity.
  - simpl. unfold files_like. rewrite filter_filter. reflexivity.
Qed.

(** X2. With unique row ids, [remove_missing_under] deletes exactly the rows
    whose path matches [root%] and does not exist on the disk, with their
    associations, and returns how many they are; every other row and
    association, and every other table, is as before.  Both files. *)
Theorem X2_remove_missing_under_prunes_exactly (os : OS) (root : string) (db : DB) :
  NoDup (map f_id (files db)) ->
  let r := App.normalize_path os root in
  let db' := fst (App.remove_missing_under os root db) in
  files db' = filter (fun f => negb (stale os r f)) (files db)
  /\ snd (App.remove_missing_under os root db)
     = Z.of_nat (List.length (filter (stale os r) (files db)))
  /\ (forall ft, In ft (file_tags db')
                 <-> In ft (file_tags db)
                     /\ forall f, In f (files db) -> f_id f = ft_file ft -> stale os r f = false)
  /\ tags db' = tags db /\ roots db' = roots db /\ settings db' = settings db
  /\ Tagfile.remove_missing_under os root db = App.remove_missing_under os root db.
Proof.
  intros Hnd r db'. unfold db'. rewrite (remove_missing_under_eq os root db Hnd). fold r.
  simpl fst. simpl snd.
  split; [reflexivity|]. split; [reflexivity|].
  split; [intros ft; apply delete_files_file_tags|].
  repeat split; try reflexivity.
  exact (remove_missing_under_eq os root db Hnd).
Qed.

Lemma X2_remove_missing_under_witness :
  let r := App.normalize_path Demo10.host "/data/a" in
  let db' := fst (App.remove_missing_under Demo10.host "/data/a" Demo10.stale_db) in
  files db' = filter (fun f => negb (stale Demo10.host r f)) (files Demo10.stale_db)
  /\ snd (App.remove_missing_under Demo10.host "/data/a" Demo10.stale_db)
     = Z.of_nat (List.length (filter (stale Demo10.host r) (files Demo10.stale_db)))
  /\ (forall ft, In ft (file_tags db')
                 <-> In ft (file_tags Demo10.stale_db)
                     /\ forall f, In f (files Demo10.stale_db) -> f_id f = ft_file ft ->
                                  stale Demo10.host r f = false)
  /\ tags db' = tags Demo10.stale_db /\ roots db' = roots Demo10.stale_db
  /\ settings db' = settings Demo10.stale_db
  /\ Tagfile.remove_missing_under Demo10.host "/data/a" Demo10.stale_db
     = App.remove_missing_under Demo10.host "/data/a" Demo10.stale_db.
Proof.
  apply (X2_remove_missing_under_prunes_exactly Demo10.host "/data/a" Demo10.stale_db).
  repeat constructor; simpl; intuition discriminate.
Defined.

(** The run of the specification: the row of a file deleted from the disk
    is the one row removed, and the count is 1. *)
Example prune_one_missing_file :
  App.remove_missing_under Demo10.host "/data/a" Demo10.stale_db
  = (mk_db [ mk_file 1 "/data/a/x.txt" 5 (50#1) None ]
           [ mk_tag 1 "todo" (Some 1) ] [ mk_ft 1 1 ] [ mk_root "/data/a" 0 ] [],
     1).
Proof. reflexivity. Qed.

(** X3. Pruning twice on the same disk: the second [remove_missing_under]
    removes nothing and returns 0. *)
Theorem X3_remove_missing_under_twice (os : OS) (root : string) (db : DB) :
  NoDup (map f_id (files db)) ->
  App.remove_missing_under os root (fst (App.remove_missing_under os root db))
  = (fst (App.remove_missing_under os root db), 0).
Proof.
  intros Hnd. rewrite (remove_missing_under_eq os root db Hnd). simpl fst.
  set (r := App.normalize_path os root).
  assert (Hnd' : NoDup (map f_id (files (delete_files (stale os r) db)))).
  { simpl. apply NoDup_ids_filter. exact Hnd. }
  rewrite (remove_missing_under_eq os root _ Hnd'). fold r.
  assert (Hclean : forall f, In f (files (delete_files (stale os r) db)) ->
                             stale os r f = false).
  { intros f Hf. simpl in Hf. apply filter_In in Hf as [_ Hf].
    apply negb_true_iff in Hf. exact Hf. }
  rewrite (delete_files_none _ _ Hclean). f_equal.
  rewrite filter_none; [reflexivity|].
  destruct (existsb _ _) eqn:E; [|reflexivity].
  apply existsb_exists in E as [f [Hf Hs]]. rewrite (Hclean f Hf) in Hs. discriminate.
Qed.

Lemma X3_remove_missing_under_twice_witness :
  App.remove_missing_under Demo10.host "/data/a"
    (fst (App.remove_missing_under Demo10.host "/data/a" Demo10.stale_db))
  = (fst (App.remove_missing_under Demo10.host "/data/a" Demo10.stale_db), 0).
Proof.
  apply (X3_remove_missing_under_twice Demo10.host "/data/a" Demo10.stale_db).
  repeat constructor; simpl; intuition discriminate.
Defined.

(** ** The two fingerprints *)

(** The nested loops of [walk_count_and_max_mtime] are one loop over the
    files of the walk. *)
Lemma walk_fold_flat os (walk : list (string * list string)) (st : Z * Q) :
  fold_left
    (fun st '(dp, files) =>
       fold_left
         (fun '(total, max_m) fn =>
            let total := total + 1 in
            match getmtime os (os_join os dp fn) with
            | Some mt => if negb (Qle_bool mt max_m) then (total, mt) else (total, max_m)
            | None => (total, max_m)
            end)
         files st)
    walk st
  = fold_left
      (fun '(total, max_m) full =>
         let total := total + 1 in
         match getmtime os full with
         | Some mt => if negb (Qle_bool mt max_m) then (total, mt) else (total, max_m)
         | None => (total, max_m)
         end)
      (flat_map (fun '(dp, files) => map (os_join os dp) files) walk) st.
Proof.
  revert st. induction walk as [|[dp files] walk IH]; intros st; cbn [fold_left flat_map].
  - reflexivity.
  - rewrite fold_left_app, IH. f_equal.
    clear IH. revert st. induction files as [|fn files IHf]; intros st; cbn [fold_left map].
    + reflexivity.
    + rewrite IHf. destruct st as [t m]. reflexivity.
Qed.

Lemma walk_fold_spec os (l : list string) (t : Z) (m : Q) :
  let st := fold_left
              (fun '(total, max_m) full =>
                 let total := total + 1 in
                 match getmtime os full with
                 | Some mt => if negb (Qle_bool mt max_m) then (total, mt) else (total, max_m)
                 | None => (total, max_m)
                 end) l (t, m) in
  fst st = t + Z.of_nat (List.length l)
  /\ (m <= snd st)%Q
  /\ (forall full mt, In full l -> getmtime os full = Some mt -> (mt <= snd st)%Q)
  /\ (snd st = m \/ exists full, In full l /\ getmtime os full = Some (snd st)).
Proof.
  revert t m. induction l as [|x l IH]; intros t m; cbn [fold_left].
  - simpl. split; [lia|]. split; [apply Qle_refl|]. split; [intros ? ? []|]. auto.
  - cbv zeta.
    assert (Hcase :
              exists m', (match getmtime os x with
                          | Some mt => if negb (Qle_bool mt m) then (t + 1, mt) else (t + 1, m)
                          | None => (t + 1, m)
                          end) = (t + 1, m')
                         /\ (m <= m')%Q
                         /\ (forall mt, getmtime os x = Some mt -> (mt <= m')%Q)
                         /\ (m' = m \/ getmtime os x = Some m')).
    { destruct (getmtime os x) as [mt|] eqn:Eg.
      - destruct (Qle_bool mt m) eqn:El; simpl negb; cbv iota.
        + exists m. split; [reflexivity|]. split; [apply Qle_refl|]. split; [|auto].
          intros mt' E. injection E as <-. apply Qle_bool_iff. exact El.
        + exists mt. split; [reflexivity|].
          assert (Hlt : (m < mt)%Q).
          { apply Qnot_le_lt. intros Hle. apply Qle_bool_iff in Hle. congruence. }
          split; [apply Qlt_le_weak; exact Hlt|]. split; [|auto].
          intros mt' E. injection E as <-. apply Qle_refl.
      - exists m. split; [reflexivity|]. split; [apply Qle_refl|].
        split; [intros ? E; discriminate | auto]. }
    destruct Hcase as [m' [Heq [Hle [Hx Hor]]]]. rewrite Heq.
    destruct (IH (t + 1) m') as [Hc [Hm [Hall Hatt]]]. cbv zeta in *.
    split; [rewrite Hc; cbn [List.length]; lia|].
    split; [eapply Qle_trans; eassumption|]. split.
    + intros full mt [<-|Hin] Hg.
      * eapply Qle_trans; [apply Hx; exact Hg | exact Hm].
      * eapply Hall; eassumption.
    + destruct Hatt as [E | [full [Hin Hg]]].
      * rewrite E. destruct Hor as [->|Hg]; [auto|].
        right. exists x. split; [left; reflexivity | exact Hg].
      * right. exists full. split; [right; exact Hin | exact Hg].
Qed.

(** X4. The disk fingerprint.  The count of [walk_count_and_max_mtime] is the
    number of files the walk meets (those whose [getmtime] raises included),
    and it is the count of [count_files_on_disk]; the maximum is at least 0
    and at least the mtime of every file that could be read, and it is 0 or
    the mtime of one of them.  [count_and_stats(root, is_disk=True)] returns
    the same pair for a non-empty root. *)
Theorem X4_disk_fingerprint (os : OS) (root : string) :
  let files := walked_files os (App.normalize_path os root) in
  let st := App.walk_count_and_max_mtime os root in
  fst st = Z.of_nat (List.length files)
  /\ App.count_files_on_disk os root = fst st
  /\ (0 <= snd st)%Q
  /\ (forall full mt, In full files -> getmtime os full = Some mt -> (mt <= snd st)%Q)
  /\ (snd st = 0%Q \/ exists full, In full files /\ getmtime os full = Some (snd st))
  /\ (truthy root = true -> Tagfile.count_and_stats_disk os (Some root) = st).
Proof.
  intros files st.
  assert (Hst : st = fold_left
                       (fun '(total, max_m) full =>
                          let total := total + 1 in
                          match getmtime os full with
                          | Some mt =>
                              if negb (Qle_bool mt max_m) then (total, mt) else (total, max_m)
                          | None => (total, max_m)
                          end) files (0, 0%Q)).
  { unfold st, App.walk_count_and_max_mtime. apply walk_fold_flat. }
  destruct (walk_fold_spec os files 0 0%Q) as [Hc [Hm [Hall Hatt]]].
  cbv zeta in *. rewrite <- Hst in *.
  split; [rewrite Hc; lia|]. split; [|split; [exact Hm|split; [exact Hall|split; [exact Hatt|]]]].
  - rewrite Hc. unfold App.count_files_on_disk, files, walked_files.
    assert (H : forall (l : list (string * list string)) c,
               fold_left (fun c '(_, fs) => c + Z.of_nat (List.length fs)) l c
               = c + Z.of_nat (List.length
                                 (flat_map (fun '(dp, fs) => map (os_join os dp) fs) l))).
    { induction l as [|[dp fs] l IH]; intros c.
      - simpl. lia.
      - cbn [fold_left flat_map]. rewrite IH, length_app, length_map. lia. }
    apply H.
  - intros H. apply fingerprint_disk_same. exact H.
Qed.

Lemma X4_disk_fingerprint_witness :
  Tagfile.count_and_stats_disk Demo8.flaky_host (Some "/data/a")
  = App.walk_count_and_max_mtime Demo8.flaky_host "/data/a".
Proof.
  apply (proj2 (proj2 (proj2 (proj2 (proj2
           (X4_disk_fingerprint Demo8.flaky_host "/data/a")))))).
  reflexivity.
Defined.

Lemma max_mtime_spec (rows : list file_row) :
  (forall f, In f rows -> (f_mtime f <= max_mtime rows)%Q)
  /\ (rows = [] -> max_mtime rows = 0%Q)
  /\ (rows <> [] -> exists f, In f rows /\ f_mtime f = max_mtime rows).
Proof.
  destruct rows as [|f0 rest].
  - simpl. split; [intros ? []|]. split; [reflexivity | congruence].
  - unfold max_mtime.
    assert (H : forall l m,
               let r := fold_left (fun m g => if Qle_bool (f_mtime g) m then m else f_mtime g)
                                  l m in
               (m <= r)%Q
               /\ (forall g, In g l -> (f_mtime g <= r)%Q)
               /\ (r = m \/ exists g, In g l /\ f_mtime g = r)).
    { induction l as [|g l IH]; intros m; cbn [fold_left].
      - simpl. split; [apply Qle_refl|]. split; [intros ? []|auto].
      - cbv zeta.
        destruct (Qle_bool (f_mtime g) m) eqn:El.
        + destruct (IH m) as [Hm [Hall Hatt]]. cbv zeta in *.
          split; [exact Hm|]. split.
          * intros h [<-|Hh]; [|auto].
            apply Qle_bool_iff in El. eapply Qle_trans; eassumption.
          * destruct Hatt as [E|[h [Hh E]]];
              [auto | right; exists h; split; [right; exact Hh | exact E]].
        + destruct (IH (f_mtime g)) as [Hm [Hall Hatt]]. cbv zeta in *.
          assert (Hlt : (m < f_mtime g)%Q).
          { apply Qnot_le_lt. intros Hle. apply Qle_bool_iff in Hle. congruence. }
          split; [eapply Qle_trans; [apply Qlt_le_weak; exact Hlt | exact Hm]|]. split.
          * intros h [<-|Hh]; [exact Hm | auto].
          * right. destruct Hatt as [E|[h [Hh E]]].
            -- exists g. split; [left; reflexivity | symmetry; exact E].
            -- exists h. split; [right; exact Hh | exact E]. }
    destruct (H rest (f_mtime f0)) as [Hm [Hall Hatt]]. cbv zeta in *.
    split; [|split].
    + intros f [<-|Hf]; [exact Hm | auto].
    + discriminate.
    + intros _. destruct Hatt as [E|[h [Hh E]]].
      * exists f0. split; [left; reflexivity | symmetry; exact E].
      * exists h. split; [right; exact Hh | exact E].
Qed.

(** X5. The catalog fingerprint.  [db_count_and_max_mtime_under] returns the
    number of rows whose path matches [root%] and a value that is at least
    the mtime of each of them; the value is the mtime of one of them, or 0
    when there is none.  Without a root, [count_and_stats] of [tagfile-c.py]
    counts all rows, as [count_all_files] does. *)
Theorem X5_catalog_fingerprint (os : OS) (root : string) (db : DB) :
  let rows := files_like (App.normalize_path os root ++ "%") db in
  let st := App.db_count_and_max_mtime_under os root db in
  fst st = Z.of_nat (List.length rows)
  /\ (forall f, In f rows -> (f_mtime f <= snd st)%Q)
  /\ (rows = [] -> st = (0, 0%Q))
  /\ (rows <> [] -> exists f, In f rows /\ f_mtime f = snd st)
  /\ fst (Tagfile.count_and_stats_db os None db) = count_all_files db
  /\ (forall f, In f (files db) -> (f_mtime f <= snd (Tagfile.count_and_stats_db os None db))%Q).
Proof.
  intros rows st.
  destruct (max_mtime_spec rows) as [Hall [Hnil Hatt]].
  destruct (max_mtime_spec (files db)) as [Hall' _].
  unfold st, App.db_count_and_max_mtime_under. fold rows. simpl.
  repeat split; auto.
  intros E. rewrite (Hnil E), E. reflexivity.
Qed.

Lemma X5_catalog_fingerprint_witness :
  exists f,
    In f (files_like (App.normalize_path Demo.empty_host "/data/a" ++ "%") Demo.siblings_db)
    /\ f_mtime f = snd (App.db_count_and_max_mtime_under Demo.empty_host "/data/a"
                                                          Demo.siblings_db).
Proof.
  apply (proj1 (proj2 (proj2 (proj2
           (X5_catalog_fingerprint Demo.empty_host "/data/a" Demo.siblings_db))))).
  discriminate.
Defined.

(** ** Settings *)

Lemma find_key_absent (l : list (string * string)) (k : string) :
  existsb (fun kv => (fst kv =? k)%string) l = false ->
  find (fun kv => (fst kv =? k)%string) l = None.
Proof.
  induction l as [|x l IH]; simpl; [reflexivity|].
  destruct (fst x =? k)%string; simpl; [discriminate | exact IH].
Qed.

Lemma find_key_set (l : list (string * string)) (k k' v : string) :
  find (fun kv => (fst kv =? k')%string)
       (map (fun kv => if (fst kv =? k)%string then (fst kv, v) else kv) l)
  = if (k' =? k)%string
    then option_map (fun kv => (fst kv, v)) (find (fun kv => (fst kv =? k)%string) l)
    else find (fun kv => (fst kv =? k')%string) l.
Proof.
  induction l as [|x l IH]; cbn [map find].
  - destruct (k' =? k)%string; reflexivity.
  - destruct (fst x =? k)%string eqn:Ek; cbn [fst].
    + destruct (k' =? k)%string eqn:Ekk.
      * apply String.eqb_eq in Ekk. subst k'. rewrite Ek. reflexivity.
      * assert (E : (fst x =? k')%string = false).
        { apply String.eqb_neq. apply String.eqb_eq in Ek. apply String.eqb_neq in Ekk.
          congruence. }
        rewrite E. exact IH.
    + destruct (k' =? k)%string eqn:Ekk.
      * apply String.eqb_eq in Ekk. subst k'. rewrite Ek. exact IH.
      * destruct (fst x =? k')%string; [reflexivity | exact IH].
Qed.

Lemma find_app_some {A} (p : A -> bool) (l l' : list A) (x : A) :
  find p l = Some x -> find p (l ++ l') = Some x.
Proof.
  induction l as [|y l IH]; simpl; [discriminate|].
  destruct (p y); [auto | exact IH].
Qed.

(** X6. Settings round trip.  After [set_setting k v], [get_setting k]
    returns [v] whatever the default, every other key reads as before, a key
    that was never set reads as the default, the keys stay unique and no
    other table changes. *)
Theorem X6_settings_round_trip (k v : string) (db : DB) :
  (forall d, get_setting k d (set_setting k v db) = Some v)
  /\ (forall k' d, k' <> k -> get_setting k' d (set_setting k v db) = get_setting k' d db)
  /\ (forall k' d, (forall kv, In kv (settings db) -> fst kv <> k') ->
                   get_setting k' d db = d)
  /\ (NoDup (map fst (settings db)) -> NoDup (map fst (settings (set_setting k v db))))
  /\ files (set_setting k v db) = files db
  /\ tags (set_setting k v db) = tags db
  /\ file_tags (set_setting k v db) = file_tags db
  /\ roots (set_setting k v db) = roots db.
Proof.
  split; [|split; [|split; [|split]]].
  - intros d. unfold get_setting, set_setting. simpl.
    destruct (existsb _ (settings db)) eqn:E.
    + rewrite find_key_set, String.eqb_refl.
      destruct (find _ (settings db)) as [kv|] eqn:Ef; [reflexivity|].
      apply existsb_exists in E as [x [Hx Ex]].
      pose proof (find_none _ _ Ef x Hx) as Hx'. simpl in Hx'. congruence.
    + rewrite find_app_none by (apply find_key_absent; exact E).
      simpl. rewrite String.eqb_refl. reflexivity.
  - intros k' d Hne. unfold get_setting, set_setting. simpl.
    assert (Ekk : (k' =? k)%string = false) by (apply String.eqb_neq; exact Hne).
    destruct (existsb _ (settings db)) eqn:E.
    + rewrite find_key_set, Ekk. reflexivity.
    + destruct (find (fun kv => (fst kv =? k')%string) (settings db)) as [kv|] eqn:Ef.
      * rewrite (find_app_some _ _ _ _ Ef). reflexivity.
      * rewrite (find_app_none _ _ _ Ef). simpl.
        rewrite String.eqb_sym, Ekk. reflexivity.
  - intros k' d Habs. unfold get_setting.
    destruct (find _ (settings db)) as [kv|] eqn:Ef; [|reflexivity].
    apply find_some in Ef as [Hin E]. apply String.eqb_eq in E.
    exfalso. exact (Habs kv Hin E).
  - intros Hnd. unfold set_setting. simpl.
    destruct (existsb _ (settings db)) eqn:E.
    + rewrite map_map. erewrite map_ext; [exact Hnd|].
      intros kv. destruct (fst kv =? k)%string; reflexivity.
    + rewrite map_app. simpl. apply NoDup_app; [exact Hnd | repeat constructor; intros [] |].
      intros x Hx [<-|[]]. apply in_map_iff in Hx as [kv [Ek Hkv]].
      assert (Hex : existsb (fun kv => (fst kv =? k)%string) (settings db) = true).
      { apply existsb_exists. exists kv. split; [exact Hkv|]. apply String.eqb_eq. exact Ek. }
      congruence.
  - repeat split; reflexivity.
Qed.

Lemma X6_settings_witness :
  get_setting "last_root" (Some "") (set_setting "last_search" "x" Demo12.legacy_db)
  = get_setting "last_root" (Some "") Demo12.legacy_db
  /\ get_setting "last_root" (Some "") Demo12.legacy_db = Some "".
Proof.
  split.
  - apply (proj1 (proj2 (X6_settings_round_trip "last_search" "x" Demo12.legacy_db))).
    discriminate.
  - apply (proj1 (proj2 (proj2 (X6_settings_round_trip "last_search" "x" Demo12.legacy_db)))).
    intros kv [<-|[]]. discriminate.
Defined.

(** ** [ORDER BY] *)

Lemma insert_by_perm {A} (key : A -> string) (x : A) (l : list A) :
  Permutation (insert_by key x l) (x :: l).
Proof.
  induction l as [|y l IH]; simpl.
  - apply Permutation_refl.
  - destruct (String.leb (key x) (key y)).
    + apply Permutation_refl.
    + eapply Permutation_trans; [apply perm_skip; exact IH | apply perm_swap].
Qed.

Lemma order_by_perm {A} (key : A -> string) (l : list A) : Permutation (order_by key l) l.
Proof.
  induction l as [|x l IH]; simpl.
  - apply Permutation_refl.
  - eapply Permutation_trans; [apply insert_by_perm | apply perm_skip; exact IH].
Qed.

Lemma leb_false_flip (a b : string) : String.leb a b = false -> String.leb b a = true.
Proof. intros H. destruct (String.leb_total a b) as [E|E]; congruence. Qed.

Lemma ascii_compare_refl (x : ascii) : Ascii.compare x x = Eq.
Proof. unfold Ascii.compare. apply N.compare_refl. Qed.

Lemma string_compare_refl (s : string) : String.compare s s = Eq.
Proof.
  induction s as [|x s IH]; simpl; [reflexivity|].
  rewrite ascii_compare_refl. exact IH.
Qed.

Lemma string_compare_lt_trans (a b c : string) :
  String.compare a b = Lt -> String.compare b c = Lt -> String.compare a c = Lt.
Proof.
  revert b c. induction a as [|x a IH]; intros [|y b] [|z c] Eab Ebc;
    simpl in *; try discriminate; try reflexivity.
  destruct (Ascii.compare x y) eqn:Exy; try discriminate;
    destruct (Ascii.compare y z) eqn:Eyz; try discriminate.
  - apply Ascii.compare_eq_iff in Exy, Eyz. subst.
    rewrite ascii_compare_refl. eapply IH; eassumption.
  - apply Ascii.compare_eq_iff in Exy. subst. rewrite Eyz. reflexivity.
  - apply Ascii.compare_eq_iff in Eyz. subst. rewrite Exy. reflexivity.
  - unfold Ascii.compare in *. rewrite N.compare_lt_iff in Exy, Eyz.
    assert (H : (N_of_ascii x < N_of_ascii z)%N) by lia.
    apply N.compare_lt_iff in H. rewrite H. reflexivity.
Qed.

Lemma leb_trans (a b c : string) :
  String.leb a b = true -> String.leb b c = true -> String.leb a c = true.
Proof.
  unfold String.leb. intros Hab Hbc.
  destruct (String.compare a b) eqn:Eab; try discriminate;
    destruct (String.compare b c) eqn:Ebc; try discriminate.
  - apply String.compare_eq_iff in Eab, Ebc. subst. rewrite string_compare_refl. reflexivity.
  - apply String.compare_eq_iff in Eab. subst. rewrite Ebc. reflexivity.
  - apply String.compare_eq_iff in Ebc. subst. rewrite Eab. reflexivity.
  - rewrite (string_compare_lt_trans a b c Eab Ebc). reflexivity.
Qed.

Lemma insert_by_sorted {A} (key : A -> string) (x : A) (l : list A) :
  StronglySorted (fun a b => String.leb (key a) (key b) = true) l ->
  StronglySorted (fun a b => String.leb (key a) (key b) = true) (insert_by key x l).
Proof.
  induction l as [|y l IH]; simpl; intros Hs.
  - repeat constructor.
  - inversion Hs as [|? ? Hs' Hall]; subst.
    destruct (String.leb (key x) (key y)) eqn:E.
    + constructor; [exact Hs|]. constructor; [exact E|].
      rewrite Forall_forall in *. intros z Hz. eapply leb_trans; [exact E | auto].
    + constructor; [apply IH; exact Hs'|].
      rewrite Forall_forall in *. intros z Hz. apply insert_by_In in Hz as [->|Hz].
      * apply leb_false_flip. exact E.
      * auto.
Qed.

(** [order_by] returns its rows in ascending order of the key. *)
Lemma order_by_sorted {A} (key : A -> string) (l : list A) :
  StronglySorted (fun a b => String.leb (key a) (key b) = true) (order_by key l).
Proof.
  induction l as [|x l IH]; simpl.
  - constructor.
  - apply insert_by_sorted. exact IH.
Qed.

(** ** [init_db]: numbering the tags that have no [ord] *)

(** The numbering loop changes rows only; each row goes through the loop on
    its own. *)
Lemma backfill_loop (ids : list Z) (db : DB) (n : Z) :
  let db' := fst (fold_left (fun '(db, nxt) tid => (set_tag_ord nxt tid db, nxt + 1))
                            ids (db, n)) in
  files db' = files db /\ file_tags db' = file_tags db
  /\ roots db' = roots db /\ settings db' = settings db
  /\ tags db'
     = map (fun t =>
              fst (fold_left
                     (fun (acc : tag_row * Z) tid =>
                        (if t_id (fst acc) =? tid
                         then mk_tag (t_id (fst acc)) (t_name (fst acc)) (Some (snd acc))
                         else fst acc,
                         snd acc + 1))
                     ids (t, n)))
           (tags db).
Proof.
  revert db n. induction ids as [|a ids IH]; intros db n; cbn [fold_left].
  - simpl. repeat split; auto. symmetry. apply map_id.
  - destruct (IH (set_tag_ord n a db) (n + 1)) as [Hf [Hft [Hr [Hs Ht]]]].
    cbv zeta in *. rewrite Hf, Hft, Hr, Hs, Ht. simpl.
    repeat split; auto. rewrite map_map. reflexivity.
Qed.

Lemma backfill_row (ids : list Z) (t : tag_row) (n : Z) :
  let r := fst (fold_left
                  (fun (acc : tag_row * Z) tid =>
                     (if t_id (fst acc) =? tid
                      then mk_tag (t_id (fst acc)) (t_name (fst acc)) (Some (snd acc))
                      else fst acc,
                      snd acc + 1))
                  ids (t, n)) in
  t_id r = t_id t /\ t_name r = t_name t
  /\ (~ In (t_id t) ids -> r = t)
  /\ (In (t_id t) ids -> t_ord r <> None)
  /\ (NoDup ids -> forall i, nth_error ids i = Some (t_id t) ->
                             t_ord r = Some (n + Z.of_nat i)).
Proof.
  revert t n. induction ids as [|a ids IH]; intros t n; cbn [fold_left].
  - simpl. split; [reflexivity|]. split; [reflexivity|]. split; [reflexivity|].
    split; [intros []|]. intros _ [|i]; discriminate.
  - cbn [fst snd].
    set (t1 := if t_id t =? a then mk_tag (t_id t) (t_name t) (Some n) else t).
    assert (Hid1 : t_id t1 = t_id t) by (unfold t1; destruct (t_id t =? a); reflexivity).
    assert (Hn1 : t_name t1 = t_name t) by (unfold t1; destruct (t_id t =? a); reflexivity).
    destruct (IH t1 (n + 1)) as [Hid [Hname [Hout [Hin Hnth]]]]. cbv zeta in *.
    rewrite Hid1 in *. rewrite Hn1 in *.
    split; [exact Hid|]. split; [exact Hname|]. split; [|split].
    + intros Hnot. rewrite Hout by (intros H; apply Hnot; right; exact H).
      unfold t1. destruct (t_id t =? a) eqn:E; [|reflexivity].
      apply Z.eqb_eq in E. exfalso. apply Hnot. left. auto.
    + intros Hor. destruct (in_dec Z.eq_dec (t_id t) ids) as [Hi|Hi]; [auto|].
      rewrite (Hout Hi). destruct Hor as [E|Hi']; [|contradiction].
      unfold t1. rewrite <- E, Z.eqb_refl. discriminate.
    + intros Hnd i Hi. inversion Hnd as [|? ? Hnotin Hnd']; subst.
      destruct i as [|i]; simpl in Hi.
      * injection Hi as ->. rewrite (Hout Hnotin). unfold t1.
        rewrite Z.eqb_refl. simpl. f_equal. lia.
      * rewrite (Hnth Hnd' i Hi). f_equal. lia.
Qed.

Lemma init_db_loop (db : DB) :
  init_db db
  = fst (fold_left (fun '(db, nxt) tid => (set_tag_ord nxt tid db, nxt + 1))
                   (map t_id (order_by t_name (filter ord_is_null (tags db)))) (db, 1)).
Proof.
  unfold init_db. destruct (filter ord_is_null (tags db)) as [|x l] eqn:E.
  - reflexivity.
  - replace (0 <? Z.of_nat (List.length (x :: l))) with true; [reflexivity|].
    symmetry. apply Z.ltb_lt. cbn [List.length]. lia.
Qed.

Lemma NoDup_tag_ids_inj (l : list tag_row) (a b : tag_row) :
  NoDup (map t_id l) -> In a l -> In b l -> t_id a = t_id b -> a = b.
Proof.
  induction l as [|x l IH]; simpl; [intros _ []|].
  intros Hnd Ha Hb E. inversion Hnd as [|? ? Hnotin Hnd']; subst.
  destruct Ha as [->|Ha], Hb as [->|Hb].
  - reflexivity.
  - exfalso. apply Hnotin. rewrite E. apply in_map. exact Hb.
  - exfalso. apply Hnotin. rewrite <- E. apply in_map. exact Ha.
  - apply IH; assumption.
Qed.

(** A column that is unique in a table is unique in every selection of its
    rows. *)
Lemma NoDup_map_filter {A B} (key : A -> B) (keep : A -> bool) (rows : list A) :
  NoDup (map key rows) -> NoDup (map key (filter keep rows)).
Proof.
  intros Hnd. induction rows as [|r rows IH]; [exact Hnd|].
  cbn [map] in Hnd. apply NoDup_cons_iff in Hnd as [Hr Hrows].
  cbn [filter]. destruct (keep r); [|exact (IH Hrows)].
  cbn [map]. apply NoDup_cons; [|exact (IH Hrows)].
  intros Hin. apply Hr. apply in_map_iff in Hin as [y [Ey Hy]].
  apply filter_In in Hy as [Hy _]. rewrite <- Ey. apply in_map. exact Hy.
Qed.

(** X7. [init_db] on a store whose tags partly lack [ord]: afterwards every
    tag has one; ids, names and the other tables are as before; with unique
    tag ids, the tags that had an [ord] are unchanged and the others are
    numbered 1, 2, ... in the order of their names; a second [init_db]
    changes nothing. *)
Theorem X7_init_db_numbers_unordered_tags (db : DB) :
  (forall t, In t (tags (init_db db)) -> t_ord t <> None)
  /\ map t_id (tags (init_db db)) = map t_id (tags db)
  /\ map t_name (tags (init_db db)) = map t_name (tags db)
  /\ files (init_db db) = files db /\ file_tags (init_db db) = file_tags db
  /\ roots (init_db db) = roots db /\ settings (init_db db) = settings db
  /\ init_db (init_db db) = init_db db
  /\ (NoDup (map t_id (tags db)) ->
      (forall t, In t (tags db) -> t_ord t <> None -> In t (tags (init_db db)))
      /\ (forall i t,
             nth_error (order_by t_name (filter ord_is_null (tags db))) i = Some t ->
             In (mk_tag (t_id t) (t_name t) (Some (Z.of_nat i + 1))) (tags (init_db db)))).
Proof.
  set (ids := map t_id (order_by t_name (filter ord_is_null (tags db)))).
  assert (Hids : forall t, In t (tags db) -> (In (t_id t) ids <-> exists u, In u (tags db)
                                                /\ t_ord u = None /\ t_id u = t_id t)).
  { intros t Ht. unfold ids. rewrite in_map_iff. split.
    - intros [u [E Hu]]. apply order_by_In in Hu. apply filter_In in Hu as [Hu Hn].
      exists u. unfold ord_is_null in Hn. destruct (t_ord u); [discriminate|]. auto.
    - intros [u [Hu [Hn E]]]. exists u. split; [exact E|].
      apply order_by_In. apply filter_In. split; [exact Hu|].
      unfold ord_is_null. rewrite Hn. reflexivity. }
  destruct (backfill_loop ids db 1) as [Hf [Hft [Hr [Hs Ht]]]]. cbv zeta in *.
  assert (Hinit : init_db db
                  = fst (fold_left (fun '(db, nxt) tid => (set_tag_ord nxt tid db, nxt + 1))
                                   ids (db, 1))) by apply init_db_loop.
  rewrite <- Hinit in *. clear Hinit.
  assert (Hnonull : forall t, In t (tags (init_db db)) -> t_ord t <> None).
  { intros t' Hin. rewrite Ht in Hin. apply in_map_iff in Hin as [t [E Hin]]. subst t'.
    destruct (backfill_row ids t 1) as [_ [_ [Hout [Hinn _]]]]. cbv zeta in *.
    destruct (in_dec Z.eq_dec (t_id t) ids) as [Hi|Hi]; [auto|].
    rewrite (Hout Hi). intros Hn. apply Hi. apply Hids; [exact Hin|]. exists t. auto. }
  split; [exact Hnonull|].
  split; [rewrite Ht, map_map; apply map_ext; intros t; apply (backfill_row ids t 1)|].
  split; [rewrite Ht, map_map; apply map_ext; intros t; apply (backfill_row ids t 1)|].
  split; [exact Hf|]. split; [exact Hft|]. split; [exact Hr|]. split; [exact Hs|].
  split.
  - unfold init_db at 1.
    assert (E : filter ord_is_null (tags (init_db db)) = []).
    { apply filter_none. destruct (existsb _ _) eqn:Ex; [|reflexivity].
      apply existsb_exists in Ex as [t [Hin Hn]]. unfold ord_is_null in Hn.
      specialize (Hnonull t Hin). destruct (t_ord t); [discriminate | congruence]. }
    rewrite E. reflexivity.
  - intros Hnd. split.
    + intros t Hin Hsome. rewrite Ht. apply in_map_iff. exists t. split; [|exact Hin].
      apply (backfill_row ids t 1). intros Hi. apply Hids in Hi as [u [Hu [Hn E]]]; [|exact Hin].
      assert (u = t) by (apply (NoDup_tag_ids_inj (tags db)); auto). subst u. auto.
    + intros i t Hnth.
      assert (Hin : In t (tags db)).
      { apply nth_error_In in Hnth. apply order_by_In in Hnth.
        apply filter_In in Hnth. tauto. }
      assert (Hndids : NoDup ids).
      { unfold ids. eapply Permutation_NoDup.
        - apply Permutation_map. apply Permutation_sym. apply order_by_perm.
        - apply NoDup_map_filter. exact Hnd. }
      assert (Hi : nth_error ids i = Some (t_id t)).
      { unfold ids. apply map_nth_error. exact Hnth. }
      destruct (backfill_row ids t 1) as [Hid [Hname [_ [_ Hord]]]]. cbv zeta in *.
      specialize (Hord Hndids i Hi).
      rewrite Ht. apply in_map_iff. exists t. split; [|exact Hin].
      destruct (fst _) as [rid rname rord]. cbn [t_id t_name t_ord] in Hid, Hname, Hord.
      rewrite Hid, Hname, Hord. f_equal. f_equal. lia.
Qed.

Lemma X7_init_db_witness :
  In (mk_tag 2 "work" (Some 5)) (tags (init_db Demo12.legacy_db))
  /\ In (mk_tag 3 "alpha" (Some (Z.of_nat 0 + 1))) (tags (init_db Demo12.legacy_db))
  /\ In (mk_tag 1 "zeta" (Some (Z.of_nat 1 + 1))) (tags (init_db Demo12.legacy_db)).
Proof.
  destruct (proj2 (proj2 (proj2 (proj2 (proj2 (proj2 (proj2 (proj2
              (X7_init_db_numbers_unordered_tags Demo12.legacy_db))))))))
              ltac:(repeat constructor; simpl; intuition discriminate))
    as [Hkeep Hnum].
  split; [|split].
  - apply Hkeep; [simpl; auto | discriminate].
  - apply (Hnum 0%nat (mk_tag 3 "alpha" None)). reflexivity.
  - apply (Hnum 1%nat (mk_tag 1 "zeta" None)). reflexivity.
Defined.

(** ** [delete_tags] *)

Lemma delete_tags_where_none p db :
  (forall t, In t (tags db) -> p t = false) -> delete_tags_where p db = db.
Proof.
  intros H. unfold delete_tags_where.
  assert (Hf : filter p (tags db) = []).
  { apply filter_none. destruct (existsb p (tags db)) eqn:E; [|reflexivity].
    apply existsb_exists in E as [t [Ht Hp]]. rewrite (H t Ht) in Hp. discriminate. }
  rewrite Hf. simpl. destruct db as [fs ts fts rs ss]. simpl in *. f_equal.
  - apply filter_all. intros t Hin. rewrite (H t Hin). reflexivity.
  - apply filter_all. reflexivity.
Qed.

Lemma delete_tags_where_twice p q db :
  delete_tags_where q (delete_tags_where p db) = delete_tags_where (fun t => p t || q t) db.
Proof.
  unfold delete_tags_where. simpl. f_equal.
  - rewrite filter_filter. apply filter_ext. intros t.
    destruct (p t), (q t); reflexivity.
  - rewrite filter_filter. apply filter_ext. intros ft.
    rewrite <- negb_orb. f_equal. apply bool_eq_iff.
    rewrite orb_true_iff, !existsb_eqb_In, !in_map_iff. split.
    + intros [[t [E Ht]] | [t [E Ht]]].
      * exists t. split; [exact E|]. apply filter_In in Ht as [Ht Hp].
        apply filter_In. rewrite Hp. auto.
      * exists t. split; [exact E|]. apply filter_In in Ht as [Ht Hq].
        apply filter_In in Ht as [Ht _]. apply filter_In. rewrite Hq, orb_true_r. auto.
    + intros [t [E Ht]]. apply filter_In in Ht as [Ht Hpq].
      destruct (p t) eqn:Ep.
      * left. exists t. split; [exact E|]. apply filter_In. auto.
      * right. exists t. split; [exact E|]. simpl in Hpq.
        apply filter_In. split; [|exact Hpq]. apply filter_In. rewrite Ep. auto.
Qed.

Lemma delete_tags_eq (ids : list Z) (db : DB) :
  delete_tags ids db
  = delete_tags_where (fun t => existsb (fun tid => t_id t =? tid) ids) db.
Proof.
  assert (H : forall l d,
             fold_left (fun db tid => delete_tags_where (fun t => t_id t =? tid) db) l d
             = delete_tags_where (fun t => existsb (fun tid => t_id t =? tid) l) d).
  { induction l as [|a l IH]; intros d; cbn [fold_left].
    - symmetry. apply delete_tags_where_none. reflexivity.
    - rewrite IH, delete_tags_where_twice. reflexivity. }
  unfold delete_tags. destruct ids as [|a ids].
  - symmetry. apply delete_tags_where_none. reflexivity.
  - apply H.
Qed.

(** X8. [delete_tags] removes exactly the tags whose id is in the list and
    the associations of those tags; the other tags and associations, the
    files, roots and settings are as before.  The empty list changes
    nothing. *)
Theorem X8_delete_tags_removes_tags_and_associations (ids : list Z) (db : DB) :
  let db' := delete_tags ids db in
  tags db' = filter (fun t => negb (existsb (fun tid => t_id t =? tid) ids)) (tags db)
  /\ (forall t, In t (tags db') <-> In t (tags db) /\ ~ In (t_id t) ids)
  /\ (forall ft, In ft (file_tags db')
                 <-> In ft (file_tags db)
                     /\ ~ (In (ft_tag ft) ids /\ In (ft_tag ft) (map t_id (tags db))))
  /\ files db' = files db /\ roots db' = roots db /\ settings db' = settings db
  /\ delete_tags [] db = db.
Proof.
  intros db'. unfold db'. rewrite delete_tags_eq.
  assert (Hex : forall x, existsb (fun tid => x =? tid) ids = true <-> In x ids).
  { intros x. rewrite existsb_exists. split.
    - intros [y [Hy E]]. apply Z.eqb_eq in E. subst. exact Hy.
    - intros H. exists x. split; [exact H | apply Z.eqb_refl]. }
  split; [reflexivity|]. split; [|split].
  - intros t. simpl. rewrite filter_In, negb_true_iff.
    rewrite <- Hex. destruct (existsb _ ids); intuition congruence.
  - intros ft. rewrite delete_tags_where_file_tags. split.
    + intros [Hin H]. split; [exact Hin|]. intros [Hi Ht].
      apply in_map_iff in Ht as [t [E Ht]]. specialize (H t Ht E).
      rewrite E in H. apply Hex in Hi. congruence.
    + intros [Hin H]. split; [exact Hin|]. intros t Ht E.
      destruct (existsb _ ids) eqn:Ee; [|reflexivity].
      exfalso. apply H. apply Hex in Ee. rewrite <- E.
      split; [exact Ee | apply in_map; exact Ht].
  - repeat split; reflexivity.
Qed.

(** ** Roots *)

Lemma upsert_root_roots p t db :
  roots (upsert_root p t db)
  = if existsb (fun r => (r_path r =? p)%string) (roots db)
    then map (fun r => if (r_path r =? p)%string then mk_root (r_path r) t else r) (roots db)
    else (roots db ++ [mk_root p t])%list.
Proof. reflexivity. Qed.

Lemma filter_retouched_roots p t (l : list root_row) :
  filter (fun r => negb (r_path r =? p)%string)
         (map (fun r => if (r_path r =? p)%string then mk_root (r_path r) t else r) l)
  = filter (fun r => negb (r_path r =? p)%string) l.
Proof.
  induction l as [|x l IH]; simpl; [reflexivity|].
  destruct (r_path x =? p)%string eqn:E; simpl; rewrite E; simpl; rewrite IH; reflexivity.
Qed.

(** Two upserts of the same root leave what the second alone leaves: one
    row for the path, with the time of the second. *)
Lemma upsert_root_twice p t1 t2 db :
  upsert_root p t2 (upsert_root p t1 db) = upsert_root p t2 db.
Proof.
  unfold upsert_root. simpl.
  destruct (existsb (fun r => (r_path r =? p)%string) (roots db)) eqn:E.
  - assert (E' : existsb (fun r => (r_path r =? p)%string)
                         (map (fun r => if (r_path r =? p)%string
                                        then mk_root (r_path r) t1 else r)
                              (roots db)) = true).
    { apply existsb_exists in E as [r [Hr Er]]. apply existsb_exists.
      exists (mk_root (r_path r) t1). split.
      - apply in_map_iff. exists r. rewrite Er. auto.
      - exact Er. }
    rewrite E'. f_equal. rewrite map_map. apply map_ext. intros r.
    destruct (r_path r =? p)%string eqn:Ep; simpl; rewrite Ep; reflexivity.
  - rewrite existsb_app. simpl. rewrite String.eqb_refl, orb_true_r. simpl.
    f_equal. rewrite map_app. simpl. rewrite String.eqb_refl. f_equal.
    transitivity (map (fun r : root_row => r) (roots db)); [|apply map_id].
    apply map_ext_in. intros r Hr.
    destruct (r_path r =? p)%string eqn:Ep; [|reflexivity].
    assert (Hex : existsb (fun r => (r_path r =? p)%string) (roots db) = true).
    { apply existsb_exists. exists r. auto. }
    congruence.
Qed.

(** X9. [add_root] registers the normalized path with the current time and
    touches nothing else: the other root rows, the files, tags, associations
    and settings are as before, and the root paths stay unique.  Adding the
    root again, at whatever later time, leaves one row for the path with the
    time of the last call: the store is the one a single [add_root] at that
    time gives.  [remove_root] after [add_root] gives the store that
    [remove_root] alone gives. *)
Theorem X9_add_root_registers (os : OS) (path : string) (db : DB) :
  let p := App.normalize_path os path in
  let db' := App.add_root os path db in
  In (mk_root p (now os)) (roots db')
  /\ In (App.normalize_path os p) (App.list_roots os db')
  /\ (forall r, r_path r <> p -> (In r (roots db') <-> In r (roots db)))
  /\ (NoDup (map r_path (roots db)) -> NoDup (map r_path (roots db')))
  /\ files db' = files db /\ tags db' = tags db /\ file_tags db' = file_tags db
  /\ settings db' = settings db
  /\ (forall later, App.normalize_path later path = p ->
        App.add_root later path db' = App.add_root later path db
        /\ In (mk_root p (now later)) (roots (App.add_root later path db'))
        /\ (now later <> now os ->
            ~ In (mk_root p (now os)) (roots (App.add_root later path db'))))
  /\ App.remove_root os path db' = App.remove_root os path db
  /\ Tagfile.add_root os path db = db'.
Proof.
  intros p db'.
  assert (Hadd : forall h q d,
             App.normalize_path h q = p ->
             In (mk_root p (now h)) (roots (App.add_root h q d))
             /\ forall t, t <> now h -> ~ In (mk_root p t) (roots (App.add_root h q d))).
  { intros h q d Eq. unfold App.add_root. rewrite Eq, upsert_root_roots.
    destruct (existsb _ (roots d)) eqn:E.
    - split.
      + apply existsb_exists in E as [r [Hr Er]]. apply in_map_iff. exists r.
        split; [|exact Hr]. rewrite Er. apply String.eqb_eq in Er. rewrite Er. reflexivity.
      + intros t Ht Hin. apply in_map_iff in Hin as [r [Er Hr]].
        destruct (r_path r =? p)%string eqn:Ep.
        * injection Er as _ Et. apply Ht. symmetry. exact Et.
        * subst r. simpl in Ep. rewrite String.eqb_refl in Ep. discriminate.
    - split.
      + apply in_or_app. right. left. reflexivity.
      + intros t Ht Hin. apply in_app_or in Hin as [Hin|[Hin|[]]].
        * assert (Hex : existsb (fun r => (r_path r =? p)%string) (roots d) = true).
          { apply existsb_exists. exists (mk_root p t). split; [exact Hin|].
            simpl. apply String.eqb_refl. }
          congruence.
        * injection Hin as Et. apply Ht. symmetry. exact Et. }
  assert (Hroots : roots db'
                   = if existsb (fun r => (r_path r =? p)%string) (roots db)
                     then map (fun r => if (r_path r =? p)%string
                                        then mk_root (r_path r) (now os) else r) (roots db)
                     else (roots db ++ [mk_root p (now os)])%list) by reflexivity.
  assert (Hin : In (mk_root p (now os)) (roots db')).
  { apply (Hadd os path db). reflexivity. }
  split; [exact Hin|]. split; [|split; [|split; [|split; [|split; [|split; [|split; [|split; [|split]]]]]]]].
  - unfold App.list_roots. apply in_map_iff. exists (mk_root p (now os)).
    split; [reflexivity|]. apply order_by_In. exact Hin.
  - intros r Hne. rewrite Hroots. destruct (existsb _ (roots db)) eqn:E.
    + rewrite in_map_iff. split.
      * intros [x [Ex Hx]]. destruct (r_path x =? p)%string eqn:Ep.
        -- subst r. simpl in Hne. apply String.eqb_eq in Ep. contradiction.
        -- subst r. exact Hx.
      * intros Hr. exists r. split; [|exact Hr].
        apply String.eqb_neq in Hne. rewrite Hne. reflexivity.
    + rewrite in_app_iff. simpl. split; [|auto].
      intros [H|[H|[]]]; [exact H|]. subst r. simpl in Hne. contradiction.
  - intros Hnd. rewrite Hroots. destruct (existsb _ (roots db)) eqn:E.
    + rewrite map_map. erewrite map_ext; [exact Hnd|].
      intros r. destruct (r_path r =? p)%string; reflexivity.
    + rewrite map_app. simpl. apply NoDup_app; [exact Hnd | repeat constructor; intros [] |].
      intros x Hx [<-|[]]. apply in_map_iff in Hx as [r [Er Hr]].
      assert (Hex : existsb (fun r => (r_path r =? p)%string) (roots db) = true).
      { apply existsb_exists. exists r. split; [exact Hr|]. apply String.eqb_eq. exact Er. }
      congruence.
  - reflexivity.
  - reflexivity.
  - reflexivity.
  - reflexivity.
  - intros later Eq.
    destruct (Hadd later path db' Eq) as [Hlater Hnot].
    split; [|split; [exact Hlater|]].
    + unfold db', App.add_root. rewrite Eq. fold p. apply upsert_root_twice.
    + intros Hne. apply Hnot. intros E. apply Hne. symmetry. exact E.
  - unfold App.remove_root. fold p. unfold delete_root.
    replace (files db') with (files db) by reflexivity.
    replace (tags db') with (tags db) by reflexivity.
    replace (file_tags db') with (file_tags db) by reflexivity.
    replace (settings db') with (settings db) by reflexivity.
    rewrite Hroots. destruct (existsb _ (roots db)) eqn:E.
    + rewrite filter_retouched_roots. reflexivity.
    + rewrite filter_app. simpl. rewrite String.eqb_refl. simpl.
      rewrite app_nil_r. reflexivity.
  - reflexivity.
Qed.

Lemma X9_add_root_witness :
  NoDup (map r_path (roots (App.add_root Demo.empty_host "/data//b/" Demo.siblings_db)))
  /\ (In (mk_root "/data/a" 0)
         (roots (App.add_root Demo.empty_host "/data//b/" Demo.siblings_db))
      <-> In (mk_root "/data/a" 0) (roots Demo.siblings_db))
  /\ (let later := Posix.host [] 1700000060 in
      let once := App.add_root Demo.empty_host "/data//b/" Demo.siblings_db in
      App.add_root later "/data//b/" once = App.add_root later "/data//b/" Demo.siblings_db
      /\ In (mk_root "/data/b" 1700000060) (roots (App.add_root later "/data//b/" once))
      /\ ~ In (mk_root "/data/b" 1700000000) (roots (App.add_root later "/data//b/" once))).
Proof.
  split; [|split].
  - apply (proj1 (proj2 (proj2 (proj2
             (X9_add_root_registers Demo.empty_host "/data//b/" Demo.siblings_db))))).
    repeat constructor; simpl; intuition discriminate.
  - apply (proj1 (proj2 (proj2
             (X9_add_root_registers Demo.empty_host "/data//b/" Demo.siblings_db)))).
    discriminate.
  - intros later once.
    destruct (proj1 (proj2 (proj2 (proj2 (proj2 (proj2 (proj2 (proj2 (proj2
                (X9_add_root_registers Demo.empty_host "/data//b/"
                   Demo.siblings_db)))))))))
                later eq_refl) as [Hsame [Hin Hout]].
    split; [exact Hsame|]. split; [exact Hin|]. apply Hout. discriminate.
Defined.

(** The second [add_root] rewrites the time of the row. *)
Example add_root_again_later :
  roots (App.add_root (Posix.host [] 1700000060) "/data/a"
           (App.add_root Demo.empty_host "/data/a" Sqlite.empty_db))
  = [ mk_root "/data/a" 1700000060 ].
Proof. reflexivity. Qed.

(** ** More on [list_files] *)

(** The result of [list_files], with the three optional conditions spelled
    out. *)
Lemma list_files_shape (os : OS) (search : string) (tag_ids : list Z) (only_tagged : bool)
      (root : option string) (db : DB) :
  App.list_files os search tag_ids only_tagged root db
  = Some (map (fun f => (f_id f, f_path f, f_size f, f_mtime f, group_concat_tags db f))
              (order_by f_path
                 (filter (fun f =>
                            (if truthy search
                             then like None ("%" ++ search ++ "%") (f_path f) else true)
                            && (if only_tagged
                                then existsb (fun x => ft_file x =? f_id f) (file_tags db)
                                else true)
                            && match root with
                               | Some r =>
                                   if truthy r
                                   then like None (App.normalize_path os r ++ "%") (f_path f)
                                   else true
                               | None => true
                               end)
                         (flat_map (join_rows db (rev tag_ids)) (files db))))).
Proof.
  rewrite list_files_query. unfold select_files.
  rewrite <- (length_rev tag_ids), bind_joins_ints.
  destruct (truthy search); destruct only_tagged; destruct root as [r|];
    try destruct (truthy r); simpl; f_equal; f_equal; f_equal;
    apply filter_ext; intros f; rewrite ?andb_true_r, ?andb_assoc; reflexivity.
Qed.

Lemma StronglySorted_map {A B} (g : A -> B) (R : B -> B -> Prop) (l : list A) :
  StronglySorted (fun a b => R (g a) (g b)) l -> StronglySorted R (map g l).
Proof.
  induction 1 as [|x l Hs IH Hall]; simpl; constructor; [exact IH|].
  rewrite Forall_forall in *. intros y Hy. apply in_map_iff in Hy as [z [<- Hz]]. auto.
Qed.

(** X10. [list_files] returns its rows in ascending order of the path, each
    row is the id, path, size and mtime of a catalog row, and each condition
    that is switched on holds of every returned row: the path matches
    [%search%], the file has a tag ([only_tagged]), the path matches
    [root%].  With no condition and no tag every catalog row is returned. *)
Theorem X10_list_files_sorted_and_filtered (os : OS) (search : string) (tag_ids : list Z)
        (only_tagged : bool) (root : option string) (db : DB) :
  exists rows,
    App.list_files os search tag_ids only_tagged root db = Some rows
    /\ StronglySorted (fun a b => String.leb (row_path a) (row_path b) = true) rows
    /\ (forall r, In r rows ->
        (exists f, In f (files db)
                   /\ r = (f_id f, f_path f, f_size f, f_mtime f, group_concat_tags db f))
        /\ (truthy search = true -> like None ("%" ++ search ++ "%") (row_path r) = true)
        /\ (only_tagged = true -> exists tid, has_tag db (row_id r) tid)
        /\ (forall r0, root = Some r0 -> truthy r0 = true ->
                       like None (App.normalize_path os r0 ++ "%") (row_path r) = true))
    /\ App.list_files os "" [] false None db
       = Some (map (fun f => (f_id f, f_path f, f_size f, f_mtime f, group_concat_tags db f))
                   (order_by f_path (files db))).
Proof.
  rewrite !list_files_shape. eexists. split; [reflexivity|]. split; [|split].
  - apply (StronglySorted_map
             (fun f => (f_id f, f_path f, f_size f, f_mtime f, group_concat_tags db f))
             (fun a b => String.leb (row_path a) (row_path b) = true)).
    apply (order_by_sorted f_path).
  - intros r Hr. apply in_map_iff in Hr as [f [<- Hf]].
    apply order_by_In in Hf. apply filter_In in Hf as [Hf Hp].
    apply in_flat_map in Hf as [f0 [Hf0 Hj]]. apply join_rows_In in Hj as [-> _].
    apply andb_true_iff in Hp as [Hp Hroot]. apply andb_true_iff in Hp as [Hs Ht].
    split; [exists f0; auto|]. simpl. split; [|split].
    + intros E. rewrite E in Hs. exact Hs.
    + intros E. rewrite E in Ht. apply existsb_exists in Ht as [ft [Hft Eft]].
      apply Z.eqb_eq in Eft. exists (ft_tag ft). unfold has_tag.
      rewrite <- Eft, <- ft_eta. exact Hft.
    + intros r0 -> E. rewrite E in Hroot. exact Hroot.
  - simpl. f_equal. f_equal. f_equal.
    rewrite filter_all by reflexivity.
    induction (files db) as [|f l IH]; simpl; [reflexivity|]. rewrite IH. reflexivity.
Qed.

Lemma X10_list_files_witness :
  like None ("%" ++ "F2" ++ "%") "/data/F2" = true.
Proof.
  destruct (X10_list_files_sorted_and_filtered Demo.empty_host "F2" [1] true (Some "/data")
              Demo3.three_files_db) as [rows [Hrows [_ [Hall _]]]].
  assert (Hin : In (2, "/data/F2", 20, 200#1, Some "tagA, tagB") rows).
  { vm_compute in Hrows. injection Hrows as <-. left. reflexivity. }
  apply (proj1 (proj2 (Hall _ Hin))). reflexivity.
Defined.

Lemma NoDup_filter_same_ft (fts : list file_tag_row) (fid tid : Z) :
  NoDup fts ->
  filter (fun ft => (ft_file ft =? fid) && (ft_tag ft =? tid)) fts = []
  \/ filter (fun ft => (ft_file ft =? fid) && (ft_tag ft =? tid)) fts = [mk_ft fid tid].
Proof.
  induction fts as [|x l IH]; simpl; intros Hnd; [auto|].
  inversion Hnd as [|? ? Hnotin Hnd']; subst.
  destruct ((ft_file x =? fid) && (ft_tag x =? tid)) eqn:E.
  - right. apply andb_true_iff in E as [E1 E2]. apply Z.eqb_eq in E1, E2.
    assert (x = mk_ft fid tid) by (rewrite (ft_eta x), E1, E2; reflexivity). subst x.
    f_equal. apply filter_none. destruct (existsb _ l) eqn:Ex; [|reflexivity].
    apply existsb_exists in Ex as [y [Hy Ey]].
    apply andb_true_iff in Ey as [Ey1 Ey2]. apply Z.eqb_eq in Ey1, Ey2.
    exfalso. apply Hnotin. rewrite (ft_eta y), Ey1, Ey2 in Hy. exact Hy.
  - apply IH. exact Hnd'.
Qed.

Lemma join_rows_at_most_one db tids f :
  NoDup (file_tags db) -> join_rows db tids f = [] \/ join_rows db tids f = [f].
Proof.
  intros Hnd. induction tids as [|t ts IH]; simpl; [auto|].
  destruct (NoDup_filter_same_ft (file_tags db) (f_id f) t Hnd) as [E|E]; rewrite E; simpl.
  - auto.
  - rewrite app_nil_r. exact IH.
Qed.

Lemma flat_map_at_most_one {A} (g : A -> list A) (l : list A) :
  (forall x, g x = [] \/ g x = [x]) ->
  flat_map g l = filter (fun x => match g x with [] => false | _ => true end) l.
Proof.
  intros H. induction l as [|x l IH]; simpl; [reflexivity|].
  destruct (H x) as [E|E]; rewrite E; simpl; rewrite IH; reflexivity.
Qed.

Lemma filter_length_bound {A} (p : A -> bool) (l : list A) :
  (List.length (filter p l) <= List.length l)%nat.
Proof.
  induction l as [|x l IH]; simpl; [lia|]. destruct (p x); simpl; lia.
Qed.

(** X11. With unique row ids and unique (file, tag) pairs, [list_files]
    returns every file at most once, however many tags are selected: the ids
    of the returned rows are distinct, and they are ids of the catalog. *)
Theorem X11_list_files_no_duplicate_rows (os : OS) (search : string) (tag_ids : list Z)
        (only_tagged : bool) (root : option string) (db : DB) :
  NoDup (map f_id (files db)) ->
  NoDup (file_tags db) ->
  exists rows,
    App.list_files os search tag_ids only_tagged root db = Some rows
    /\ NoDup (map row_id rows)
    /\ incl (map row_id rows) (map f_id (files db))
    /\ (List.length rows <= List.length (files db))%nat.
Proof.
  intros Hids Hfts. rewrite list_files_shape. eexists. split; [reflexivity|].
  rewrite (flat_map_at_most_one _ _
             (fun f => join_rows_at_most_one db (rev tag_ids) f Hfts)).
  rewrite filter_filter, map_map. simpl.
  set (p := fun f : file_row => _ && _).
  assert (Hperm : Permutation (map f_id (order_by f_path (filter p (files db))))
                              (map f_id (filter p (files db)))).
  { apply Permutation_map. apply order_by_perm. }
  split; [|split].
  - eapply Permutation_NoDup; [apply Permutation_sym; exact Hperm|].
    apply NoDup_map_filter. exact Hids.
  - intros x Hx. apply (Permutation_in _ Hperm) in Hx.
    apply in_map_iff in Hx as [f [<- Hf]]. apply filter_In in Hf as [Hf _].
    apply in_map. exact Hf.
  - rewrite length_map.
    rewrite (Permutation_length (order_by_perm f_path (filter p (files db)))).
    apply filter_length_bound.
Qed.

Lemma X11_list_files_witness :
  exists rows,
    App.list_files Demo.empty_host "" [1; 2; 1] false None Demo3.three_files_db = Some rows
    /\ NoDup (map row_id rows)
    /\ incl (map row_id rows) (map f_id (files Demo3.three_files_db))
    /\ (List.length rows <= List.length (files Demo3.three_files_db))%nat.
Proof.
  apply (X11_list_files_no_duplicate_rows Demo.empty_host "" [1; 2; 1] false None
           Demo3.three_files_db).
  - repeat constructor; simpl; intuition discriminate.
  - repeat constructor; simpl; intuition discriminate.
Defined.

(** ** Renaming a tag to a free name *)

Lemma rename_keeps_names_unique (l : list tag_row) (tid : Z) (n : string) :
  NoDup (map t_id l) -> NoDup (map t_name l) ->
  (forall t, In t l -> t_name t <> n) ->
  NoDup (map t_name
             (map (fun t => if t_id t =? tid then mk_tag (t_id t) n (t_ord t) else t) l)).
Proof.
  induction l as [|x l IH]; simpl; intros Hids Hnames Hfree; [constructor|].
  inversion Hids as [|? ? Hid_notin Hids']; subst.
  inversion Hnames as [|? ? Hname_notin Hnames']; subst.
  assert (IH' := IH Hids' Hnames' (fun t Ht => Hfree t (or_intror Ht))).
  assert (Hin : forall s, In s (map t_name
                                    (map (fun t => if t_id t =? tid
                                                   then mk_tag (t_id t) n (t_ord t) else t) l))
                          -> In s (map t_name l)
                             \/ (s = n /\ In tid (map t_id l))).
  { intros s Hs. rewrite map_map in Hs. apply in_map_iff in Hs as [t [Es Ht]].
    destruct (t_id t =? tid) eqn:E.
    - right. simpl in Es. apply Z.eqb_eq in E. split; [auto|]. rewrite <- E.
      apply in_map. exact Ht.
    - left. rewrite <- Es. apply in_map. exact Ht. }
  constructor; [|exact IH'].
  intros Hhead. apply Hin in Hhead as [Hl | [Hn Htid]].
  - destruct (t_id x =? tid) eqn:E; simpl in Hl.
    + apply in_map_iff in Hl as [t [Et Ht]]. exact (Hfree t (or_intror Ht) Et).
    + contradiction.
  - destruct (t_id x =? tid) eqn:E; simpl in Hn.
    + apply Z.eqb_eq in E. rewrite E in Hid_notin. contradiction.
    + exact (Hfree x (or_introl eq_refl) Hn).
Qed.

(** X12. [_rename_or_merge_tag] when no merge is needed.  An empty name
    changes nothing.  The current name of the tag changes nothing and shows
    no message.  A name that no tag has is written on the rows with the given
    id, which keep id and [ord]; every other tag, every association and every
    file is as before, no message is shown, and unique names stay unique. *)
Theorem X12_rename_tag_to_free_name (old_tid : Z) (new_name : string) (db : DB) :
  App.rename_or_merge_tag old_tid "" db = (db, [])
  /\ (forall t, NoDup (map t_name (tags db)) -> In t (tags db) ->
                t_id t = old_tid -> t_name t = new_name ->
                App.rename_or_merge_tag old_tid new_name db = (db, []))
  /\ (new_name <> "" -> (forall t, In t (tags db) -> t_name t <> new_name) ->
      exists db',
        App.rename_or_merge_tag old_tid new_name db = (db', [])
        /\ Tagfile.rename_or_merge_tag old_tid new_name db = (db', [])
        /\ tags db' = map (fun t => if t_id t =? old_tid
                                    then mk_tag (t_id t) new_name (t_ord t) else t) (tags db)
        /\ (forall t, In t (tags db) -> t_id t <> old_tid -> In t (tags db'))
        /\ map t_id (tags db') = map t_id (tags db)
        /\ map t_ord (tags db') = map t_ord (tags db)
        /\ file_tags db' = file_tags db /\ files db' = files db
        /\ (NoDup (map t_id (tags db)) -> NoDup (map t_name (tags db)) ->
            NoDup (map t_name (tags db')))).
Proof.
  split; [reflexivity|]. split.
  - intros t Hnd Hin Hid Hname.
    destruct (find_unique_name _ _ Hnd Hin) as [Hfind _]. rewrite Hname in Hfind.
    unfold App.rename_or_merge_tag, tag_id_by_name. rewrite Hfind. simpl option_map.
    rewrite Hid, Z.eqb_refl. destruct (negb (truthy new_name)); reflexivity.
  - intros Hne Hfree. apply truthy_true in Hne.
    destruct (find_absent _ _ Hfree) as [Hex Hfind].
    assert (Hrename : rename_tag new_name old_tid db
                      = Some (mk_db (files db)
                                    (map (fun t => if t_id t =? old_tid
                                                   then mk_tag (t_id t) new_name (t_ord t)
                                                   else t) (tags db))
                                    (file_tags db) (roots db) (settings db))).
    { unfold rename_tag.
      assert (E : existsb (fun t => (t_id t =? old_tid)
                                    && existsb (fun u => negb (t_id u =? old_tid)
                                                         && (t_name u =? new_name)%string)
                                               (tags db)) (tags db) = false).
      { apply not_true_is_false. intros E.
        apply existsb_exists in E as [t [_ Et]]. apply andb_true_iff in Et as [_ Et].
        apply existsb_exists in Et as [u [Hu Eu]]. apply andb_true_iff in Eu as [_ Eu].
        apply String.eqb_eq in Eu. exact (Hfree u Hu Eu). }
      rewrite E. reflexivity. }
    eexists. split; [|split].
    + unfold App.rename_or_merge_tag, tag_id_by_name.
      rewrite Hne, Hfind, Hrename. reflexivity.
    + unfold Tagfile.rename_or_merge_tag, tag_id_by_name.
      rewrite Hne, Hfind, Hrename. reflexivity.
    + simpl. split; [reflexivity|]. split; [|split; [|split; [|split; [|split]]]].
      * intros t Hin Hid. apply in_map_iff. exists t. split; [|exact Hin].
        apply Z.eqb_neq in Hid. rewrite Hid. reflexivity.
      * rewrite map_map. apply map_ext. intros t. destruct (t_id t =? old_tid); reflexivity.
      * rewrite map_map. apply map_ext. intros t. destruct (t_id t =? old_tid); reflexivity.
      * reflexivity.
      * reflexivity.
      * intros Hids Hnames. apply rename_keeps_names_unique; assumption.
Qed.

Lemma X12_rename_tag_witness :
  App.rename_or_merge_tag 1 "todo" Demo4.todo_later_db = (Demo4.todo_later_db, [])
  /\ exists db',
       App.rename_or_merge_tag 1 "urgent" Demo4.todo_later_db = (db', [])
       /\ tags db' = [mk_tag 1 "urgent" (Some 1); Demo4.later].
Proof.
  split.
  - apply (proj1 (proj2 (X12_rename_tag_to_free_name 1 "todo" Demo4.todo_later_db))
             Demo4.todo).
    + repeat constructor; simpl; intuition discriminate.
    + simpl. auto.
    + reflexivity.
    + reflexivity.
  - destruct (proj2 (proj2 (X12_rename_tag_to_free_name 1 "urgent" Demo4.todo_later_db)))
      as [db' [H1 [_ [H2 _]]]].
    + discriminate.
    + intros t [<-|[<-|[]]]; discriminate.
    + exists db'. split; [exact H1 | exact H2].
Defined.

(** ** Progress ticks *)

Lemma ticks_app l1 l2 : ticks (l1 ++ l2) = (ticks l1 ++ ticks l2)%list.
Proof. apply flat_map_app. Qed.

Lemma scan_file_ticks os tick shown dp fn st (n : nat) :
  processed_of st = Z.of_nat n ->
  processed_of (App.scan_file os tick shown dp fn st) = Z.of_nat (S n)
  /\ ticks (log_of (App.scan_file os tick shown dp fn st))
     = (ticks (log_of st)
          ++ map (fun i => (Z.of_nat i, shown))
                 (filter (fun i => tick (Z.of_nat i)) (seq (S n) 1)))%list.
Proof.
  destruct st as [[db p] log]. unfold processed_of, log_of. cbn [fst snd]. intros ->.
  unfold App.scan_file.
  replace (Z.of_nat n + 1) with (Z.of_nat (S n)) by lia.
  assert (Hseq : filter (fun i => tick (Z.of_nat i)) (seq (S n) 1)
                 = if tick (Z.of_nat (S n)) then [S n] else []) by reflexivity.
  rewrite Hseq.
  destruct (App.upsert_file os (os_join os dp fn) db) as [db'|e];
    destruct (tick (Z.of_nat (S n))); cbn [fst snd map];
    rewrite ?ticks_app; cbn [ticks flat_map app]; rewrite ?app_nil_r; split; reflexivity.
Qed.

Lemma scan_dir_ticks os tick shown dp (files : list string) st (n : nat) :
  processed_of st = Z.of_nat n ->
  let st' := fold_left (fun st fn => App.scan_file os tick shown dp fn st) files st in
  processed_of st' = Z.of_nat (n + List.length files)
  /\ ticks (log_of st')
     = (ticks (log_of st)
          ++ map (fun i => (Z.of_nat i, shown))
                 (filter (fun i => tick (Z.of_nat i)) (seq (S n) (List.length files))))%list.
Proof.
  revert st n. induction files as [|fn files IH]; intros st n Hp; cbn [fold_left].
  - simpl. rewrite app_nil_r, Nat.add_0_r. auto.
  - destruct (scan_file_ticks os tick shown dp fn st n Hp) as [Hp1 Ht1].
    destruct (IH _ (S n) Hp1) as [Hp2 Ht2]. cbv zeta in *.
    rewrite Hp2, Ht2, Ht1. split.
    + f_equal. cbn [List.length]. lia.
    + rewrite <- app_assoc, <- map_app, <- filter_app. f_equal.
Qed.

(** After a walk the ticks are those of the counts that the test lets
    through, in order. *)
Lemma scan_tree_ticks os tick shown root st (n : nat) :
  processed_of st = Z.of_nat n ->
  let st' := App.scan_tree os tick shown root st in
  processed_of st' = Z.of_nat (n + List.length (walked_files os root))
  /\ ticks (log_of st')
     = (ticks (log_of st)
          ++ map (fun i => (Z.of_nat i, shown))
                 (filter (fun i => tick (Z.of_nat i))
                         (seq (S n) (List.length (walked_files os root)))))%list.
Proof.
  unfold App.scan_tree, walked_files. revert st n.
  induction (os_walk os root) as [|[dp files] l IH]; intros st n Hp; cbn [fold_left flat_map].
  - simpl. rewrite app_nil_r, Nat.add_0_r. auto.
  - destruct (scan_dir_ticks os tick shown dp files st n Hp) as [Hp1 Ht1].
    destruct (IH _ _ Hp1) as [Hp2 Ht2]. cbv zeta in *.
    rewrite Hp2, Ht2, Ht1, length_app, length_map. split.
    + f_equal. lia.
    + rewrite <- app_assoc, <- map_app, <- filter_app. f_equal. f_equal. f_equal.
      rewrite seq_app. f_equal.
Qed.

Lemma seq_filter_sorted (p : nat -> bool) (a k : nat) :
  StronglySorted (fun x y => Z.of_nat x < Z.of_nat y) (filter p (seq a k)).
Proof.
  revert a. induction k as [|k IH]; intros a; simpl; [constructor|].
  destruct (p a); [|apply IH].
  constructor; [apply IH|].
  apply Forall_forall. intros x Hx. apply filter_In in Hx as [Hx _].
  apply in_seq in Hx. lia.
Qed.

(** X13. The progress ticks of the worker of [index_selected_root].  With
    [k] the number of files the walk meets, a tick [(p, fs_total)] is emitted
    exactly for the counts [p] in [1..k] that are a multiple of [step] (at
    least 1, as [max(1, ...)] makes it) or equal [fs_total], in increasing
    order of [p]; so the final tick
    [(fs_total, fs_total)] is emitted exactly when [1 <= fs_total <= k]. *)
Theorem X13_index_worker_ticks (os : OS) (root : string) (fs_total step : Z) (db : DB) :
  1 <= step ->
  let k := List.length (walked_files os root) in
  let emitted := ticks (log_of (App.index_worker os root fs_total step db)) in
  emitted
  = map (fun i => (Z.of_nat i, fs_total))
        (filter (fun i => (Z.of_nat i mod step =? 0) || (Z.of_nat i =? fs_total)) (seq 1 k))
  /\ StronglySorted Z.lt (map fst emitted)
  /\ (forall p t, In (p, t) emitted
                  <-> t = fs_total /\ 1 <= p <= Z.of_nat k
                      /\ (p mod step = 0 \/ p = fs_total))
  /\ (In (fs_total, fs_total) emitted <-> 1 <= fs_total <= Z.of_nat k).
Proof.
  intros _ k emitted.
  assert (He : emitted
               = map (fun i => (Z.of_nat i, fs_total))
                     (filter (fun i => (Z.of_nat i mod step =? 0) || (Z.of_nat i =? fs_total))
                             (seq 1 k))).
  { unfold emitted, App.index_worker.
    destruct (scan_tree_ticks os
                (fun processed => (processed mod step =? 0) || (processed =? fs_total))
                fs_total root (App.add_root os root db, 0, [Call_add_root root]) 0
                eq_refl) as [_ Ht].
    cbv zeta in Ht.
    destruct (App.scan_tree os _ fs_total root _) as [[db1 n] log].
    unfold log_of in Ht. simpl in Ht.
    destruct (App.remove_missing_under_try os root db1) as [[db2 removed]|e];
      unfold log_of; simpl; rewrite ticks_app, Ht; simpl; apply app_nil_r. }
  assert (Hin : forall p t, In (p, t) emitted
                            <-> t = fs_total /\ 1 <= p <= Z.of_nat k
                                /\ (p mod step = 0 \/ p = fs_total)).
  { intros p t. rewrite He, in_map_iff. split.
    - intros [i [E Hi]]. injection E as <- <-. apply filter_In in Hi as [Hi Ht].
      apply in_seq in Hi. apply orb_true_iff in Ht.
      rewrite !Z.eqb_eq in Ht. split; [reflexivity|]. split; [lia | exact Ht].
    - intros [-> [Hp Ht]]. exists (Z.to_nat p). rewrite Z2Nat.id by lia.
      split; [reflexivity|]. apply filter_In. split.
      + apply in_seq. lia.
      + rewrite Z2Nat.id by lia. apply orb_true_iff. rewrite !Z.eqb_eq. exact Ht. }
  split; [exact He|]. split; [|split; [exact Hin|]].
  - rewrite He, map_map. simpl.
    apply (StronglySorted_map Z.of_nat Z.lt). apply seq_filter_sorted.
  - rewrite Hin. intuition lia.
Qed.

Lemma X13_index_worker_ticks_witness :
  In (3, 3) (ticks (log_of (App.index_worker Demo10.host "/data/a" 3 2 Sqlite.empty_db)))
  <-> 1 <= 3 <= Z.of_nat (List.length (walked_files Demo10.host "/data/a")).
Proof.
  apply (proj2 (proj2 (proj2
           (X13_index_worker_ticks Demo10.host "/data/a" 3 2 Sqlite.empty_db
              ltac:(lia))))).
Defined.

(** A walk of three files with [step = 2]: ticks after the second file and
    after the last one. *)
Example ticks_of_three_files :
  ticks (log_of (App.index_worker Demo10.host "/data/a" 3 2 Sqlite.empty_db))
  = [(2, 3); (3, 3)].
Proof. reflexivity. Qed.

(** ** What a scan records *)

Lemma recorded_upsert_same p s m db : recorded (upsert_files_row p s m db) p s m.
Proof.
  unfold recorded. rewrite upsert_files_row_files.
  destruct (existsb _ (files db)) eqn:E.
  - apply existsb_exists in E as [f [Hf Ep]].
    exists (touch p s m f). split; [apply in_map; exact Hf|].
    unfold touch. rewrite Ep. simpl. apply String.eqb_eq in Ep. auto.
  - exists (mk_file (next_rowid (map f_id (files db))) p s m None).
    split; [apply in_or_app; right; left; reflexivity | auto].
Qed.

Lemma recorded_upsert_other p s m db k s' m' :
  k <> p -> recorded db k s' m' -> recorded (upsert_files_row p s m db) k s' m'.
Proof.
  intros Hne [f [Hf [Hp [Hs Hm]]]]. exists f. rewrite upsert_files_row_files.
  split; [|auto].
  destruct (existsb _ (files db)).
  - apply in_map_iff. exists f. split; [|exact Hf].
    unfold touch. replace (f_path f =? p)%string with false; [reflexivity|].
    symmetry. apply String.eqb_neq. congruence.
  - apply in_or_app. left. exact Hf.
Qed.

(** One turn of the loop: the file of the turn is recorded if it could be
    read, and a record made before stays unless the turn writes other values
    on the same path. *)
Lemma scan_file_records os tick shown dp fn st :
  let full := os_join os dp fn in
  let key := App.normalize_path os (pathlib_str os full) in
  (forall s m, is_file os (pathlib_str os full) = true ->
               stat os (pathlib_str os full) = Some (s, m) ->
               recorded (db_of (App.scan_file os tick shown dp fn st)) key s m)
  /\ (forall k s m,
         recorded (db_of st) k s m ->
         (k = key -> is_file os (pathlib_str os full) = true ->
          stat os (pathlib_str os full) = None \/ stat os (pathlib_str os full) = Some (s, m)) ->
         recorded (db_of (App.scan_file os tick shown dp fn st)) k s m).
Proof.
  intros full key. destruct st as [[db n] log].
  unfold App.scan_file, App.upsert_file. fold full. fold key. unfold db_of.
  split.
  - intros s m Hfile Hstat. rewrite Hfile, Hstat. simpl.
    apply recorded_upsert_same.
  - intros k s m Hrec Hcompat.
    destruct (is_file os (pathlib_str os full)) eqn:Hfile; simpl; [|exact Hrec].
    destruct (stat os (pathlib_str os full)) as [[s' m']|] eqn:Hstat; simpl; [|exact Hrec].
    destruct (string_dec k key) as [->|Hne].
    + destruct (Hcompat eq_refl eq_refl) as [H|H]; [discriminate|].
      injection H as -> ->. apply recorded_upsert_same.
    + apply recorded_upsert_other; assumption.
Qed.

(** After a walk, a file of the walk that could be read is recorded with its
    size and mtime, provided the files of the walk that share its catalog
    path have the same size and mtime. *)
Lemma scan_tree_records os tick shown root st k s m :
  (forall g, In g (walked_files os root) ->
             App.normalize_path os (pathlib_str os g) = k ->
             is_file os (pathlib_str os g) = true ->
             stat os (pathlib_str os g) = None \/ stat os (pathlib_str os g) = Some (s, m)) ->
  (recorded (db_of st) k s m
   \/ exists full, In full (walked_files os root)
                   /\ App.normalize_path os (pathlib_str os full) = k
                   /\ is_file os (pathlib_str os full) = true
                   /\ stat os (pathlib_str os full) = Some (s, m)) ->
  recorded (db_of (App.scan_tree os tick shown root st)) k s m.
Proof.
  unfold App.scan_tree, walked_files. revert st.
  induction (os_walk os root) as [|[dp files] l IH]; intros st Hcompat Hsrc;
    cbn [fold_left flat_map] in *.
  - destruct Hsrc as [H | [full [[] _]]]. exact H.
  - apply IH.
    + intros g Hg. apply Hcompat. apply in_or_app. right. exact Hg.
    + assert (Hdir : forall fs st0,
                 (forall g, In g (map (os_join os dp) fs) ->
                            App.normalize_path os (pathlib_str os g) = k ->
                            is_file os (pathlib_str os g) = true ->
                            stat os (pathlib_str os g) = None
                            \/ stat os (pathlib_str os g) = Some (s, m)) ->
                 (recorded (db_of st0) k s m
                  \/ exists full, In full (map (os_join os dp) fs)
                                  /\ App.normalize_path os (pathlib_str os full) = k
                                  /\ is_file os (pathlib_str os full) = true
                                  /\ stat os (pathlib_str os full) = Some (s, m)) ->
                 recorded (db_of (fold_left (fun st fn => App.scan_file os tick shown dp fn st)
                                            fs st0)) k s m).
      { induction fs as [|fn fs IHf]; intros st0 Hc Hs; cbn [fold_left map] in *.
        - destruct Hs as [H | [full [[] _]]]. exact H.
        - destruct (scan_file_records os tick shown dp fn st0) as [Hnew Hold].
          cbv zeta in *. apply IHf.
          + intros g Hg. apply Hc. right. exact Hg.
          + destruct Hs as [H | [full [[<-|Hin] [Hk [Hf Hst]]]]].
            * left. apply Hold; [exact H|]. intros E. apply Hc; [left; reflexivity | auto].
            * left. rewrite <- Hk. apply Hnew; assumption.
            * right. exists full. auto. }
      destruct Hsrc as [H | [full [Hin [Hk [Hf Hst]]]]].
      * left. apply Hdir; [|left; exact H].
        intros g Hg. apply Hcompat. apply in_or_app. left. exact Hg.
      * apply in_app_or in Hin as [Hin|Hin].
        -- left. apply Hdir.
           ++ intros g Hg. apply Hcompat. apply in_or_app. left. exact Hg.
           ++ right. exists full. auto.
        -- right. exists full. auto.
Qed.

(** X14. What the worker of [index_selected_root] leaves in the catalog.
    Take a file the walk meets that is a regular file with size [s] and mtime
    [m], whose catalog path [k] exists on the disk, and suppose the files of
    the walk that share the catalog path [k] have the same size and mtime.
    Then, from a store with unique row ids, the worker ends with a row for
    [k] with size [s] and mtime [m]. *)
Theorem X14_index_worker_records_walked_file (os : OS) (root : string) (fs_total step : Z)
        (db : DB) (full : string) (s : Z) (m : Q) :
  let k := App.normalize_path os (pathlib_str os full) in
  NoDup (map f_id (files db)) ->
  In full (walked_files os root) ->
  is_file os (pathlib_str os full) = true ->
  stat os (pathlib_str os full) = Some (s, m) ->
  path_exists os (pathlib_str os k) = true ->
  (forall g, In g (walked_files os root) ->
             App.normalize_path os (pathlib_str os g) = k ->
             is_file os (pathlib_str os g) = true ->
             stat os (pathlib_str os g) = None \/ stat os (pathlib_str os g) = Some (s, m)) ->
  recorded (db_of (App.index_worker os root fs_total step db)) k s m.
Proof.
  intros k Hnd Hin Hfile Hstat Hdisk Hcompat.
  unfold App.index_worker.
  pose proof (scan_tree_records os
                (fun processed => (processed mod step =? 0) || (processed =? fs_total))
                fs_total root (App.add_root os root db, 0, [Call_add_root root]) k s m
                Hcompat
                (or_intror (ex_intro _ full (conj Hin (conj eq_refl (conj Hfile Hstat))))))
    as Hrec.
  pose proof (keeps_scan_tree os
                (fun processed => (processed mod step =? 0) || (processed =? fs_total))
                fs_total root (App.add_root os root db, 0, [Call_add_root root])) as Hk.
  destruct (App.scan_tree os _ fs_total root _) as [[db1 n] log].
  unfold db_of in Hrec, Hk. simpl in Hrec, Hk.
  assert (Hnd1 : NoDup (map f_id (files db1))) by (apply Hk; exact Hnd).
  destruct (remove_missing_under_try_cases os root db1) as [E|E]; rewrite E.
  - unfold db_of. simpl. exact Hrec.
  - rewrite (remove_missing_under_eq os root db1 Hnd1). unfold db_of. simpl.
    destruct Hrec as [f [Hf [Hp [Hs Hm]]]]. exists f. split; [|auto].
    apply filter_In. split; [exact Hf|].
    unfold stale. rewrite Hp, Hdisk. simpl. rewrite andb_false_r. reflexivity.
Qed.

Lemma X14_index_worker_records_witness :
  recorded (db_of (App.index_worker Demo10.host "/data/a" 3 1 Demo10.stale_db))
           (App.normalize_path Demo10.host (pathlib_str Demo10.host "/data/a/x.txt"))
           10 (100#1).
Proof.
  apply (X14_index_worker_records_walked_file Demo10.host "/data/a" 3 1 Demo10.stale_db
           "/data/a/x.txt" 10 (100#1)).
  - repeat constructor; simpl; intuition discriminate.
  - simpl. auto.
  - reflexivity.
  - reflexivity.
  - reflexivity.
  - intros g [<-|[<-|[<-|[]]]] Hk Hf; vm_compute in Hk; try discriminate.
    right. reflexivity.
Defined.

(** The scan of the specification: an empty catalog and a root with three
    files; the run ends with the final tick (3, 3) and the completion signal,
    and the catalog holds exactly the three files with their sizes. *)
Example index_three_files_from_empty_catalog :
  App.index_selected_root Demo10.host (Demo2.idle_ui "/data/a") Sqlite.empty_db
  = (mk_ui (Some "/data/a") None true,
     mk_db [ mk_file 1 "/data/a/x.txt" 10 (100#1) None;
             mk_file 2 "/data/a/n.txt" 11 (101#1) None;
             mk_file 3 "/data/a/sub/y.txt" 20 (200#1) None ]
           [] [] [ mk_root "/data/a" 1700000000 ] [],
     [ ScanStarted 3;
       Call_add_root "/data/a";
       Call_upsert_file "/data/a/x.txt" false; ProgressTick 1 3;
       Call_upsert_file "/data/a/n.txt" false; ProgressTick 2 3;
       Call_upsert_file "/data/a/sub/y.txt" false; ProgressTick 3 3;
       Call_remove_missing_under "/data/a" 0;
       ScanFinished ]).
Proof. reflexivity. Qed.

(** ** [ensure_tag] again, and [add_tag] *)

Lemma lstrip_head (s : string) :
  lstrip s = "" \/ exists c s', lstrip s = String c s' /\ isspace c = false.
Proof.
  induction s as [|c s IH]; simpl; [auto|].
  destruct (isspace c) eqn:E; [exact IH|]. right. exists c, s. auto.
Qed.

Lemma rstrip_idem (s : string) : rstrip (rstrip s) = rstrip s.
Proof.
  induction s as [|c s IH]; simpl; [reflexivity|].
  destruct (isspace c && (rstrip s =? "")%string) eqn:E; [reflexivity|].
  simpl. rewrite IH, E. reflexivity.
Qed.

Lemma strip_idem (s : string) : strip (strip s) = strip s.
Proof.
  unfold strip. destruct (lstrip_head s) as [E | [c [s' [E Hc]]]]; rewrite E.
  - reflexivity.
  - simpl. rewrite Hc. simpl. rewrite Hc. simpl. rewrite rstrip_idem, Hc. reflexivity.
Qed.

Lemma next_rowid_not_in (ids : list Z) : ~ In (next_rowid ids) ids.
Proof. intros H. apply next_rowid_fresh in H. lia. Qed.

Lemma ensure_tag_facts (name : string) (db : DB) :
  let db' := fst (App.ensure_tag name db) in
  (snd (App.ensure_tag name db) = None <-> strip name = "")
  /\ (forall tid, snd (App.ensure_tag name db) = Some tid ->
                  exists t, In t (tags db') /\ t_id t = tid /\ t_name t = strip name)
  /\ App.ensure_tag name db' = (db', snd (App.ensure_tag name db))
  /\ incl (tags db) (tags db')
  /\ (NoDup (map t_id (tags db)) -> NoDup (map t_id (tags db')))
  /\ (NoDup (map t_name (tags db)) -> NoDup (map t_name (tags db')))
  /\ files db' = files db /\ file_tags db' = file_tags db
  /\ add_tag name db = db'.
Proof.
  intros db'. unfold db', App.ensure_tag, add_tag, App.ensure_tag.
  rewrite strip_idem.
  set (n := strip name).
  set (nxt := match max_ord (tags db) with Some m => m | None => 0 end + 1).
  destruct (truthy n) eqn:Hn; simpl negb; cbv iota.
  2:{ apply truthy_false in Hn. simpl.
      split; [split; [intros _; exact Hn | reflexivity]|].
      split; [intros tid E; discriminate|].
      split; [reflexivity|].
      repeat split; auto using incl_refl. }
  assert (Hne : n <> "") by (apply truthy_true; exact Hn).
  set (db1 := insert_or_ignore_tag n nxt db).
  assert (Hex1 : existsb (fun t => (t_name t =? n)%string) (tags db1) = true).
  { unfold db1, insert_or_ignore_tag.
    destruct (existsb _ (tags db)) eqn:E; [exact E|]. simpl.
    rewrite existsb_app. simpl. rewrite String.eqb_refl. apply orb_true_r. }
  assert (Hfind : exists t, find (fun t => (t_name t =? n)%string) (tags db1) = Some t).
  { destruct (find _ (tags db1)) as [t|] eqn:E; [eauto|].
    apply existsb_exists in Hex1 as [t [Ht Et]].
    pose proof (find_none _ _ E t Ht) as H. simpl in H. congruence. }
  destruct Hfind as [t Hfind].
  assert (Hagain : insert_or_ignore_tag n
                     (match max_ord (tags db1) with Some m => m | None => 0 end + 1) db1 = db1).
  { unfold insert_or_ignore_tag at 1. rewrite Hex1. reflexivity. }
  simpl fst. simpl snd. unfold tag_id_by_name. rewrite Hfind. simpl option_map.
  split; [split; [discriminate | intros E; contradiction]|].
  split.
  { intros tid E. injection E as <-. apply find_some in Hfind as [Hin Et].
    apply String.eqb_eq in Et. exists t. auto. }
  split.
  { cbv zeta. rewrite Hagain. rewrite Hfind. reflexivity. }
  unfold db1, insert_or_ignore_tag.
  destruct (existsb _ (tags db)) eqn:E; simpl.
  - repeat split; auto using incl_refl.
  - split; [intros x Hx; apply in_or_app; left; exact Hx|].
    split; [|split; [|repeat split]].
    + intros Hnd. rewrite map_app. simpl.
      apply NoDup_app; [exact Hnd | repeat constructor; intros [] |].
      intros x Hx [<-|[]]. exact (next_rowid_not_in _ Hx).
    + intros Hnd. rewrite map_app. simpl.
      apply NoDup_app; [exact Hnd | repeat constructor; intros [] |].
      intros x Hx [<-|[]]. apply in_map_iff in Hx as [u [Eu Hu]].
      assert (Hex : existsb (fun t => (t_name t =? n)%string) (tags db) = true).
      { apply existsb_exists. exists u. split; [exact Hu|]. apply String.eqb_eq. exact Eu. }
      congruence.
Qed.

(** X15. [ensure_tag] as get-or-create.  It returns no id exactly when the
    stripped name is empty; an id it returns is the id of a tag of the
    resulting store that has the stripped name; a second call returns the
    same id and the same store; the tags that were there are still there,
    unique ids and unique names stay unique, and files and associations are
    untouched.  [add_tag], which strips the text first, gives the same
    store. *)
Theorem X15_ensure_tag_get_or_create_again (name : string) (db : DB) :
  let db' := fst (App.ensure_tag name db) in
  (snd (App.ensure_tag name db) = None <-> strip name = "")
  /\ (forall tid, snd (App.ensure_tag name db) = Some tid ->
                  exists t, In t (tags db') /\ t_id t = tid /\ t_name t = strip name)
  /\ App.ensure_tag name db' = (db', snd (App.ensure_tag name db))
  /\ incl (tags db) (tags db')
  /\ (NoDup (map t_id (tags db)) -> NoDup (map t_id (tags db')))
  /\ (NoDup (map t_name (tags db)) -> NoDup (map t_name (tags db')))
  /\ files db' = files db /\ file_tags db' = file_tags db
  /\ add_tag name db = db'.
Proof. exact (ensure_tag_facts name db). Qed.

Lemma X15_ensure_tag_witness :
  exists t,
    In t (tags (fst (App.ensure_tag " soon " Demo4.todo_later_db)))
    /\ t_id t = 3 /\ t_name t = strip " soon ".
Proof.
  apply (proj1 (proj2 (X15_ensure_tag_get_or_create_again " soon " Demo4.todo_later_db))).
  reflexivity.
Defined.

(** ** Assigning and removing a tag *)

Lemma existsb_id_In {A} (key : A -> Z) (x : Z) (l : list A) :
  existsb (fun a => key a =? x) l = true <-> In x (map key l).
Proof.
  rewrite existsb_exists, in_map_iff. split.
  - intros [a [Ha E]]. apply Z.eqb_eq in E. exists a. auto.
  - intros [a [E Ha]]. exists a. split; [exact Ha | apply Z.eqb_eq; exact E].
Qed.

(** The loop of [assign_tag_to_selected] when every selected file and the
    tag exist. *)
Lemma assign_loop (tid : Z) (ids : list Z) (db : DB) :
  In tid (map t_id (tags db)) ->
  (forall fid, In fid ids -> In fid (map f_id (files db))) ->
  exists db',
    fold_left (fun acc fid =>
                 match acc with
                 | Some d => insert_or_ignore_file_tag fid tid d
                 | None => None
                 end) ids (Some db) = Some db'
    /\ files db' = files db /\ tags db' = tags db
    /\ roots db' = roots db /\ settings db' = settings db
    /\ (forall ft, In ft (file_tags db')
                   <-> In ft (file_tags db) \/ (ft_tag ft = tid /\ In (ft_file ft) ids))
    /\ (NoDup (file_tags db) -> NoDup (file_tags db')).
Proof.
  revert db. induction ids as [|fid ids IH]; intros db Htag Hfiles; cbn [fold_left].
  - exists db. split; [reflexivity|]. do 4 (split; [reflexivity|]).
    split; [intros ft; simpl; tauto | auto].
  - assert (Hstep : exists d,
               insert_or_ignore_file_tag fid tid db = Some d
               /\ files d = files db /\ tags d = tags db
               /\ roots d = roots db /\ settings d = settings db
               /\ (forall ft, In ft (file_tags d)
                              <-> In ft (file_tags db) \/ ft = mk_ft fid tid)
               /\ (NoDup (file_tags db) -> NoDup (file_tags d))).
    { unfold insert_or_ignore_file_tag.
      destruct (existsb (ft_eqb (mk_ft fid tid)) (file_tags db)) eqn:E.
      - exists db. split; [reflexivity|]. do 4 (split; [reflexivity|]).
        split; [|auto]. intros ft. split; [auto|].
        intros [H| ->]; [exact H|]. apply existsb_ft_eqb. exact E.
      - assert (Hf : existsb (fun f => f_id f =? fid) (files db) = true).
        { apply existsb_id_In. apply Hfiles. left. reflexivity. }
        assert (Ht : existsb (fun t => t_id t =? tid) (tags db) = true).
        { apply existsb_id_In. exact Htag. }
        rewrite Hf, Ht. simpl. eexists. split; [reflexivity|]. simpl.
        do 4 (split; [reflexivity|]). split.
        + intros ft. split.
          * intros H. apply in_app_or in H as [H|[<-|[]]]; auto.
          * intros [H| ->]; apply in_or_app; [left; exact H | right; left; reflexivity].
        + intros Hnd. apply NoDup_app; [exact Hnd | repeat constructor; intros [] |].
          intros x Hx [<-|[]]. apply existsb_ft_eqb in Hx. congruence. }
    destruct Hstep as [d [Hd [Hf [Ht [Hr [Hs [Hin Hnd]]]]]]]. rewrite Hd.
    destruct (IH d) as [db' [Hrun [Hf' [Ht' [Hr' [Hs' [Hin' Hnd']]]]]]].
    + rewrite Ht. exact Htag.
    + intros x Hx. rewrite Hf. apply Hfiles. right. exact Hx.
    + exists db'. split; [exact Hrun|].
      rewrite Hf', Ht', Hr', Hs', Hf, Ht, Hr, Hs.
      do 4 (split; [reflexivity|]). split; [|auto].
      intros ft. split.
      * intros H. apply Hin' in H as [H|[E Hi]].
        -- apply Hin in H as [H| ->]; [auto|]. right. simpl. auto.
        -- right. simpl. auto.
      * intros [H|[E [Hi|Hi]]].
        -- apply Hin'. left. apply Hin. auto.
        -- apply Hin'. left. apply Hin. right. rewrite <- E, Hi. apply ft_eta.
        -- apply Hin'. right. auto.
Qed.

(** On a stripped text [ensure_tag] does what it does on the text. *)
Lemma ensure_tag_strip (text : string) (db : DB) :
  App.ensure_tag (strip text) db = App.ensure_tag text db.
Proof. unfold App.ensure_tag. rewrite strip_idem. reflexivity. Qed.

Lemma ensure_tag_present (text : string) (d : DB) :
  strip text <> "" ->
  (exists t, In t (tags d) /\ t_name t = strip text) ->
  App.ensure_tag text d = (d, tag_id_by_name (strip text) d).
Proof.
  intros Hne [t [Ht En]]. apply truthy_true in Hne.
  unfold App.ensure_tag. rewrite Hne. simpl negb. cbv iota.
  unfold insert_or_ignore_tag.
  assert (E : existsb (fun u => (t_name u =? strip text)%string) (tags d) = true).
  { apply existsb_exists. exists t. split; [exact Ht|]. apply String.eqb_eq. exact En. }
  rewrite E. reflexivity.
Qed.

Lemma assign_loop_present (tid : Z) (ids : list Z) (d : DB) :
  (forall fid, In fid ids -> In (mk_ft fid tid) (file_tags d)) ->
  fold_left (fun acc fid =>
               match acc with
               | Some d => insert_or_ignore_file_tag fid tid d
               | None => None
               end) ids (Some d) = Some d.
Proof.
  induction ids as [|fid ids IH]; intros H; cbn [fold_left]; [reflexivity|].
  assert (E : insert_or_ignore_file_tag fid tid d = Some d).
  { unfold insert_or_ignore_file_tag.
    replace (existsb (ft_eqb (mk_ft fid tid)) (file_tags d)) with true; [reflexivity|].
    symmetry. apply existsb_ft_eqb. apply H. left. reflexivity. }
  rewrite E. apply IH. intros x Hx. apply H. right. exact Hx.
Qed.

(** X16. [assign_tag_to_selected].  An empty text changes nothing.  With a
    name and no selected file the tag is created all the same and nothing is
    associated.  With a name and selected files that are all in the catalog,
    the tag is got or created and the result holds exactly the associations
    of before and the pairs (selected file, tag); unique pairs stay unique,
    and assigning again changes nothing. *)
Theorem X16_assign_tag_to_selected (text : string) (ids : list Z) (db : DB) :
  (strip text = "" -> assign_tag_to_selected text ids db = Committed db)
  /\ assign_tag_to_selected text [] db = Committed (add_tag text db)
  /\ (strip text <> "" -> ids <> [] ->
      (forall fid, In fid ids -> In fid (map f_id (files db))) ->
      exists db' tid,
        assign_tag_to_selected text ids db = Committed db'
        /\ snd (App.ensure_tag text db) = Some tid
        /\ tags db' = tags (fst (App.ensure_tag text db))
        /\ files db' = files db
        /\ (forall fid, In fid ids -> has_tag db' fid tid)
        /\ (forall ft, In ft (file_tags db')
                       <-> In ft (file_tags db) \/ (ft_tag ft = tid /\ In (ft_file ft) ids))
        /\ (NoDup (file_tags db) -> NoDup (file_tags db'))
        /\ assign_tag_to_selected text ids db' = Committed db').
Proof.
  split; [|split].
  - intros E. unfold assign_tag_to_selected. rewrite E. reflexivity.
  - unfold assign_tag_to_selected, add_tag.
    destruct (truthy (strip text)); simpl negb; cbv iota; [|reflexivity].
    destruct (App.ensure_tag (strip text) db) as [db1 tid]. reflexivity.
  - intros Hne Hids Hfiles.
    destruct (ensure_tag_facts text db)
      as [Hnone [Hsome [Hagain [_ [_ [_ [Hf [Hft _]]]]]]]].
    cbv zeta in *.
    destruct (App.ensure_tag text db) as [db1 otid] eqn:Hrun. simpl in *.
    destruct otid as [tid|]; [|exfalso; apply Hne; apply Hnone; reflexivity].
    destruct (Hsome tid eq_refl) as [t [Ht [Hid Hname]]].
    destruct (assign_loop tid ids db1) as [db' [Hloop [Hf' [Ht' [_ [_ [Hin Hnd]]]]]]].
    { rewrite <- Hid. apply in_map. exact Ht. }
    { intros fid Hfid. rewrite Hf. apply Hfiles. exact Hfid. }
    assert (Hfirst : assign_tag_to_selected text ids db = Committed db').
    { unfold assign_tag_to_selected.
      replace (truthy (strip text)) with true by (symmetry; apply truthy_true; exact Hne).
      simpl negb. cbv iota. rewrite ensure_tag_strip, Hrun.
      destruct ids as [|a ids']; [contradiction|]. rewrite Hloop. reflexivity. }
    assert (Hpresent : App.ensure_tag text db' = (db', Some tid)).
    { rewrite ensure_tag_present.
      - f_equal. unfold tag_id_by_name. rewrite Ht'.
        rewrite (ensure_tag_present text db1) in Hagain by (auto; exists t; auto).
        injection Hagain as Hidb. exact Hidb.
      - exact Hne.
      - exists t. rewrite Ht'. auto. }
    assert (Hhas : forall fid, In fid ids -> has_tag db' fid tid).
    { intros fid Hfid. unfold has_tag. apply Hin. right. simpl. auto. }
    exists db', tid. split; [exact Hfirst|]. split; [reflexivity|].
    split; [exact Ht'|]. split; [rewrite Hf'; exact Hf|]. split; [exact Hhas|].
    split; [intros ft; rewrite Hin, Hft; reflexivity|].
    split; [intros H; apply Hnd; rewrite Hft; exact H|].
    unfold assign_tag_to_selected.
    replace (truthy (strip text)) with true by (symmetry; apply truthy_true; exact Hne).
    simpl negb. cbv iota. rewrite ensure_tag_strip, Hpresent.
    destruct ids as [|a ids']; [contradiction|].
    rewrite (assign_loop_present tid (a :: ids') db' Hhas). reflexivity.
Qed.

Lemma X16_assign_tag_witness :
  exists db' tid,
    assign_tag_to_selected " later" [1; 3] Demo4.todo_later_db = Committed db'
    /\ snd (App.ensure_tag " later" Demo4.todo_later_db) = Some tid
    /\ tags db' = tags (fst (App.ensure_tag " later" Demo4.todo_later_db))
    /\ files db' = files Demo4.todo_later_db
    /\ (forall fid, In fid [1; 3] -> has_tag db' fid tid)
    /\ (forall ft, In ft (file_tags db')
                   <-> In ft (file_tags Demo4.todo_later_db)
                       \/ (ft_tag ft = tid /\ In (ft_file ft) [1; 3]))
    /\ (NoDup (file_tags Demo4.todo_later_db) -> NoDup (file_tags db'))
    /\ assign_tag_to_selected " later" [1; 3] db' = Committed db'.
Proof.
  apply (proj2 (proj2 (X16_assign_tag_to_selected " later" [1; 3] Demo4.todo_later_db))).
  - discriminate.
  - discriminate.
  - intros fid [<-|[<-|[]]]; simpl; auto.
Defined.

(** A selected row whose file is no longer in the catalog: the statement
    fails on the foreign key and no association is stored; the tag that
    [ensure_tag] created stays. *)
Example assign_to_vanished_file :
  assign_tag_to_selected "new" [1; 9] Demo4.todo_later_db
  = IntegrityError (fst (App.ensure_tag "new" Demo4.todo_later_db)).
Proof. reflexivity. Qed.

(** X17. [untag_selected_from_selected_files] with one selected file removes
    exactly the pairs of that file with the selected tags; tags, files and
    every other pair are as before.  With no file or several files selected
    it changes nothing. *)
Theorem X17_untag_selected (ids selected : list Z) (db : DB) :
  let db' := untag_selected_from_selected_files ids selected db in
  (forall fid, ids = [fid] ->
     (forall ft, In ft (file_tags db')
                 <-> In ft (file_tags db)
                     /\ ~ (ft_file ft = fid /\ In (ft_tag ft) selected))
     /\ (NoDup (file_tags db) -> NoDup (file_tags db')))
  /\ (List.length ids <> 1%nat -> db' = db)
  /\ tags db' = tags db /\ files db' = files db
  /\ roots db' = roots db /\ settings db' = settings db.
Proof.
  intros db'.
  assert (H : forall fid sel d,
             let d' := fold_left
                         (fun db tid =>
                            delete_file_tags
                              (fun ft => (ft_file ft =? fid) && (ft_tag ft =? tid)) db)
                         sel d in
             (forall ft, In ft (file_tags d')
                         <-> In ft (file_tags d) /\ ~ (ft_file ft = fid /\ In (ft_tag ft) sel))
             /\ (NoDup (file_tags d) -> NoDup (file_tags d'))
             /\ tags d' = tags d /\ files d' = files d
             /\ roots d' = roots d /\ settings d' = settings d).
  { intros fid sel. induction sel as [|tid sel IH]; intros d; cbn [fold_left].
    - simpl. repeat split; auto; tauto.
    - destruct (IH (delete_file_tags
                      (fun ft => (ft_file ft =? fid) && (ft_tag ft =? tid)) d))
        as [Hin [Hnd [Ht [Hf [Hr Hs]]]]]. cbv zeta in *.
      rewrite Ht, Hf, Hr, Hs. simpl.
      split; [|split; [|repeat split; reflexivity]].
      + intros ft. rewrite Hin. simpl. rewrite filter_In, negb_true_iff.
        rewrite andb_false_iff, !Z.eqb_neq.
        destruct (Z.eq_dec (ft_file ft) fid) as [Ea|Ea];
          destruct (Z.eq_dec (ft_tag ft) tid) as [Eb|Eb];
          intuition (subst; auto; congruence).
      + intros Hd. apply Hnd. simpl. apply NoDup_filter. exact Hd. }
  split; [|split].
  - intros fid ->. unfold db'. simpl.
    destruct (H fid selected db) as [Hin [Hnd _]]. auto.
  - intros Hlen. unfold db', untag_selected_from_selected_files.
    destruct ids as [|a [|b l]]; simpl in Hlen; try reflexivity. contradiction.
  - unfold db', untag_selected_from_selected_files.
    destruct ids as [|a [|b l]]; try (repeat split; reflexivity).
    destruct (H a selected db) as [_ [_ Hrest]]. exact Hrest.
Qed.

Lemma X17_untag_selected_witness :
  untag_selected_from_selected_files [1; 2] [1] Demo4.todo_later_db = Demo4.todo_later_db
  /\ (In (mk_ft 2 1) (file_tags (untag_selected_from_selected_files [2] [1]
                                   Demo4.todo_later_db))
      <-> In (mk_ft 2 1) (file_tags Demo4.todo_later_db)
          /\ ~ (ft_file (mk_ft 2 1) = 2 /\ In (ft_tag (mk_ft 2 1)) [1])).
Proof.
  split.
  - apply (proj1 (proj2 (X17_untag_selected [1; 2] [1] Demo4.todo_later_db))).
    simpl. lia.
  - apply (proj1 (X17_untag_selected [2] [1] Demo4.todo_later_db) 2 eq_refl).
Defined.

(** ** The constraints of the schema are kept *)

Lemma NoDup_snoc {A} (l : list A) (x : A) : NoDup l -> ~ In x l -> NoDup (l ++ [x]).
Proof.
  intros Hl Hx. apply NoDup_app; [exact Hl | repeat constructor; intros [] |].
  intros y Hy [<-|[]]. exact (Hx Hy).
Qed.

Lemma map_key_update {A B} (key : A -> B) (g : A -> A) (l : list A) :
  (forall a, key (g a) = key a) -> map key (map g l) = map key l.
Proof. intros H. rewrite map_map. apply map_ext. exact H. Qed.

Lemma existsb_name_In {A} (key : A -> string) (x : string) (l : list A) :
  existsb (fun a => (key a =? x)%string) l = true <-> In x (map key l).
Proof.
  rewrite existsb_exists, in_map_iff. split.
  - intros [a [Ha E]]. apply String.eqb_eq in E. exists a. auto.
  - intros [a [E Ha]]. exists a. split; [exact Ha | apply String.eqb_eq; exact E].
Qed.

Lemma consistent_upsert_files_row path size mtime db :
  consistent db -> consistent (upsert_files_row path size mtime db).
Proof.
  intros [H1 H2 H3 H4 H5 H6 H7 H8 H9]. unfold upsert_files_row.
  assert (Hid : forall a, f_id (touch path size mtime a) = f_id a).
  { intros a. unfold touch. destruct (_ =? _)%string; reflexivity. }
  assert (Hp : forall a, f_path (touch path size mtime a) = f_path a).
  { intros a. unfold touch. destruct (_ =? _)%string; reflexivity. }
  destruct (existsb _ (files db)) eqn:E.
  - constructor; simpl; auto.
    + rewrite map_key_update; auto.
    + rewrite map_key_update; auto.
    + intros ft Hft. rewrite map_key_update; auto.
  - constructor; simpl; auto.
    + rewrite map_app. apply NoDup_snoc; auto. apply next_rowid_not_in.
    + rewrite map_app. apply NoDup_snoc; auto. simpl. intros Hin.
      apply existsb_name_In in Hin. congruence.
    + intros ft Hft. rewrite map_app. apply in_or_app. left. auto.
Qed.

Lemma consistent_delete_files p db : consistent db -> consistent (delete_files p db).
Proof.
  intros H. pose proof (delete_files_file_tags p db) as Hft.
  destruct H as [H1 H2 H3 H4 H5 H6 H7 H8 H9].
  constructor; try (simpl; auto; fail).
  - simpl. apply NoDup_map_filter. exact H1.
  - simpl. apply NoDup_map_filter. exact H2.
  - simpl. apply NoDup_filter. exact H5.
  - intros ft Hin. apply Hft in Hin as [Hin Hp].
    destruct (proj1 (in_map_iff _ _ _) (H8 ft Hin)) as [f [Ef Hf]].
    simpl. apply in_map_iff. exists f. split; [exact Ef|].
    apply filter_In. split; [exact Hf|]. rewrite (Hp f Hf Ef). reflexivity.
  - intros ft Hin. apply Hft in Hin as [Hin _]. simpl. auto.
Qed.

Lemma consistent_delete_tags_where p db :
  consistent db -> consistent (delete_tags_where p db).
Proof.
  intros H. pose proof (delete_tags_where_file_tags p db) as Hft.
  destruct H as [H1 H2 H3 H4 H5 H6 H7 H8 H9].
  constructor; try (simpl; auto; fail).
  - simpl. apply NoDup_map_filter. exact H3.
  - simpl. apply NoDup_map_filter. exact H4.
  - simpl. apply NoDup_filter. exact H5.
  - intros ft Hin. apply Hft in Hin as [Hin _]. simpl. auto.
  - intros ft Hin. apply Hft in Hin as [Hin Hp].
    destruct (proj1 (in_map_iff _ _ _) (H9 ft Hin)) as [t [Et Ht]].
    simpl. apply in_map_iff. exists t. split; [exact Et|].
    apply filter_In. split; [exact Ht|]. rewrite (Hp t Ht Et). reflexivity.
Qed.

Lemma consistent_delete_file_tags p db :
  consistent db -> consistent (delete_file_tags p db).
Proof.
  intros [H1 H2 H3 H4 H5 H6 H7 H8 H9]. constructor; simpl; auto.
  - apply NoDup_filter. exact H5.
  - intros ft Hin. apply filter_In in Hin as [Hin _]. auto.
  - intros ft Hin. apply filter_In in Hin as [Hin _]. auto.
Qed.

Lemma consistent_insert_or_ignore_tag name ord db :
  consistent db -> consistent (insert_or_ignore_tag name ord db).
Proof.
  intros H. unfold insert_or_ignore_tag.
  destruct (existsb _ (tags db)) eqn:E; [exact H|].
  destruct H as [H1 H2 H3 H4 H5 H6 H7 H8 H9]. constructor; simpl; auto.
  - rewrite map_app. apply NoDup_snoc; auto. apply next_rowid_not_in.
  - rewrite map_app. apply NoDup_snoc; auto. simpl. intros Hin.
    apply existsb_name_In in Hin. congruence.
  - intros ft Hft. rewrite map_app. apply in_or_app. left. auto.
Qed.

Lemma consistent_upsert_root path t db :
  consistent db -> consistent (upsert_root path t db).
Proof.
  intros [H1 H2 H3 H4 H5 H6 H7 H8 H9]. constructor; try (simpl; auto; fail).
  rewrite upsert_root_roots. destruct (existsb _ (roots db)) eqn:E.
  - rewrite map_key_update; auto.
    intros a. destruct (_ =? _)%string; reflexivity.
  - rewrite map_app. apply NoDup_snoc; auto. simpl. intros Hin.
    apply existsb_name_In in Hin. congruence.
Qed.

Lemma consistent_delete_root path db : consistent db -> consistent (delete_root path db).
Proof.
  intros [H1 H2 H3 H4 H5 H6 H7 H8 H9]. constructor; simpl; auto.
  apply NoDup_map_filter. exact H6.
Qed.

Lemma consistent_set_setting key value db :
  consistent db -> consistent (set_setting key value db).
Proof.
  intros [H1 H2 H3 H4 H5 H6 H7 H8 H9]. constructor; simpl; auto.
  destruct (existsb _ (settings db)) eqn:E.
  - rewrite map_key_update; auto.
    intros a. destruct (_ =? _)%string; reflexivity.
  - rewrite map_app. apply NoDup_snoc; auto. simpl. intros Hin.
    apply existsb_name_In in Hin. congruence.
Qed.

Lemma consistent_set_tag_ord ord tid db :
  consistent db -> consistent (set_tag_ord ord tid db).
Proof.
  intros [H1 H2 H3 H4 H5 H6 H7 H8 H9].
  assert (Hid : forall a, t_id (if t_id a =? tid then mk_tag (t_id a) (t_name a) (Some ord)
                                else a) = t_id a).
  { intros a. destruct (_ =? _); reflexivity. }
  assert (Hn : forall a, t_name (if t_id a =? tid then mk_tag (t_id a) (t_name a) (Some ord)
                                 else a) = t_name a).
  { intros a. destruct (_ =? _); reflexivity. }
  constructor; simpl; auto.
  - rewrite map_key_update; auto.
  - rewrite map_key_update; auto.
  - intros ft Hft. rewrite map_key_update; auto.
Qed.

Lemma consistent_rename_tag name tid db db' :
  consistent db -> (forall t, In t (tags db) -> t_name t <> name) ->
  rename_tag name tid db = Some db' -> consistent db'.
Proof.
  intros [H1 H2 H3 H4 H5 H6 H7 H8 H9] Hfree. unfold rename_tag.
  destruct (existsb _ (tags db)); [discriminate|]. intros E. injection E as <-.
  assert (Hid : forall a, t_id (if t_id a =? tid then mk_tag (t_id a) name (t_ord a)
                                else a) = t_id a).
  { intros a. destruct (_ =? _); reflexivity. }
  constructor; simpl; auto.
  - rewrite map_key_update; auto.
  - apply rename_keeps_names_unique; auto.
  - intros ft Hft. rewrite map_key_update; auto.
Qed.

Lemma consistent_insert_or_ignore_file_tag fid tid db db' :
  consistent db -> insert_or_ignore_file_tag fid tid db = Some db' -> consistent db'.
Proof.
  intros H. unfold insert_or_ignore_file_tag.
  destruct (existsb (ft_eqb _) _) eqn:E; [intros E'; injection E' as <-; exact H|].
  destruct (existsb _ (files db)) eqn:Ef; [|discriminate].
  destruct (existsb _ (tags db)) eqn:Et; [|discriminate].
  simpl. intros E'. injection E' as <-.
  destruct H as [H1 H2 H3 H4 H5 H6 H7 H8 H9]. constructor; simpl; auto.
  - apply NoDup_snoc; auto. intros Hin. apply existsb_ft_eqb in Hin. congruence.
  - intros ft Hin. apply in_app_or in Hin as [Hin|[<-|[]]]; auto.
    simpl. apply existsb_id_In. exact Ef.
  - intros ft Hin. apply in_app_or in Hin as [Hin|[<-|[]]]; auto.
    simpl. apply existsb_id_In. exact Et.
Qed.

(** The rows of [files] after [UPDATE files SET path=new WHERE path=old]. *)
Lemma rename_keeps_paths_unique (l : list string) (old new : string) :
  NoDup l -> (In new l -> new = old) ->
  NoDup (map (fun p => if (p =? old)%string then new else p) l).
Proof.
  intros Hnd Hnew. induction Hnd as [|h l Hh Hnd IH]; [constructor|].
  cbn [map]. constructor.
  - intros Hin. apply in_map_iff in Hin as [r [Er Hr]].
    destruct (String.eqb_spec h old) as [Eh|Eh];
      destruct (String.eqb_spec r old) as [Er'|Er'].
    + apply Hh. rewrite Eh, <- Er'. exact Hr.
    + apply Er'. rewrite Er. apply Hnew. right. rewrite <- Er. exact Hr.
    + apply Eh. rewrite <- Er. apply Hnew. left. symmetry. exact Er.
    + apply Hh. rewrite <- Er. exact Hr.
  - apply IH. intros Hin. apply Hnew. right. exact Hin.
Qed.

Lemma consistent_db_rename_file_path os old new db :
  consistent db -> consistent (store_of (db_rename_file_path os old new db)).
Proof.
  intros H. unfold db_rename_file_path. cbv zeta.
  set (o := App.normalize_path os old). set (n := App.normalize_path os new).
  destruct (existsb (fun f => (f_path f =? o)%string) (files db)) eqn:Eo.
  - destruct (existsb (fun f => (f_path f =? n)%string && negb (f_path f =? o)%string)
                      (files db)) eqn:En; simpl; [exact H|].
    destruct H as [H1 H2 H3 H4 H5 H6 H7 H8 H9].
    assert (Hid : forall a, f_id (if (f_path a =? o)%string
                                  then mk_file (f_id a) n (f_size a) (f_mtime a) (f_hash a)
                                  else a) = f_id a).
    { intros a. destruct (_ =? _)%string; reflexivity. }
    constructor; simpl; auto.
    + rewrite map_key_update; auto.
    + assert (Hmap : map f_path
                         (map (fun f => if (f_path f =? o)%string
                                        then mk_file (f_id f) n (f_size f) (f_mtime f) (f_hash f)
                                        else f) (files db))
                     = map (fun p => if (p =? o)%string then n else p)
                           (map f_path (files db))).
      { rewrite !map_map. apply map_ext. intros a.
        destruct (f_path a =? o)%string; reflexivity. }
      rewrite Hmap. apply rename_keeps_paths_unique; [exact H2|].
      intros Hin. apply in_map_iff in Hin as [f [Ef Hf]].
      destruct (String.eqb_spec n o) as [E|E]; [exact E|]. exfalso.
      assert (Hex : existsb (fun f => (f_path f =? n)%string && negb (f_path f =? o)%string)
                            (files db) = true).
      { apply existsb_exists. exists f. split; [exact Hf|].
        rewrite Ef, String.eqb_refl. simpl. apply negb_true_iff.
        apply String.eqb_neq. exact E. }
      congruence.
    + intros ft Hft. rewrite map_key_update; auto.
  - simpl.
    replace (map _ (files db)) with (files db); [destruct db; exact H|].
    symmetry. transitivity (map (fun f => f) (files db)); [|apply map_id].
    apply map_ext_in. intros a Ha.
    destruct (String.eqb_spec (f_path a) o) as [E|E]; [|reflexivity]. exfalso.
    assert (Hex : existsb (fun f => (f_path f =? o)%string) (files db) = true).
    { apply existsb_exists. exists a. split; [exact Ha|]. apply String.eqb_eq. exact E. }
    congruence.
Qed.

(** *** The operations *)

Lemma consistent_upsert_file os path db db' :
  consistent db -> App.upsert_file os path db = Returned db' -> consistent db'.
Proof.
  intros H. unfold App.upsert_file.
  destruct (is_file os _); simpl negb; cbv iota.
  - destruct (stat os _) as [[sz mt]|]; [|discriminate].
    intros E. injection E as <-. apply consistent_upsert_files_row. exact H.
  - intros E. injection E as <-. exact H.
Qed.

Lemma consistent_scan_file os tick shown dp fn st :
  consistent (db_of st) -> consistent (db_of (App.scan_file os tick shown dp fn st)).
Proof.
  destruct st as [[db n] log]. unfold App.scan_file. intros H.
  destruct (App.upsert_file os (os_join os dp fn) db) as [db'|e] eqn:E;
    unfold db_of in *; simpl in *; [|exact H].
  exact (consistent_upsert_file os _ db db' H E).
Qed.

Lemma consistent_scan_tree os tick shown root st :
  consistent (db_of st) -> consistent (db_of (App.scan_tree os tick shown root st)).
Proof.
  unfold App.scan_tree. revert st.
  induction (os_walk os root) as [|[dp files] l IH]; intros st H; cbn [fold_left];
    [exact H|].
  apply IH. clear IH. revert st H.
  induction files as [|fn files IH]; intros st H; cbn [fold_left]; [exact H|].
  apply IH. apply consistent_scan_file. exact H.
Qed.

Lemma consistent_remove_missing_under os root db :
  consistent db -> consistent (fst (App.remove_missing_under os root db)).
Proof.
  intros H. rewrite remove_missing_under_eq by (destruct H; assumption).
  simpl. apply consistent_delete_files. exact H.
Qed.

Lemma consistent_add_root os root db : consistent db -> consistent (App.add_root os root db).
Proof. intros H. unfold App.add_root. apply consistent_upsert_root. exact H. Qed.

Lemma consistent_remove_root os root db :
  consistent db -> consistent (App.remove_root os root db).
Proof.
  intros H. unfold App.remove_root. cbv zeta.
  apply consistent_delete_files. apply consistent_delete_root. exact H.
Qed.

Lemma consistent_index_worker os root total step db :
  consistent db -> consistent (db_of (App.index_worker os root total step db)).
Proof.
  apply (index_worker_carries os (fun d d' => consistent d -> consistent d')); auto.
  - intros r d. apply consistent_add_root.
  - intros p s m d. apply consistent_upsert_files_row.
  - intros r d. apply consistent_remove_missing_under.
Qed.

Lemma consistent_rescan_worker os uniq total db :
  consistent db -> consistent (db_of (App.rescan_worker os uniq total db)).
Proof.
  apply (rescan_worker_carries os (fun d d' => consistent d -> consistent d')); auto.
  - intros r d. apply consistent_add_root.
  - intros p s m d. apply consistent_upsert_files_row.
  - intros r d. apply consistent_remove_missing_under.
Qed.

Lemma consistent_db_delete_file_by_path os path db :
  consistent db -> consistent (db_delete_file_by_path os path db).
Proof. intros H. apply consistent_delete_files. exact H. Qed.

Lemma consistent_delete_selected_files os recycled ps db :
  consistent db -> consistent (delete_selected_files os recycled ps db).
Proof.
  unfold delete_selected_files. revert db.
  induction ps as [|p ps IH]; intros db H; cbn [fold_left]; [exact H|].
  apply IH. destruct (recycled p); [apply consistent_db_delete_file_by_path|]; exact H.
Qed.

Lemma consistent_ensure_tag name db :
  consistent db -> consistent (fst (App.ensure_tag name db)).
Proof.
  intros H. unfold App.ensure_tag. cbv zeta.
  destruct (truthy (strip name)); simpl; [|exact H].
  apply consistent_insert_or_ignore_tag. exact H.
Qed.

Lemma consistent_add_tag text db : consistent db -> consistent (add_tag text db).
Proof.
  intros H. unfold add_tag. cbv zeta.
  destruct (truthy (strip text)); simpl; [|exact H].
  apply consistent_ensure_tag. exact H.
Qed.

Lemma consistent_delete_tags ids db : consistent db -> consistent (delete_tags ids db).
Proof. intros H. rewrite delete_tags_eq. apply consistent_delete_tags_where. exact H. Qed.

Lemma find_name_none (name : string) (db : DB) :
  tag_id_by_name name db = None -> forall t, In t (tags db) -> t_name t <> name.
Proof.
  unfold tag_id_by_name. intros E t Ht En.
  destruct (find _ (tags db)) eqn:Ef; [discriminate|].
  pose proof (find_none _ _ Ef t Ht) as Hn. simpl in Hn.
  apply String.eqb_neq in Hn. contradiction.
Qed.

Lemma consistent_rename_or_merge_tag old_tid new_name db :
  consistent db -> consistent (fst (App.rename_or_merge_tag old_tid new_name db)).
Proof.
  intros H. unfold App.rename_or_merge_tag.
  destruct (truthy new_name); simpl negb; cbv iota; [|exact H].
  destruct (tag_id_by_name new_name db) as [new_tid|] eqn:En.
  - destruct (new_tid =? old_tid); [exact H|]. cbv zeta. simpl fst.
    apply consistent_delete_tags_where. apply consistent_delete_file_tags.
    assert (Hnew : In new_tid (map t_id (tags db))).
    { unfold tag_id_by_name in En. destruct (find _ (tags db)) as [t|] eqn:Ef; [|discriminate].
      injection En as <-. apply in_map. apply (find_some _ _ Ef). }
    destruct H as [H1 H2 H3 H4 H5 H6 H7 H8 H9]. constructor; simpl; auto.
    + apply insert_or_ignore_NoDup. exact H5.
    + intros ft Hin. apply insert_or_ignore_In in Hin as [Hin|Hin]; [auto|].
      apply in_map_iff in Hin as [g [<- Hg]]. apply filter_In in Hg as [Hg _].
      simpl. auto.
    + intros ft Hin. apply insert_or_ignore_In in Hin as [Hin|Hin]; [auto|].
      apply in_map_iff in Hin as [g [<- Hg]]. simpl. exact Hnew.
  - destruct (rename_tag new_name old_tid db) as [db'|] eqn:Er; simpl; [|exact H].
    exact (consistent_rename_tag new_name old_tid db db' H (find_name_none new_name db En) Er).
Qed.

Lemma consistent_assign_tag_to_selected text ids db :
  consistent db -> consistent (store_of (assign_tag_to_selected text ids db)).
Proof.
  intros H. unfold assign_tag_to_selected. cbv zeta.
  destruct (truthy (strip text)); simpl negb; cbv iota; [|exact H].
  pose proof (consistent_ensure_tag (strip text) db H) as H1.
  destruct (App.ensure_tag (strip text) db) as [db1 otid]. simpl in H1.
  destruct ids as [|a ids']; [exact H1|].
  destruct otid as [tid|]; [|exact H1].
  assert (Hloop : forall l acc,
             match acc with Some d => consistent d | None => True end ->
             match fold_left (fun acc fid =>
                                match acc with
                                | Some d => insert_or_ignore_file_tag fid tid d
                                | None => None
                                end) l acc with
             | Some d' => consistent d'
             | None => True
             end).
  { induction l as [|x l IH]; intros acc Hacc; cbn [fold_left]; [exact Hacc|].
    apply IH. destruct acc as [d|]; [|exact I].
    destruct (insert_or_ignore_file_tag x tid d) as [d'|] eqn:E; [|exact I].
    exact (consistent_insert_or_ignore_file_tag x tid d d' Hacc E). }
  specialize (Hloop (a :: ids') (Some db1) H1).
  destruct (fold_left _ (a :: ids') (Some db1)) as [d'|]; simpl; [exact Hloop | exact H1].
Qed.

Lemma consistent_untag_selected ids selected db :
  consistent db -> consistent (untag_selected_from_selected_files ids selected db).
Proof.
  intros H. unfold untag_selected_from_selected_files.
  destruct ids as [|fid [|b l]]; try exact H.
  revert db H. induction selected as [|tid sel IH]; intros db H; cbn [fold_left]; [exact H|].
  apply IH. apply consistent_delete_file_tags. exact H.
Qed.

Lemma consistent_move_tag delta tid db : consistent db -> consistent (move_tag delta tid db).
Proof.
  intros H. unfold move_tag.
  destruct tid as [tid|]; [|exact H].
  destruct (find _ (tags db)) as [row|]; [|exact H].
  destruct (t_ord row) as [cur|]; [|exact H].
  destruct (if delta <? 0 then _ else _) as [[nb_row nb_ord]|]; [|exact H].
  apply consistent_set_tag_ord. apply consistent_set_tag_ord. exact H.
Qed.

Lemma consistent_init_db db : consistent db -> consistent (init_db db).
Proof.
  intros H. rewrite init_db_loop.
  generalize (map t_id (order_by t_name (filter ord_is_null (tags db)))). intros ids.
  assert (Hloop : forall st : DB * Z, consistent (fst st) ->
            consistent (fst (fold_left (fun '(db, nxt) tid => (set_tag_ord nxt tid db, nxt + 1))
                                       ids st))).
  { induction ids as [|x ids IH]; intros [d n] Hd; cbn [fold_left]; [exact Hd|].
    apply IH. simpl. apply consistent_set_tag_ord. exact Hd. }
  apply (Hloop (db, 1)). exact H.
Qed.

(** X18. The operations on files and roots keep the constraints of the
    schema: on a store where ids, paths, names, pairs, root paths and
    setting keys are unique and every association has its file and its
    tag, the store after [upsert_file], [remove_missing_under], [add_root],
    [remove_root], a whole index or rescan worker, [db_delete_file_by_path],
    [db_rename_file_path] (failed or not) and [delete_selected_files] is
    such a store again. *)
Theorem X18_file_operations_keep_the_schema (os : OS) (db : DB) :
  consistent db ->
  (forall path db', App.upsert_file os path db = Returned db' -> consistent db')
  /\ (forall root, consistent (fst (App.remove_missing_under os root db)))
  /\ (forall root, consistent (App.add_root os root db))
  /\ (forall root, consistent (App.remove_root os root db))
  /\ (forall root total step, consistent (db_of (App.index_worker os root total step db)))
  /\ (forall uniq total, consistent (db_of (App.rescan_worker os uniq total db)))
  /\ (forall path, consistent (db_delete_file_by_path os path db))
  /\ (forall old new, consistent (store_of (db_rename_file_path os old new db)))
  /\ (forall recycled ps, consistent (delete_selected_files os recycled ps db)).
Proof.
  intros H.
  split; [intros path db'; apply consistent_upsert_file; exact H|].
  split; [intros root; apply consistent_remove_missing_under; exact H|].
  split; [intros root; apply consistent_add_root; exact H|].
  split; [intros root; apply consistent_remove_root; exact H|].
  split; [intros root total step; apply consistent_index_worker; exact H|].
  split; [intros uniq total; apply consistent_rescan_worker; exact H|].
  split; [intros path; apply consistent_db_delete_file_by_path; exact H|].
  split; [intros old new; apply consistent_db_rename_file_path; exact H|].
  intros recycled ps. apply consistent_delete_selected_files. exact H.
Qed.

Lemma X18_file_operations_witness :
  consistent (db_of (App.rescan_worker Demo10.host ["/data/a"] 2 Demo10.stale_db)).
Proof.
  apply (X18_file_operations_keep_the_schema Demo10.host Demo10.stale_db).
  schema_check.
Defined.

(** X19. The operations on tags and settings keep the constraints of the
    schema: [ensure_tag], [add_tag], [delete_tags], [_rename_or_merge_tag]
    (renamed, merged or refused), [assign_tag_to_selected] (committed or
    failed), [untag_selected_from_selected_files], [move_tag], [init_db]
    and [set_setting]. *)
Theorem X19_tag_operations_keep_the_schema (db : DB) :
  consistent db ->
  (forall name, consistent (fst (App.ensure_tag name db)))
  /\ (forall text, consistent (add_tag text db))
  /\ (forall ids, consistent (delete_tags ids db))
  /\ (forall tid name, consistent (fst (App.rename_or_merge_tag tid name db)))
  /\ (forall text ids, consistent (store_of (assign_tag_to_selected text ids db)))
  /\ (forall ids selected, consistent (untag_selected_from_selected_files ids selected db))
  /\ (forall delta tid, consistent (move_tag delta tid db))
  /\ consistent (init_db db)
  /\ (forall key value, consistent (set_setting key value db)).
Proof.
  intros H.
  split; [intros name; apply consistent_ensure_tag; exact H|].
  split; [intros text; apply consistent_add_tag; exact H|].
  split; [intros ids; apply consistent_delete_tags; exact H|].
  split; [intros tid name; apply consistent_rename_or_merge_tag; exact H|].
  split; [intros text ids; apply consistent_assign_tag_to_selected; exact H|].
  split; [intros ids selected; apply consistent_untag_selected; exact H|].
  split; [intros delta tid; apply consistent_move_tag; exact H|].
  split; [apply consistent_init_db; exact H|].
  intros key value. apply consistent_set_setting. exact H.
Qed.

Lemma X19_tag_operations_witness :
  consistent (fst (App.rename_or_merge_tag 1 "later" Demo4.todo_later_db)).
Proof.
  apply (X19_tag_operations_keep_the_schema Demo4.todo_later_db).
  schema_check.
Defined.

(** ** Renaming and deleting catalog rows *)

Lemma NoDup_map_In_inj {A B} (key : A -> B) (l : list A) (a b : A) :
  NoDup (map key l) -> In a l -> In b l -> key a = key b -> a = b.
Proof.
  induction l as [|x l IH]; simpl; intros Hnd Ha Hb E; [contradiction|].
  inversion Hnd as [|? ? Hx Hnd']; subst.
  destruct Ha as [->|Ha]; destruct Hb as [->|Hb]; auto.
  - exfalso. apply Hx. rewrite E. apply in_map. exact Hb.
  - exfalso. apply Hx. rewrite <- E. apply in_map. exact Ha.
Qed.

(** X20. [db_rename_file_path].  When the catalog has a row for the old
    path and no other row has the new one, the row gets the new path and
    keeps its id, size, mtime and hash, every other row and every
    association is as before, so the file keeps its tags.  When another row
    has the new path the statement fails on [UNIQUE(path)] and the store
    stays as it was.  When no row has the old path nothing changes. *)
Theorem X20_db_rename_file_path (os : OS) (old new : string) (db : DB) :
  let o := App.normalize_path os old in
  let n := App.normalize_path os new in
  NoDup (map f_path (files db)) ->
  (forall f, In f (files db) -> f_path f = o ->
     (forall g, In g (files db) -> f_path g = n -> g = f) ->
     exists db',
       db_rename_file_path os old new db = Committed db'
       /\ In (mk_file (f_id f) n (f_size f) (f_mtime f) (f_hash f)) (files db')
       /\ (forall g, In g (files db) -> g <> f -> In g (files db'))
       /\ map f_id (files db') = map f_id (files db)
       /\ NoDup (map f_path (files db'))
       /\ file_tags db' = file_tags db /\ tags db' = tags db
       /\ roots db' = roots db /\ settings db' = settings db)
  /\ (forall f g, In f (files db) -> f_path f = o -> In g (files db) -> f_path g = n ->
                  n <> o -> db_rename_file_path os old new db = IntegrityError db)
  /\ ((forall f, In f (files db) -> f_path f <> o) ->
      db_rename_file_path os old new db = Committed db).
Proof.
  intros o n Hnd. unfold db_rename_file_path. cbv zeta. fold o. fold n.
  split; [|split].
  - intros f Hf Eo Hfree.
    assert (Hno : existsb (fun f => (f_path f =? n)%string && negb (f_path f =? o)%string)
                          (files db) = false).
    { apply not_true_is_false. intros E. apply existsb_exists in E as [g [Hg Eg]].
      apply andb_true_iff in Eg as [E1 E2]. apply String.eqb_eq in E1.
      apply negb_true_iff in E2. apply String.eqb_neq in E2.
      apply E2. rewrite (Hfree g Hg E1). exact Eo. }
    rewrite Hno, andb_false_r. eexists. split; [reflexivity|]. simpl.
    split; [|split; [|split; [|split]]].
    + apply in_map_iff. exists f. split; [|exact Hf].
      rewrite Eo, String.eqb_refl. reflexivity.
    + intros g Hg Hne. apply in_map_iff. exists g. split; [|exact Hg].
      destruct (String.eqb_spec (f_path g) o) as [E|E]; [|reflexivity].
      exfalso. apply Hne. apply (NoDup_map_In_inj f_path (files db)); auto. congruence.
    + apply map_key_update. intros a. destruct (_ =? _)%string; reflexivity.
    + assert (Hmap : map f_path
                         (map (fun f => if (f_path f =? o)%string
                                        then mk_file (f_id f) n (f_size f) (f_mtime f) (f_hash f)
                                        else f) (files db))
                     = map (fun p => if (p =? o)%string then n else p)
                           (map f_path (files db))).
      { rewrite !map_map. apply map_ext. intros a.
        destruct (f_path a =? o)%string; reflexivity. }
      rewrite Hmap. apply rename_keeps_paths_unique; [exact Hnd|].
      intros Hin. apply in_map_iff in Hin as [g [Eg Hg]].
      rewrite <- Eo. rewrite <- (Hfree g Hg Eg). symmetry. exact Eg.
    + repeat split; reflexivity.
  - intros f g Hf Eo Hg En Hne.
    assert (H1 : existsb (fun f => (f_path f =? o)%string) (files db) = true).
    { apply existsb_exists. exists f. split; [exact Hf|]. apply String.eqb_eq. exact Eo. }
    assert (H2 : existsb (fun f => (f_path f =? n)%string && negb (f_path f =? o)%string)
                         (files db) = true).
    { apply existsb_exists. exists g. split; [exact Hg|].
      rewrite En, String.eqb_refl. simpl. apply negb_true_iff. apply String.eqb_neq.
      exact Hne. }
    rewrite H1, H2. reflexivity.
  - intros Habs.
    assert (H1 : existsb (fun f => (f_path f =? o)%string) (files db) = false).
    { apply not_true_is_false. intros E. apply existsb_exists in E as [g [Hg Eg]].
      apply String.eqb_eq in Eg. exact (Habs g Hg Eg). }
    rewrite H1. simpl. f_equal.
    replace (map _ (files db)) with (files db); [destruct db; reflexivity|].
    symmetry. transitivity (map (fun f => f) (files db)); [|apply map_id].
    apply map_ext_in. intros a Ha.
    destruct (String.eqb_spec (f_path a) o) as [E|E]; [|reflexivity].
    exfalso. exact (Habs a Ha E).
Qed.

Lemma X20_db_rename_witness :
  db_rename_file_path Demo.empty_host "/data/F1" "/data/F2" Demo4.todo_later_db
  = IntegrityError Demo4.todo_later_db.
Proof.
  apply (proj1 (proj2 (X20_db_rename_file_path Demo.empty_host "/data/F1" "/data/F2"
                         Demo4.todo_later_db
                         ltac:(simpl; repeat constructor; simpl; intuition discriminate)))
           (mk_file 1 "/data/F1" 10 (100#1) None) (mk_file 2 "/data/F2" 20 (200#1) None)).
  - simpl. auto.
  - reflexivity.
  - simpl. auto.
  - reflexivity.
  - discriminate.
Defined.

(** A renamed file keeps its tags. *)
Example rename_keeps_the_tags :
  let r := db_rename_file_path Demo.empty_host "/data/F2" "/data/G2" Demo4.todo_later_db in
  App.list_files Demo.empty_host "G2" [] false None (store_of r)
  = Some [(2, "/data/G2", 20, 200#1, Some "todo, later")].
Proof. reflexivity. Qed.

(** The loop of [delete_selected_files] is one [DELETE] of every row whose
    path is the normalized path of a recycled file. *)
Lemma delete_selected_loop os recycled ps db :
  delete_selected_files os recycled ps db
  = delete_files (fun f => existsb (fun p => recycled p
                                             && (f_path f =? App.normalize_path os p)%string)
                                   ps) db.
Proof.
  unfold delete_selected_files. revert db.
  induction ps as [|p ps IH]; intros db; cbn [fold_left].
  - symmetry. apply delete_files_none. reflexivity.
  - rewrite IH. destruct (recycled p) eqn:E.
    + unfold db_delete_file_by_path. rewrite delete_files_twice.
      apply delete_files_ext. intros f _. simpl. rewrite E. reflexivity.
    + apply delete_files_ext. intros f _. simpl. rewrite E. reflexivity.
Qed.

(** X21. [delete_selected_files] removes from the catalog exactly the rows
    whose path is the normalized path of a selected file that
    [recycle_delete] moved to the bin, together with their associations;
    tags, roots and settings stay.  When no file could be recycled the
    store is as before. *)
Theorem X21_delete_selected_files (os : OS) (recycled : string -> bool) (ps : list string)
        (db : DB) :
  let db' := delete_selected_files os recycled ps db in
  let gone f := existsb (fun p => recycled p
                                  && (f_path f =? App.normalize_path os p)%string) ps in
  files db' = filter (fun f => negb (gone f)) (files db)
  /\ tags db' = tags db /\ roots db' = roots db /\ settings db' = settings db
  /\ (forall ft, In ft (file_tags db')
                 <-> In ft (file_tags db)
                     /\ forall f, In f (files db) -> f_id f = ft_file ft -> gone f = false)
  /\ ((forall p, In p ps -> recycled p = false) -> db' = db).
Proof.
  intros db' gone. unfold db'. rewrite delete_selected_loop. fold gone.
  split; [reflexivity|]. do 3 (split; [reflexivity|]).
  split; [intros ft; apply delete_files_file_tags|].
  intros Hnone. apply delete_files_none. intros f _. unfold gone.
  apply not_true_is_false. intros E. apply existsb_exists in E as [p [Hp Ep]].
  rewrite (Hnone p Hp) in Ep. discriminate.
Qed.

Lemma X21_delete_selected_witness :
  delete_selected_files Demo.empty_host (fun _ => false) ["/data/F1"] Demo4.todo_later_db
  = Demo4.todo_later_db.
Proof.
  apply (proj2 (proj2 (proj2 (proj2 (proj2
           (X21_delete_selected_files Demo.empty_host (fun _ => false) ["/data/F1"]
              Demo4.todo_later_db)))))).
  intros p _. reflexivity.
Defined.

(** ** Moving a tag in the list *)

Lemma with_ord_In (p : Z -> bool) (ts : list tag_row) (t : tag_row) (o : Z) :
  In (t, o) (with_ord p ts) <-> In t ts /\ t_ord t = Some o /\ p o = true.
Proof.
  unfold with_ord. rewrite in_flat_map. split.
  - intros [u [Hu Hin]]. destruct (t_ord u) as [x|] eqn:E; [|contradiction].
    destruct (p x) eqn:Ep; [|contradiction].
    destruct Hin as [Hin|[]]. injection Hin as <- <-. auto.
  - intros [Ht [E Ep]]. exists t. split; [exact Ht|]. rewrite E, Ep. left. reflexivity.
Qed.

(** [ORDER BY ... LIMIT 1] returns a row of its input that no other row
    comes before. *)
Lemma first_by_spec (before : Z -> Z -> bool) (l : list (tag_row * Z)) :
  (forall a b c, before a b = false -> before b c = false -> before a c = false) ->
  (forall a b, before a b = true -> before b a = false) ->
  (forall a, before a a = false) ->
  match first_by before l with
  | None => l = []
  | Some x => In x l /\ forall y, In y l -> before (snd y) (snd x) = false
  end.
Proof.
  intros Htrans Hasym Hirr. unfold first_by.
  assert (H : forall (l : list (tag_row * Z)) (b : tag_row * Z),
             exists x,
               fold_left (fun best (x : tag_row * Z) =>
                            match best with
                            | None => Some x
                            | Some b => if before (snd x) (snd b) then Some x else Some b
                            end) l (Some b) = Some x
               /\ In x (b :: l)
               /\ forall y, In y (b :: l) -> before (snd y) (snd x) = false).
  { clear l. induction l as [|a l IH]; intros b; cbn [fold_left].
    - exists b. split; [reflexivity|]. split; [left; reflexivity|].
      intros y [<-|[]]. apply Hirr.
    - destruct (before (snd a) (snd b)) eqn:E.
      + destruct (IH a) as [x [Hx [Hin Hall]]]. exists x. split; [exact Hx|].
        split; [right; exact Hin|].
        intros y [<-|Hy]; [|apply Hall; exact Hy].
        apply (Htrans _ (snd a)); [apply Hasym; exact E|].
        apply Hall. left. reflexivity.
      + destruct (IH b) as [x [Hx [Hin Hall]]]. exists x. split; [exact Hx|].
        split; [destruct Hin as [<-|Hin]; [left; reflexivity | right; right; exact Hin]|].
        intros y [<-|[<-|Hy]].
        * apply Hall. left. reflexivity.
        * apply (Htrans _ (snd b)); [exact E|]. apply Hall. left. reflexivity.
        * apply Hall. right. exact Hy. }
  destruct l as [|a l]; cbn [fold_left]; [reflexivity|].
  destruct (H l a) as [x [Hx Hrest]]. rewrite Hx. exact Hrest.
Qed.

Lemma set_tag_ord_tags (o tid : Z) (db : DB) :
  tags (set_tag_ord o tid db)
  = map (fun t => if t_id t =? tid then mk_tag (t_id t) (t_name t) (Some o) else t) (tags db).
Proof. reflexivity. Qed.

(** One [UPDATE tags SET ord=? WHERE id=?] on unique ids replaces one value
    of the column. *)
Lemma set_ord_perm (l : list tag_row) (tid o' : Z) (row : tag_row) :
  NoDup (map t_id l) -> In row l -> t_id row = tid ->
  Permutation
    (t_ord row :: map t_ord (map (fun t => if t_id t =? tid
                                           then mk_tag (t_id t) (t_name t) (Some o')
                                           else t) l))
    (Some o' :: map t_ord l).
Proof.
  induction l as [|h l IH]; intros Hnd Hin E; [contradiction|].
  inversion Hnd as [|? ? Hh Hnd']; subst. cbn [map].
  destruct Hin as [->|Hin].
  - rewrite Z.eqb_refl. cbn [t_ord].
    replace (map _ l) with l; [apply perm_swap|].
    symmetry. transitivity (map (fun t => t) l); [|apply map_id].
    apply map_ext_in. intros a Ha.
    destruct (Z.eqb_spec (t_id a) (t_id row)) as [Ea|Ea]; [|reflexivity].
    exfalso. apply Hh. rewrite <- Ea. apply in_map. exact Ha.
  - destruct (Z.eqb_spec (t_id h) (t_id row)) as [Eh|Eh].
    + exfalso. apply Hh. rewrite Eh. apply in_map. exact Hin.
    + eapply perm_trans; [apply perm_swap|].
      eapply perm_trans; [apply perm_skip; apply (IH Hnd' Hin eq_refl)|].
      apply perm_swap.
Qed.

(** The two updates of [move_tag] on the tag [row] and its neighbour [nb]. *)
Lemma swap_ords (db : DB) (row nb : tag_row) (cur nbo : Z) :
  NoDup (map t_id (tags db)) ->
  In row (tags db) -> t_ord row = Some cur ->
  In nb (tags db) -> t_ord nb = Some nbo -> nbo <> cur ->
  let db' := set_tag_ord cur (t_id nb) (set_tag_ord nbo (t_id row) db) in
  tags db'
  = map (fun t => if t_id t =? t_id row then mk_tag (t_id t) (t_name t) (Some nbo)
                  else if t_id t =? t_id nb then mk_tag (t_id t) (t_name t) (Some cur)
                  else t) (tags db)
  /\ Permutation (map t_ord (tags db')) (map t_ord (tags db)).
Proof.
  intros Hnd Hrow Ecur Hnb Enbo Hne db'.
  assert (Hids : t_id nb <> t_id row).
  { intros E. apply Hne.
    assert (nb = row) by (apply (NoDup_map_In_inj t_id (tags db)); auto).
    subst nb. congruence. }
  split.
  - unfold db'. rewrite !set_tag_ord_tags, map_map. apply map_ext. intros t.
    destruct (Z.eqb_spec (t_id t) (t_id row)) as [E1|E1]; cbn [t_id].
    + rewrite E1. destruct (Z.eqb_spec (t_id row) (t_id nb)) as [E2|E2]; [|reflexivity].
      exfalso. apply Hids. symmetry. exact E2.
    + reflexivity.
  - unfold db'. rewrite !set_tag_ord_tags.
    set (l1 := map (fun t => if t_id t =? t_id row
                             then mk_tag (t_id t) (t_name t) (Some nbo) else t) (tags db)).
    assert (Hids1 : map t_id l1 = map t_id (tags db)).
    { apply map_key_update. intros a. destruct (_ =? _); reflexivity. }
    assert (Hnb1 : In nb l1).
    { apply in_map_iff. exists nb. split; [|exact Hnb].
      destruct (Z.eqb_spec (t_id nb) (t_id row)) as [E|E]; [contradiction | reflexivity]. }
    pose proof (set_ord_perm (tags db) (t_id row) nbo row Hnd Hrow eq_refl) as P1.
    fold l1 in P1. rewrite Ecur in P1.
    assert (Hnd1 : NoDup (map t_id l1)) by (rewrite Hids1; exact Hnd).
    pose proof (set_ord_perm l1 (t_id nb) cur nb Hnd1 Hnb1 eq_refl) as P2.
    rewrite Enbo in P2.
    apply (Permutation_cons_inv (a := Some nbo)).
    eapply perm_trans; [exact P2|]. exact P1.
Qed.

(** X22. [move_tag] on a tag that has an [ord], in a table with unique ids.
    Moving up ([delta < 0]) looks for the greatest [ord] below the tag's
    own, moving down for the least above it.  When there is none the store
    is unchanged.  Otherwise the tag and that neighbour exchange their
    [ord]; ids and names stay, the values of the column are the same ones
    in another arrangement, and files, associations, roots and settings are
    as before. *)
Theorem X22_move_tag_swaps_with_neighbour (delta tid : Z) (db : DB) (row : tag_row)
        (cur : Z) :
  NoDup (map t_id (tags db)) ->
  In row (tags db) -> t_id row = tid -> t_ord row = Some cur ->
  let db' := move_tag delta (Some tid) db in
  let beyond o := if delta <? 0 then o <? cur else cur <? o in
  let nearer a b := if delta <? 0 then b <? a else a <? b in
  ((forall t o, In t (tags db) -> t_ord t = Some o -> beyond o = false) -> db' = db)
  /\ (forall t o, In t (tags db) -> t_ord t = Some o -> beyond o = true ->
      exists nb nbo,
        In nb (tags db) /\ t_ord nb = Some nbo /\ beyond nbo = true
        /\ (forall t' o', In t' (tags db) -> t_ord t' = Some o' -> beyond o' = true ->
                          nearer o' nbo = false)
        /\ tags db'
           = map (fun t => if t_id t =? tid then mk_tag (t_id t) (t_name t) (Some nbo)
                           else if t_id t =? t_id nb
                                then mk_tag (t_id t) (t_name t) (Some cur)
                                else t) (tags db))
  /\ map t_id (tags db') = map t_id (tags db)
  /\ map t_name (tags db') = map t_name (tags db)
  /\ Permutation (map t_ord (tags db')) (map t_ord (tags db))
  /\ files db' = files db /\ file_tags db' = file_tags db
  /\ roots db' = roots db /\ settings db' = settings db.
Proof.
  intros Hnd Hrow Eid Ecur db' beyond nearer.
  assert (Hfind : find (fun t => t_id t =? tid) (tags db) = Some row).
  { destruct (find (fun t => t_id t =? tid) (tags db)) as [r|] eqn:Ef.
    - destruct (find_some _ _ Ef) as [Hr Er]. apply Z.eqb_eq in Er. f_equal.
      apply (NoDup_map_In_inj t_id (tags db)); auto. congruence.
    - pose proof (find_none _ _ Ef row Hrow) as Hn. simpl in Hn.
      apply Z.eqb_neq in Hn. contradiction. }
  assert (Hrun : db' = match first_by nearer (with_ord beyond (tags db)) with
                       | None => db
                       | Some (nb_row, nb_ord) =>
                           set_tag_ord cur (t_id nb_row) (set_tag_ord nb_ord tid db)
                       end).
  { unfold db', move_tag. rewrite Hfind, Ecur. unfold nearer, beyond.
    destruct (delta <? 0); reflexivity. }
  assert (Hspec : match first_by nearer (with_ord beyond (tags db)) with
                  | None => with_ord beyond (tags db) = []
                  | Some x => In x (with_ord beyond (tags db))
                              /\ forall y, In y (with_ord beyond (tags db)) ->
                                           nearer (snd y) (snd x) = false
                  end).
  { apply first_by_spec; unfold nearer; destruct (delta <? 0); intros; lia. }
  destruct (first_by nearer (with_ord beyond (tags db))) as [[nb nbo]|] eqn:Efb.
  - destruct Hspec as [Hin Hbest]. apply with_ord_In in Hin as [Hnb [Enbo Hbey]].
    assert (Hne : nbo <> cur).
    { unfold beyond in Hbey. destruct (delta <? 0); lia. }
    destruct (swap_ords db row nb cur nbo Hnd Hrow Ecur Hnb Enbo Hne) as [Htags Hperm].
    rewrite Eid in Htags, Hperm. cbv zeta in Htags, Hperm. rewrite <- Hrun in Htags, Hperm.
    split; [|split; [|split; [|split; [|split]]]].
    + intros Hnone. rewrite (Hnone nb nbo Hnb Enbo) in Hbey. discriminate.
    + intros _ _ _ _ _. exists nb, nbo.
      split; [exact Hnb|]. split; [exact Enbo|]. split; [exact Hbey|].
      split; [|exact Htags].
      intros t' o' Ht' Eo' Hb'. apply (Hbest (t', o')). apply with_ord_In. auto.
    + rewrite Htags. apply map_key_update. intros a.
      destruct (_ =? _); [reflexivity|]. destruct (_ =? _); reflexivity.
    + rewrite Htags. apply map_key_update. intros a.
      destruct (_ =? _); [reflexivity|]. destruct (_ =? _); reflexivity.
    + exact Hperm.
    + rewrite Hrun. repeat split; reflexivity.
  - rewrite Hrun.
    split; [reflexivity|]. split; [|repeat split; reflexivity].
    intros t o Ht Eo Hb. exfalso.
    assert (Hin : In (t, o) (with_ord beyond (tags db))) by (apply with_ord_In; auto).
    rewrite Hspec in Hin. exact Hin.
Qed.

Lemma X22_move_tag_witness :
  move_tag (-1) (Some 1) Demo4.todo_later_db = Demo4.todo_later_db
  /\ exists nb nbo,
       In nb (tags Demo4.todo_later_db) /\ t_ord nb = Some nbo /\ (1 <? nbo) = true
       /\ (forall t' o', In t' (tags Demo4.todo_later_db) -> t_ord t' = Some o' ->
                         (1 <? o') = true -> (o' <? nbo) = false)
       /\ tags (move_tag 1 (Some 1) Demo4.todo_later_db)
          = map (fun t => if t_id t =? 1 then mk_tag (t_id t) (t_name t) (Some nbo)
                          else if t_id t =? t_id nb
                               then mk_tag (t_id t) (t_name t) (Some 1)
                               else t) (tags Demo4.todo_later_db).
Proof.
  assert (Hnd : NoDup (map t_id (tags Demo4.todo_later_db))).
  { simpl. repeat constructor; simpl; intuition discriminate. }
  split.
  - apply (proj1 (X22_move_tag_swaps_with_neighbour (-1) 1 Demo4.todo_later_db Demo4.todo 1
                    Hnd (or_introl eq_refl) eq_refl eq_refl)).
    intros t o [<-|[<-|[]]] E; injection E as <-; reflexivity.
  - apply (proj1 (proj2 (X22_move_tag_swaps_with_neighbour 1 1 Demo4.todo_later_db
                           Demo4.todo 1 Hnd (or_introl eq_refl) eq_refl eq_refl))
             Demo4.later 2).
    + simpl. auto.
    + reflexivity.
    + reflexivity.
Defined.

(** ** The tag lists and the counts beside them *)

Lemma tag_le_total (a b : tag_row) : tag_le a b = false -> tag_le b a = true.
Proof.
  unfold tag_le. destruct (t_ord a) as [x|], (t_ord b) as [y|];
    try discriminate; try reflexivity; try apply leb_false_flip.
  destruct (Z.ltb_spec x y), (Z.ltb_spec y x); try discriminate; try reflexivity; try lia.
  apply leb_false_flip.
Qed.

Lemma tag_le_trans (a b c : tag_row) :
  tag_le a b = true -> tag_le b c = true -> tag_le a c = true.
Proof.
  unfold tag_le. destruct (t_ord a) as [x|], (t_ord b) as [y|], (t_ord c) as [z|];
    try discriminate; try reflexivity; try apply leb_trans.
  destruct (Z.ltb_spec x y), (Z.ltb_spec y x), (Z.ltb_spec y z), (Z.ltb_spec z y),
    (Z.ltb_spec x z), (Z.ltb_spec z x);
    try discriminate; try reflexivity; try lia.
  apply leb_trans.
Qed.

Lemma insert_tag_perm (x : tag_row) (l : list tag_row) :
  Permutation (insert_tag x l) (x :: l).
Proof.
  induction l as [|y l IH]; simpl.
  - apply Permutation_refl.
  - destruct (tag_le x y).
    + apply Permutation_refl.
    + eapply Permutation_trans; [apply perm_skip; exact IH | apply perm_swap].
Qed.

Lemma order_tags_perm (l : list tag_row) : Permutation (order_tags l) l.
Proof.
  induction l as [|x l IH]; simpl.
  - apply Permutation_refl.
  - eapply Permutation_trans; [apply insert_tag_perm | apply perm_skip; exact IH].
Qed.

Lemma insert_tag_sorted (x : tag_row) (l : list tag_row) :
  StronglySorted (fun a b => tag_le a b = true) l ->
  StronglySorted (fun a b => tag_le a b = true) (insert_tag x l).
Proof.
  induction l as [|y l IH]; simpl; intros Hs.
  - repeat constructor.
  - inversion Hs as [|? ? Hs' Hall]; subst.
    destruct (tag_le x y) eqn:E.
    + constructor; [exact Hs|]. constructor; [exact E|].
      rewrite Forall_forall in *. intros z Hz. eapply tag_le_trans; [exact E | auto].
    + constructor; [apply IH; exact Hs'|].
      rewrite Forall_forall in *. intros z Hz.
      apply (Permutation_in _ (insert_tag_perm x l)) in Hz. destruct Hz as [<-|Hz].
      * apply tag_le_total. exact E.
      * auto.
Qed.

Lemma order_tags_sorted (l : list tag_row) :
  StronglySorted (fun a b => tag_le a b = true) (order_tags l).
Proof.
  induction l as [|x l IH]; simpl.
  - constructor.
  - apply insert_tag_sorted. exact IH.
Qed.

(** The join of [list_file_tags]: with unique pairs a tag is joined at most
    once. *)
Lemma joined_tags (fid : Z) (db : DB) :
  NoDup (file_tags db) ->
  flat_map (fun t => map (fun _ => t)
                         (filter (fun ft => (ft_tag ft =? t_id t) && (ft_file ft =? fid))
                                 (file_tags db)))
           (tags db)
  = filter (fun t => existsb (ft_eqb (mk_ft fid (t_id t))) (file_tags db)) (tags db).
Proof.
  intros Hnd. induction (tags db) as [|t l IH]; simpl; [reflexivity|]. rewrite IH.
  assert (Hf : filter (fun ft => (ft_tag ft =? t_id t) && (ft_file ft =? fid)) (file_tags db)
               = filter (fun ft => (ft_file ft =? fid) && (ft_tag ft =? t_id t))
                        (file_tags db)).
  { apply filter_ext. intros ft. apply andb_comm. }
  rewrite Hf.
  destruct (existsb (ft_eqb (mk_ft fid (t_id t))) (file_tags db)) eqn:E.
  - destruct (NoDup_filter_same_ft (file_tags db) fid (t_id t) Hnd) as [E0|E1].
    + exfalso. apply existsb_ft_eqb in E.
      assert (Hin : In (mk_ft fid (t_id t))
                       (filter (fun ft => (ft_file ft =? fid) && (ft_tag ft =? t_id t))
                               (file_tags db))).
      { apply filter_In. split; [exact E|]. simpl. rewrite !Z.eqb_refl. reflexivity. }
      rewrite E0 in Hin. exact Hin.
    + rewrite E1. reflexivity.
  - replace (filter _ (file_tags db)) with (@nil file_tag_row); [reflexivity|].
    symmetry. apply filter_none. apply not_true_is_false. intros Ex.
    apply existsb_exists in Ex as [ft [Hft Eft]].
    apply andb_true_iff in Eft as [E1 E2]. apply Z.eqb_eq in E1, E2.
    assert (Hin : existsb (ft_eqb (mk_ft fid (t_id t))) (file_tags db) = true).
    { apply existsb_ft_eqb. rewrite <- E1, <- E2, <- ft_eta. exact Hft. }
    congruence.
Qed.

(** X23. [list_tags] returns every row of [tags] once, rows without [ord]
    first, then by ascending [ord], equal values by name.
    [list_file_tags] returns, in the same order, the id and name of the
    tags that are associated with the file: with unique pairs and unique
    tag ids exactly those, each once. *)
Theorem X23_tag_lists (fid : Z) (db : DB) :
  (exists rows,
     list_tags db = map (fun t => (t_id t, t_name t, t_ord t)) rows
     /\ Permutation rows (tags db)
     /\ StronglySorted (fun a b => tag_le a b = true) rows)
  /\ (NoDup (file_tags db) -> NoDup (map t_id (tags db)) ->
      exists rows,
        list_file_tags fid db = map (fun t => (t_id t, t_name t)) rows
        /\ StronglySorted (fun a b => tag_le a b = true) rows
        /\ NoDup (map fst (list_file_tags fid db))
        /\ forall tid name,
             In (tid, name) (list_file_tags fid db)
             <-> exists t, In t (tags db) /\ t_id t = tid /\ t_name t = name
                           /\ has_tag db fid tid).
Proof.
  split.
  - exists (order_tags (tags db)). split; [reflexivity|].
    split; [apply order_tags_perm | apply order_tags_sorted].
  - intros Hft Hids. unfold list_file_tags. rewrite (joined_tags fid db Hft).
    set (mine := filter (fun t => existsb (ft_eqb (mk_ft fid (t_id t))) (file_tags db))
                        (tags db)).
    exists (order_tags mine). split; [reflexivity|]. split; [apply order_tags_sorted|].
    split.
    + rewrite map_map. cbn [fst].
      apply (Permutation_NoDup (l := map t_id mine)).
      * apply Permutation_map. symmetry. apply order_tags_perm.
      * apply NoDup_map_filter. exact Hids.
    + intros tid name. rewrite in_map_iff. split.
      * intros [t [E Ht]]. injection E as <- <-.
        apply (Permutation_in _ (order_tags_perm mine)) in Ht.
        apply filter_In in Ht as [Ht Ex]. apply existsb_ft_eqb in Ex.
        exists t. auto.
      * intros [t [Ht [<- [<- Hhas]]]]. exists t. split; [reflexivity|].
        apply (Permutation_in _ (Permutation_sym (order_tags_perm mine))).
        apply filter_In. split; [exact Ht|]. apply existsb_ft_eqb. exact Hhas.
Qed.

Lemma X23_tag_lists_witness :
  In (2, "later") (list_file_tags 3 Demo4.todo_later_db)
  <-> exists t, In t (tags Demo4.todo_later_db) /\ t_id t = 2 /\ t_name t = "later"
                /\ has_tag Demo4.todo_later_db 3 2.
Proof.
  destruct (proj2 (X23_tag_lists 3 Demo4.todo_later_db)) as [rows [_ [_ [_ H]]]].
  - simpl. repeat constructor; simpl; intuition discriminate.
  - simpl. repeat constructor; simpl; intuition discriminate.
  - apply H.
Defined.

(** Without [ord] first, then by [ord]. *)
Example list_tags_legacy :
  list_tags Demo12.legacy_db = [(3, "alpha", None); (1, "zeta", None); (2, "work", Some 5)].
Proof. reflexivity. Qed.

Lemma find_by_tag_id (c : tag_row -> Z) (l : list tag_row) (t : tag_row) :
  NoDup (map t_id l) -> In t l ->
  find (fun kv : Z * Z => fst kv =? t_id t) (map (fun u => (t_id u, c u)) l)
  = Some (t_id t, c t).
Proof.
  induction l as [|h l IH]; intros Hnd Hin; [contradiction|].
  inversion Hnd as [|? ? Hh Hnd']; subst. cbn [map find fst].
  destruct Hin as [->|Hin].
  - rewrite Z.eqb_refl. reflexivity.
  - destruct (Z.eqb_spec (t_id h) (t_id t)) as [E|E].
    + exfalso. apply Hh. rewrite E. apply in_map. exact Hin.
    + apply IH; assumption.
Qed.

(** On a consistent store the associations of a tag and the files that
    carry it are as many. *)
Lemma count_by_tag_is_count_of_files (db : DB) (tid : Z) :
  consistent db ->
  List.length (filter (fun ft => ft_tag ft =? tid) (file_tags db))
  = List.length (flat_map (join_rows db [tid]) (files db)).
Proof.
  intros [H1 H2 H3 H4 H5 H6 H7 H8 H9].
  rewrite (flat_map_at_most_one (join_rows db [tid]) (files db))
    by (intros f; apply join_rows_at_most_one; exact H5).
  set (carries := fun f => match join_rows db [tid] f with [] => false | _ => true end).
  assert (Hcar : forall f, carries f = true <-> has_tag db (f_id f) tid).
  { intros f. unfold carries. split.
    - intros E. destruct (join_rows db [tid] f) as [|g l] eqn:Ej; [discriminate|].
      assert (Hg : In g (join_rows db [tid] f)) by (rewrite Ej; left; reflexivity).
      apply join_rows_In in Hg as [_ Hall]. apply Hall. left. reflexivity.
    - intros Hhas.
      assert (Hin : In f (join_rows db [tid] f)).
      { apply join_rows_complete. intros t [<-|[]]. exact Hhas. }
      destruct (join_rows db [tid] f); [contradiction | reflexivity]. }
  rewrite <- (length_map ft_file), <- (length_map f_id (filter carries (files db))).
  apply Permutation_length. apply NoDup_Permutation.
  - assert (Hinj : forall l, NoDup l ->
               NoDup (map ft_file (filter (fun ft => ft_tag ft =? tid) l))).
    { induction 1 as [|x l Hx Hnd IH]; simpl; [constructor|].
      destruct (Z.eqb_spec (ft_tag x) tid) as [E|E]; [|exact IH].
      cbn [map]. constructor; [|exact IH].
      intros Hin. apply in_map_iff in Hin as [y [Ey Hy]].
      apply filter_In in Hy as [Hy Et]. apply Z.eqb_eq in Et.
      apply Hx. rewrite (ft_eta x), <- Ey, E, <- Et, <- ft_eta. exact Hy. }
    apply Hinj. exact H5.
  - apply NoDup_map_filter. exact H1.
  - intros x. rewrite !in_map_iff. split.
    + intros [ft [<- Hft]]. apply filter_In in Hft as [Hft Et]. apply Z.eqb_eq in Et.
      destruct (proj1 (in_map_iff _ _ _) (H8 ft Hft)) as [f [Ef Hf]].
      exists f. split; [exact Ef|]. apply filter_In. split; [exact Hf|].
      apply Hcar. unfold has_tag. rewrite Ef, <- Et, <- ft_eta. exact Hft.
    + intros [f [<- Hf]]. apply filter_In in Hf as [Hf Hc]. apply Hcar in Hc.
      exists (mk_ft (f_id f) tid). split; [reflexivity|].
      apply filter_In. split; [exact Hc|]. simpl. apply Z.eqb_refl.
Qed.

Lemma join_no_tags (db : DB) (l : list file_row) : flat_map (join_rows db []) l = l.
Proof. induction l as [|f l IH]; [reflexivity|]. cbn [flat_map]. rewrite IH. reflexivity. Qed.

(** X24. The counts of the tag list on a consistent store: the entry of a
    tag in [count_files_by_tag] is the number of its associations, which is
    the number of rows that [list_files] returns for that tag alone; an id
    that is no tag has no entry, so the caller's default applies; and
    [count_all_files] is the number of rows that [list_files] returns
    without any condition. *)
Theorem X24_count_files_by_tag (os : OS) (db : DB) :
  consistent db ->
  (forall t, In t (tags db) ->
     dict_get (count_files_by_tag db) (t_id t) 0
     = Z.of_nat (List.length (filter (fun ft => ft_tag ft =? t_id t) (file_tags db)))
     /\ exists rows,
          App.list_files os "" [t_id t] false None db = Some rows
          /\ dict_get (count_files_by_tag db) (t_id t) 0 = Z.of_nat (List.length rows))
  /\ (forall tid default, ~ In tid (map t_id (tags db)) ->
        dict_get (count_files_by_tag db) tid default = default)
  /\ (exists rows,
        App.list_files os "" [] false None db = Some rows
        /\ count_all_files db = Z.of_nat (List.length rows)).
Proof.
  intros H. split; [|split].
  - intros t Ht.
    assert (Hget : dict_get (count_files_by_tag db) (t_id t) 0
                   = Z.of_nat (List.length (filter (fun ft => ft_tag ft =? t_id t)
                                                   (file_tags db)))).
    { unfold dict_get, count_files_by_tag.
      rewrite (find_by_tag_id
                 (fun u => Z.of_nat (List.length (filter (fun ft => ft_tag ft =? t_id u)
                                                         (file_tags db))))
                 (order_tags (tags db)) t).
      - reflexivity.
      - apply (Permutation_NoDup (l := map t_id (tags db))).
        + apply Permutation_map. symmetry. apply order_tags_perm.
        + destruct H; assumption.
      - apply (Permutation_in _ (Permutation_sym (order_tags_perm (tags db)))). exact Ht. }
    split; [exact Hget|].
    rewrite list_files_shape. eexists. split; [reflexivity|].
    rewrite Hget, length_map. f_equal.
    rewrite (Permutation_length (order_by_perm f_path _)).
    rewrite (filter_all _ (flat_map _ (files db))) by reflexivity.
    apply count_by_tag_is_count_of_files. exact H.
  - intros tid default Hno. unfold dict_get, count_files_by_tag.
    destruct (find _ _) as [kv|] eqn:Ef; [|reflexivity]. exfalso.
    destruct (find_some _ _ Ef) as [Hin E]. apply Z.eqb_eq in E.
    apply in_map_iff in Hin as [u [<- Hu]]. simpl in E. apply Hno. rewrite <- E.
    apply in_map. apply (Permutation_in _ (order_tags_perm (tags db))). exact Hu.
  - rewrite list_files_shape. eexists. split; [reflexivity|].
    rewrite length_map, (Permutation_length (order_by_perm f_path _)).
    rewrite (filter_all _ (flat_map _ (files db))) by reflexivity.
    rewrite join_no_tags. reflexivity.
Qed.

Lemma X24_count_files_by_tag_witness :
  dict_get (count_files_by_tag Demo4.todo_later_db) 2 0
  = Z.of_nat (List.length (filter (fun ft => ft_tag ft =? 2)
                                  (file_tags Demo4.todo_later_db))).
Proof.
  apply (proj1 (proj1 (X24_count_files_by_tag Demo.empty_host Demo4.todo_later_db
                         ltac:(schema_check)) Demo4.later (or_intror (or_introl eq_refl)))).
Defined.
